(** * haproxyctl: the typed statistics model (cmd/haproxyctl/models.go)

    A shallow embedding of [models.go] and of the library functions it
    calls, followed by the properties of the specification that concern
    them.

    Go strings are byte sequences: they are modelled as [string], whose
    characters are bytes.  Go's [uint64] and [int64] are modelled as [Z]
    with the wrap-around written out ([u64], [i64]).  Go's [float64] is the
    IEEE-754 binary64 format of [SpecFloat]. *)

From Stdlib Require Import ZArith String Ascii List Bool Lia SpecFloat.
Import ListNotations.

Local Open Scope string_scope.
Local Open Scope Z_scope.

(** ** Machine integers, bytes and errors *)

Definition u64 (z : Z) : Z := z mod 2 ^ 64.
Definition i64 (z : Z) : Z := (z + 2 ^ 63) mod 2 ^ 64 - 2 ^ 63.

Definition byte (c : ascii) : Z := Z.of_N (N_of_ascii c).

Definition isDigit (c : ascii) : bool := (48 <=? byte c) && (byte c <=? 57).

Definition ascii_eqb (a b : ascii) : bool := Ascii.eqb a b.

(** Go's [error] values that the modelled code can return.  The message
    text of the library errors is kept as data (the offending input), not
    formatted. *)
Inductive error : Type :=
| ErrInvalidDuration (orig : string)
| ErrMissingUnit (orig : string)
| ErrUnknownUnit (u orig : string)
| ErrSyntax (fn num : string)
| ErrRange (fn num : string)
| ErrUseLastResponse
| ErrOther (msg : string).

(** ** float64 *)

Definition float64 : Type := spec_float.

Definition f64_of_uint64 (n : Z) : float64 := binary_normalize 53 1024 n 0 false.
Definition f64_mul : float64 -> float64 -> float64 := SFmul 53 1024.
Definition f64_div : float64 -> float64 -> float64 := SFdiv 53 1024.

(** The conversion [uint64(x)] truncates towards zero.  Outside
    [0, 2^64) Go leaves the result to the implementation; the model
    returns [2^63] there, as amd64 does. *)
Definition uint64_of_f64 (x : float64) : Z :=
  match x with
  | S754_zero _ => 0
  | S754_finite false m e =>
      let t := Z.shiftl (Zpos m) e in
      if t <? 2 ^ 64 then t else 2 ^ 63
  | S754_finite true m e =>
      if Z.shiftl (Zpos m) e =? 0 then 0 else 2 ^ 63
  | _ => 2 ^ 63
  end.

(** ** Package [time] of the Go standard library *)

Module time.

(** [type Duration int64]: a count of nanoseconds. *)
Definition Duration : Type := Z.

Definition Nanosecond : Z := 1.
Definition Microsecond : Z := 1000 * Nanosecond.
Definition Millisecond : Z := 1000 * Microsecond.
Definition Second : Z := 1000 * Millisecond.
Definition Minute : Z := 60 * Second.
Definition Hour : Z := 60 * Minute.

(** The two spellings of the micro sign, as UTF-8 bytes. *)
Definition micro_sign : string :=
  String (ascii_of_nat 194) (String (ascii_of_nat 181) EmptyString).
Definition greek_mu : string :=
  String (ascii_of_nat 206) (String (ascii_of_nat 188) EmptyString).

Definition unitMap (u : string) : option Z :=
  if String.eqb u "ns" then Some Nanosecond
  else if String.eqb u "us" then Some Microsecond
  else if String.eqb u (micro_sign ++ "s") then Some Microsecond
  else if String.eqb u (greek_mu ++ "s") then Some Microsecond
  else if String.eqb u "ms" then Some Millisecond
  else if String.eqb u "s" then Some Second
  else if String.eqb u "m" then Some Minute
  else if String.eqb u "h" then Some Hour
  else None.

(** [leadingInt] consumes the leading [[0-9]*] of [s]; [None] is
    [errLeadingInt] (overflow). *)
Fixpoint leadingInt_from (x : Z) (s : string) : option (Z * string) :=
  match s with
  | EmptyString => Some (x, s)
  | String c rest =>
      if negb (isDigit c) then Some (x, s)
      else if x >? 2 ^ 63 / 10 then None
      else
        let x' := u64 (x * 10 + byte c - 48) in
        if x' >? 2 ^ 63 then None else leadingInt_from x' rest
  end.

Definition leadingInt (s : string) : option (Z * string) := leadingInt_from 0 s.

(** [leadingFraction] consumes the leading [[0-9]*] of [s]; on overflow it
    stops accumulating precision. *)
Fixpoint leadingFraction_from (x : Z) (scale : float64) (overflow : bool)
    (s : string) : Z * float64 * string :=
  match s with
  | EmptyString => (x, scale, s)
  | String c rest =>
      if negb (isDigit c) then (x, scale, s)
      else if overflow then leadingFraction_from x scale overflow rest
      else if x >? (2 ^ 63 - 1) / 10 then leadingFraction_from x scale true rest
      else
        let y := u64 (x * 10 + byte c - 48) in
        if y >? 2 ^ 63 then leadingFraction_from x scale true rest
        else leadingFraction_from y (f64_mul scale (f64_of_uint64 10)) false rest
  end.

Definition leadingFraction (s : string) : Z * float64 * string :=
  leadingFraction_from 0 (f64_of_uint64 1) false s.

(** The unit is the longest prefix without ['.'] and digits. *)
Fixpoint span_unit (s : string) : string * string :=
  match s with
  | EmptyString => (EmptyString, EmptyString)
  | String c rest =>
      if ascii_eqb c "."%char || isDigit c then (EmptyString, s)
      else let '(u, r) := span_unit rest in (String c u, r)
  end.

(** One turn of the loop [for s != ""] of [ParseDuration]: a number, an
    optional fraction and a unit.  It returns the value of the term in
    nanoseconds and the rest of the input. *)
Definition parse_term (orig s : string) : error + Z * string :=
  match s with
  | EmptyString => inl (ErrInvalidDuration orig)
  | String c0 _ =>
      if negb (ascii_eqb c0 "."%char || isDigit c0) then inl (ErrInvalidDuration orig)
      else
        match leadingInt s with
        | None => inl (ErrInvalidDuration orig)
        | Some (v, s1) =>
            let pre := negb (String.length s =? String.length s1)%nat in
            let '(f, scale, s2, post) :=
              match s1 with
              | String c1 s1' =>
                  if ascii_eqb c1 "."%char then
                    let '(f, scale, s2) := leadingFraction s1' in
                    (f, scale, s2, negb (String.length s1' =? String.length s2)%nat)
                  else (0, f64_of_uint64 1, s1, false)
              | EmptyString => (0, f64_of_uint64 1, s1, false)
              end in
            if negb pre && negb post then inl (ErrInvalidDuration orig)
            else
              let '(u, s3) := span_unit s2 in
              match u with
              | EmptyString => inl (ErrMissingUnit orig)
              | _ =>
                  match unitMap u with
                  | None => inl (ErrUnknownUnit u orig)
                  | Some unit =>
                      if v >? 2 ^ 63 / unit then inl (ErrInvalidDuration orig)
                      else
                        let v1 := u64 (v * unit) in
                        if f >? 0 then
                          let v2 :=
                            u64 (v1 + uint64_of_f64
                                        (f64_mul (f64_of_uint64 f)
                                           (f64_div (f64_of_uint64 unit) scale))) in
                          if v2 >? 2 ^ 63 then inl (ErrInvalidDuration orig)
                          else inr (v2, s3)
                        else inr (v1, s3)
                  end
              end
        end
  end.

(** The loop itself.  Every turn consumes at least one byte, so
    [String.length s] turns are enough ([parse_terms_fuel] below) and
    the [O] branch is never reached from [ParseDuration]. *)
Fixpoint parse_terms (fuel : nat) (orig : string) (d : Z) (s : string) : error + Z :=
  match s with
  | EmptyString => inr d
  | _ =>
      match fuel with
      | O => inl (ErrInvalidDuration orig)
      | S fuel' =>
          match parse_term orig s with
          | inl e => inl e
          | inr (v, rest) =>
              let d' := u64 (d + v) in
              if d' >? 2 ^ 63 then inl (ErrInvalidDuration orig)
              else parse_terms fuel' orig d' rest
          end
      end
  end.

(** [func ParseDuration(s string) (Duration, error)].  On error Go
    returns the duration [0] with the error. *)
Definition ParseDuration (s : string) : Duration * option error :=
  let orig := s in
  let '(neg, s) :=
    match s with
    | String c rest =>
        if ascii_eqb c "-"%char || ascii_eqb c "+"%char
        then (ascii_eqb c "-"%char, rest) else (false, s)
    | EmptyString => (false, s)
    end in
  if String.eqb s "0" then (0, None)
  else if String.eqb s "" then (0, Some (ErrInvalidDuration orig))
  else
    match parse_terms (String.length s) orig 0 s with
    | inl e => (0, Some e)
    | inr d =>
        if neg then (i64 (- i64 d), None)
        else if d >? 2 ^ 63 - 1 then (0, Some (ErrInvalidDuration orig))
        else (i64 d, None)
    end.

(** [fmtFrac] writes the fraction of [v / 10^prec] in front of [buf],
    without trailing zeros, and returns [v / 10^prec]. *)
Fixpoint fmtFrac_loop (prec : nat) (buf : string) (v : Z) (print : bool)
  : string * Z * bool :=
  match prec with
  | O => (buf, v, print)
  | S prec' =>
      let digit := v mod 10 in
      let print := print || negb (digit =? 0) in
      let buf := if print then String (ascii_of_N (Z.to_N (digit + 48))) buf else buf in
      fmtFrac_loop prec' buf (v / 10) print
  end.

Definition fmtFrac (buf : string) (v : Z) (prec : nat) : string * Z :=
  let '(buf, v, print) := fmtFrac_loop prec buf v false in
  (if print then String "."%char buf else buf, v).

(** [fmtInt] writes [v] in front of [buf].  A uint64 has at most twenty
    decimal digits. *)
Fixpoint fmtInt_loop (fuel : nat) (buf : string) (v : Z) : string :=
  match fuel with
  | O => buf
  | S fuel' =>
      if v >? 0
      then fmtInt_loop fuel' (String (ascii_of_N (Z.to_N (v mod 10 + 48))) buf) (v / 10)
      else buf
  end.

Definition fmtInt (buf : string) (v : Z) : string :=
  if v =? 0 then String "0"%char buf else fmtInt_loop 20 buf v.

(** [func (d Duration) String() string]. *)
Definition Duration_String (d : Duration) : string :=
  let u := u64 d in
  let neg := d <? 0 in
  let u := if neg then u64 (- u) else u in
  let body :=
    if u <? Second then
      let buf := "s" in
      if u =? 0 then "0s"
      else if u <? Microsecond then
        let '(buf, u) := fmtFrac (String "n"%char buf) u 0 in fmtInt buf u
      else if u <? Millisecond then
        let '(buf, u) := fmtFrac (micro_sign ++ buf) u 3 in fmtInt buf u
      else
        let '(buf, u) := fmtFrac (String "m"%char buf) u 6 in fmtInt buf u
    else
      let '(buf, u) := fmtFrac "s" u 9 in
      let buf := fmtInt buf (u mod 60) in
      let u := u / 60 in
      if u >? 0 then
        let buf := fmtInt (String "m"%char buf) (u mod 60) in
        let u := u / 60 in
        if u >? 0 then fmtInt (String "h"%char buf) u else buf
      else buf in
  if neg then String "-"%char body else body.

End time.

(** ** Package [strings] of the Go standard library *)

Module strings.

(** [trimRightByte]: what [TrimRight] does for a cutset of one ASCII
    byte. *)
Fixpoint trimRightByte (s : string) (c : ascii) : string :=
  match s with
  | EmptyString => EmptyString
  | String a rest =>
      match trimRightByte rest c with
      | EmptyString => if ascii_eqb a c then EmptyString else String a EmptyString
      | rest' => String a rest'
      end
  end.

Fixpoint contains_byte (cutset : string) (a : ascii) : bool :=
  match cutset with
  | EmptyString => false
  | String c cutset' => ascii_eqb a c || contains_byte cutset' a
  end.

Fixpoint trimRightASCII (s cutset : string) : string :=
  match s with
  | EmptyString => EmptyString
  | String a rest =>
      match trimRightASCII rest cutset with
      | EmptyString =>
          if contains_byte cutset a then EmptyString else String a EmptyString
      | rest' => String a rest'
      end
  end.

(** [func TrimRight(s, cutset string) string], for a cutset of ASCII
    bytes (the only use in [models.go] has the cutset ["/"]). *)
Definition TrimRight (s cutset : string) : string :=
  match s, cutset with
  | EmptyString, _ => s
  | _, EmptyString => s
  | _, String c EmptyString => trimRightByte s c
  | _, _ => trimRightASCII s cutset
  end.

Fixpoint rev_append (s acc : string) : string :=
  match s with
  | EmptyString => acc
  | String a rest => rev_append rest (String a acc)
  end.

Definition rev (s : string) : string := rev_append s EmptyString.

Definition bytes (l : list nat) : string :=
  fold_right (fun n s => String (ascii_of_nat n) s) EmptyString l.

(** The UTF-8 encodings of the code points of [unicode.IsSpace]. *)
Definition spaces : list string :=
  map bytes
    ([[9%nat]; [10%nat]; [11%nat]; [12%nat]; [13%nat]; [32%nat];
      [194; 133]%nat; [194; 160]%nat; [225; 154; 128]%nat]
     ++ map (fun n => [226; 128; n]%nat) (seq 128 11)
     ++ [[226; 128; 168]%nat; [226; 128; 169]%nat; [226; 128; 175]%nat;
         [226; 129; 159]%nat; [227; 128; 128]%nat]).

Fixpoint cut_prefix (p s : string) : option string :=
  match p, s with
  | EmptyString, _ => Some s
  | String a p', String b s' => if ascii_eqb a b then cut_prefix p' s' else None
  | _, EmptyString => None
  end.

Fixpoint cut_any (ps : list string) (s : string) : option string :=
  match ps with
  | [] => None
  | p :: ps' =>
      match cut_prefix p s with
      | Some r => Some r
      | None => cut_any ps' s
      end
  end.

(** Strips leading runs of the patterns [ps]; every pattern is non-empty,
    so [String.length s] turns are enough. *)
Fixpoint trimLeft_any (fuel : nat) (ps : list string) (s : string) : string :=
  match fuel with
  | O => s
  | S fuel' =>
      match cut_any ps s with
      | Some r => trimLeft_any fuel' ps r
      | None => s
      end
  end.

(** [func TrimSpace(s string) string]: leading and trailing white space
    removed. *)
Definition TrimSpace (s : string) : string :=
  let s1 := trimLeft_any (String.length s) spaces s in
  rev (trimLeft_any (String.length s1) (map rev spaces) (rev s1)).

(** [SplitN(s, sep, 2)[0]] for a separator of one byte: the part of [s]
    before the first [sep], or [s] when there is none. *)
Fixpoint before_first (s : string) (sep : ascii) : string :=
  match s with
  | EmptyString => EmptyString
  | String a rest => if ascii_eqb a sep then EmptyString else String a (before_first rest sep)
  end.

(** [Cut(s, sep)]: the text before and after the first [sep], and
    whether [sep] was found; without it the whole of [s] and the empty
    text. *)
Fixpoint Cut (s sep : string) : string * string * bool :=
  match cut_prefix sep s with
  | Some after => (EmptyString, after, true)
  | None =>
      match s with
      | EmptyString => (EmptyString, EmptyString, false)
      | String a rest =>
          let '(before, after, found) := Cut rest sep in
          if found then (String a before, after, true)
          else (s, EmptyString, false)
      end
  end.

Definition HasPrefix (s prefix : string) : bool :=
  match cut_prefix prefix s with
  | Some _ => true
  | None => false
  end.

Definition HasSuffix (s suffix : string) : bool :=
  HasPrefix (rev s) (rev suffix).

Definition Contains (s substr : string) : bool := snd (Cut s substr).

(** [Index(s, substr)]; [None] is -1. *)
Definition Index (s substr : string) : option nat :=
  let '(before, _, found) := Cut s substr in
  if found then Some (String.length before) else None.

(** [LastIndex(s, substr)]; [None] is -1. *)
Fixpoint LastIndex (s substr : string) : option nat :=
  match s with
  | EmptyString =>
      match substr with
      | EmptyString => Some O
      | _ => None
      end
  | String _ rest =>
      match LastIndex rest substr with
      | Some i => Some (S i)
      | None => if HasPrefix s substr then Some O else None
      end
  end.

(** [Count(s, substr)] for a [substr] of one byte. *)
Fixpoint CountByte (s : string) (c : ascii) : nat :=
  match s with
  | EmptyString => O
  | String a rest => (if ascii_eqb a c then 1 else 0) + CountByte rest c
  end.

(** The slices [s[:n]] and [s[n:]]. *)
Fixpoint take (n : nat) (s : string) : string :=
  match n, s with
  | S n', String a rest => String a (take n' rest)
  | _, _ => EmptyString
  end.

Fixpoint drop (n : nat) (s : string) : string :=
  match n, s with
  | S n', String _ rest => drop n' rest
  | _, _ => s
  end.

(** [ToLower] on a text of ASCII bytes. *)
Fixpoint ToLowerASCII (s : string) : string :=
  match s with
  | EmptyString => EmptyString
  | String a rest =>
      String (if (65 <=? byte a) && (byte a <=? 90)
              then ascii_of_N (Z.to_N (byte a + 32)) else a)
        (ToLowerASCII rest)
  end.

End strings.

(** ** Package [strconv] of the Go standard library *)

Module strconv.

Definition lower (c : ascii) : Z := Z.lor (byte c) 32.

(** The loop of [ParseUint] over the bytes of the number. *)
Fixpoint parse_digits (s0 : string) (base cutoff maxVal : Z) (base0 : bool)
    (n : Z) (underscores : bool) (s : string) : (Z * bool) * option error :=
  match s with
  | EmptyString => (n, underscores, None)
  | String c rest =>
      if ascii_eqb c "_"%char && base0
      then parse_digits s0 base cutoff maxVal base0 n true rest
      else
        let d :=
          if isDigit c then Some (byte c - 48)
          else if (97 <=? lower c) && (lower c <=? 122) then Some (lower c - 97 + 10)
          else None in
        match d with
        | None => (0, underscores, Some (ErrSyntax "ParseUint" s0))
        | Some d =>
            if d >=? base then (0, underscores, Some (ErrSyntax "ParseUint" s0))
            else if n >=? cutoff then (maxVal, underscores, Some (ErrRange "ParseUint" s0))
            else
              let n := u64 (n * base) in
              let n1 := u64 (n + d) in
              if (n1 <? n) || (n1 >? maxVal)
              then (maxVal, underscores, Some (ErrRange "ParseUint" s0))
              else parse_digits s0 base cutoff maxVal base0 n1 underscores rest
        end
  end.

(** [underscoreOK]: underscores only between digits or after the base
    prefix.  [saw] is ["0"] after a digit, ["_"] after an underscore,
    ["!"] after anything else and ["^"] at the start. *)
Fixpoint underscoreOK_from (hex : bool) (saw : ascii) (s : string) : bool :=
  match s with
  | EmptyString => negb (ascii_eqb saw "_"%char)
  | String c rest =>
      if isDigit c || (hex && (97 <=? lower c) && (lower c <=? 102))
      then underscoreOK_from hex "0"%char rest
      else if ascii_eqb c "_"%char
      then if ascii_eqb saw "0"%char then underscoreOK_from hex "_"%char rest else false
      else if ascii_eqb saw "_"%char then false
      else underscoreOK_from hex "!"%char rest
  end.

Definition underscoreOK (s : string) : bool :=
  let s :=
    match s with
    | String c rest => if ascii_eqb c "-"%char || ascii_eqb c "+"%char then rest else s
    | EmptyString => s
    end in
  match s with
  | String c0 (String c1 rest) =>
      if ascii_eqb c0 "0"%char &&
         ((lower c1 =? 98) || (lower c1 =? 111) || (lower c1 =? 120))
      then underscoreOK_from (lower c1 =? 120) "0"%char rest
      else underscoreOK_from false "^"%char s
  | _ => underscoreOK_from false "^"%char s
  end.

(** [func ParseUint(s string, base int, bitSize int) (uint64, error)],
    for [bitSize] from 1 to 64. *)
Definition ParseUint (s : string) (base bitSize : Z) : Z * option error :=
  match s with
  | EmptyString => (0, Some (ErrSyntax "ParseUint" s))
  | String c0 tl =>
      let s0 := s in
      let base0 := base =? 0 in
      let picked :=
        if (2 <=? base) && (base <=? 36) then Some (base, s)
        else if base =? 0 then
          if ascii_eqb c0 "0"%char then
            match tl with
            | String c1 (String c2 tl2) =>
                if lower c1 =? 98 then Some (2, String c2 tl2)
                else if lower c1 =? 111 then Some (8, String c2 tl2)
                else if lower c1 =? 120 then Some (16, String c2 tl2)
                else Some (8, tl)
            | _ => Some (8, tl)
            end
          else Some (10, s)
        else None in
      match picked with
      | None => (0, Some (ErrOther "invalid base"))
      | Some (base, s) =>
          let cutoff := (2 ^ 64 - 1) / base + 1 in
          let maxVal := 2 ^ bitSize - 1 in
          match parse_digits s0 base cutoff maxVal base0 0 false s with
          | (n, _, Some e) => (n, Some e)
          | (n, underscores, None) =>
              if underscores && negb (underscoreOK s0)
              then (0, Some (ErrSyntax "ParseUint" s0))
              else (n, None)
          end
      end
  end.

(** [func ParseInt(s string, base int, bitSize int) (int64, error)],
    for [bitSize] from 1 to 64. *)
Definition ParseInt (s : string) (base bitSize : Z) : Z * option error :=
  match s with
  | EmptyString => (0, Some (ErrSyntax "ParseInt" s))
  | String c0 tl =>
      let s0 := s in
      let '(neg, s) :=
        if ascii_eqb c0 "+"%char then (false, tl)
        else if ascii_eqb c0 "-"%char then (true, tl)
        else (false, s) in
      let '(un, err) := ParseUint s base bitSize in
      match err with
      | Some (ErrSyntax _ _) => (0, Some (ErrSyntax "ParseInt" s0))
      | Some (ErrOther msg) => (0, Some (ErrOther msg))
      | _ =>
          let cutoff := 2 ^ (bitSize - 1) in
          if negb neg && (un >=? cutoff) then (i64 (cutoff - 1), Some (ErrRange "ParseInt" s0))
          else if neg && (un >? cutoff) then (i64 (- cutoff), Some (ErrRange "ParseInt" s0))
          else (if neg then i64 (- i64 un) else i64 un, None)
      end
  end.

(** [FormatInt(i, 10)], which is what the verb [%d] prints for an
    int64. *)
Fixpoint formatBits (fuel : nat) (buf : string) (u : Z) : string :=
  match fuel with
  | O => buf
  | S fuel' =>
      let buf := String (ascii_of_N (Z.to_N (u mod 10 + 48))) buf in
      if u / 10 =? 0 then buf else formatBits fuel' buf (u / 10)
  end.

Definition FormatInt (i : Z) : string :=
  if i <? 0 then String "-"%char (formatBits 20 EmptyString (u64 (- i)))
  else formatBits 20 EmptyString (u64 i).

End strconv.

(** ** Package [net/url] of the Go standard library: [Parse]

    [url.go] as of Go 1.22.  [Parse] wraps the error of a step in a
    [url.Error] that names the operation and the text; the model
    returns the error of the step. *)

Module url.

Record Userinfo : Type := mkUserinfo {
  username : string;
  password : string;
  passwordSet : bool
}.

Record URL : Type := mkURL {
  Scheme : string;
  Opaque : string;
  User : option Userinfo;
  Host : string;
  Path : string;
  RawPath : string;
  OmitHost : bool;
  ForceQuery : bool;
  RawQuery : string;
  Fragment : string;
  RawFragment : string
}.

Inductive encoding : Type :=
| encodePath | encodePathSegment | encodeHost | encodeZone
| encodeUserPassword | encodeQueryComponent | encodeFragment.

Definition is_host_mode (mode : encoding) : bool :=
  match mode with
  | encodeHost | encodeZone => true
  | _ => false
  end.

Definition is_query_mode (mode : encoding) : bool :=
  match mode with
  | encodeQueryComponent => true
  | _ => false
  end.

Definition one_of (c : ascii) (set : string) : bool := strings.contains_byte set c.

Definition isAlpha (c : ascii) : bool :=
  ((97 <=? byte c) && (byte c <=? 122)) || ((65 <=? byte c) && (byte c <=? 90)).

Definition ishex (c : ascii) : bool :=
  isDigit c
  || ((97 <=? byte c) && (byte c <=? 102))
  || ((65 <=? byte c) && (byte c <=? 70)).

Definition unhex (c : ascii) : Z :=
  if isDigit c then byte c - 48
  else if (97 <=? byte c) && (byte c <=? 102) then byte c - 97 + 10
  else if (65 <=? byte c) && (byte c <=? 70) then byte c - 65 + 10
  else 0.

(** The double quote, which the host mode lets through. *)
Definition dquote : ascii := ascii_of_nat 34.

(** [func shouldEscape(c byte, mode encoding) bool] *)
Definition shouldEscape (c : ascii) (mode : encoding) : bool :=
  if isAlpha c || isDigit c then false
  else if is_host_mode mode
          && (one_of c "!$&'()*+,;=:[]<>" || ascii_eqb c dquote) then false
  else if one_of c "-_.~" then false
  else if one_of c "$&+,/:;=?@" then
    match mode with
    | encodePath => ascii_eqb c "?"
    | encodePathSegment => one_of c "/;,?"
    | encodeUserPassword => one_of c "@/?:"
    | encodeQueryComponent => true
    | encodeFragment => false
    | encodeHost | encodeZone => true
    end
  else
    match mode with
    | encodeFragment => negb (one_of c "!()*")
    | _ => true
    end.

(** The first loop of [unescape]: the escapes are counted and checked.
    It returns the count and [hasPlus]. *)
Fixpoint unescape_check (mode : encoding) (n : nat) (hasPlus : bool) (s : string)
  : error + nat * bool :=
  match s with
  | EmptyString => inr (n, hasPlus)
  | String c rest =>
      if ascii_eqb c "%" then
        match rest with
        | String a (String b rest') =>
            if negb (ishex a && ishex b)
            then inl (ErrOther "invalid URL escape")
            else
              let is25 := ascii_eqb a "2" && ascii_eqb b "5" in
              if is_host_mode mode && match mode with encodeHost => true | _ => false end
                 && (unhex a <? 8) && negb is25
              then inl (ErrOther "invalid URL escape")
              else
                let v := ascii_of_N (Z.to_N (unhex a * 16 + unhex b)) in
                if match mode with encodeZone => true | _ => false end
                   && negb is25 && negb (ascii_eqb v " ")
                   && shouldEscape v encodeHost
                then inl (ErrOther "invalid URL escape")
                else unescape_check mode (S n) hasPlus rest'
        | _ => inl (ErrOther "invalid URL escape")
        end
      else if ascii_eqb c "+" then
        unescape_check mode n (is_query_mode mode) rest
      else if is_host_mode mode && (byte c <? 128) && shouldEscape c encodeHost
      then inl (ErrOther "invalid character in host name")
      else unescape_check mode n hasPlus rest
  end.

(** The second loop of [unescape], on a text that passed the first. *)
Fixpoint unescape_write (mode : encoding) (s : string) : string :=
  match s with
  | EmptyString => EmptyString
  | String c rest =>
      if ascii_eqb c "%" then
        match rest with
        | String a (String b rest') =>
            String (ascii_of_N (Z.to_N (unhex a * 16 + unhex b)))
              (unescape_write mode rest')
        | _ => s
        end
      else if ascii_eqb c "+" then
        String (if is_query_mode mode then " "%char else "+"%char)
          (unescape_write mode rest)
      else String c (unescape_write mode rest)
  end.

(** [func unescape(s string, mode encoding) (string, error)] *)
Definition unescape (s : string) (mode : encoding) : error + string :=
  match unescape_check mode O false s with
  | inl e => inl e
  | inr (n, hasPlus) =>
      if (n =? 0)%nat && negb hasPlus then inr s
      else inr (unescape_write mode s)
  end.

Definition upperhex (v : Z) : ascii :=
  if v <? 10 then ascii_of_N (Z.to_N (v + 48)) else ascii_of_N (Z.to_N (v - 10 + 65)).

(** [func escape(s string, mode encoding) string] *)
Fixpoint escape (s : string) (mode : encoding) : string :=
  match s with
  | EmptyString => EmptyString
  | String c rest =>
      if shouldEscape c mode then
        if ascii_eqb c " " && is_query_mode mode
        then String "+" (escape rest mode)
        else String "%" (String (upperhex (Z.shiftr (byte c) 4))
                           (String (upperhex (Z.land (byte c) 15))
                              (escape rest mode)))
      else String c (escape rest mode)
  end.

(** The loop of [getScheme] from the index [i]; [acc] holds the bytes
    read so far, in reverse. *)
Fixpoint getScheme_from (rawURL : string) (first : bool) (acc s : string)
  : error + string * string :=
  match s with
  | EmptyString => inr (EmptyString, rawURL)
  | String c rest =>
      if isAlpha c then getScheme_from rawURL false (String c acc) rest
      else if isDigit c || one_of c "+-." then
        if first then inr (EmptyString, rawURL)
        else getScheme_from rawURL false (String c acc) rest
      else if ascii_eqb c ":" then
        if first then inl (ErrOther "missing protocol scheme")
        else inr (strings.rev acc, rest)
      else inr (EmptyString, rawURL)
  end.

(** [func getScheme(rawURL string) (scheme, path string, err error)] *)
Definition getScheme (rawURL : string) : error + string * string :=
  getScheme_from rawURL true EmptyString rawURL.

Fixpoint stringContainsCTLByte (s : string) : bool :=
  match s with
  | EmptyString => false
  | String c rest =>
      (byte c <? 32) || (byte c =? 127) || stringContainsCTLByte rest
  end.

Fixpoint all_port_digits (s : string) : bool :=
  match s with
  | EmptyString => true
  | String c rest => isDigit c && all_port_digits rest
  end.

(** [func validOptionalPort(port string) bool] *)
Definition validOptionalPort (port : string) : bool :=
  match port with
  | EmptyString => true
  | String c rest => ascii_eqb c ":" && all_port_digits rest
  end.

(** [func validUserinfo(s string) bool] *)
Fixpoint validUserinfo (s : string) : bool :=
  match s with
  | EmptyString => true
  | String c rest =>
      (isAlpha c || isDigit c || one_of c "-._:~!$&'()*+,;=%@")
      && validUserinfo rest
  end.

(** [func parseHost(host string) (string, error)] *)
Definition parseHost (host : string) : error + string :=
  let plain :=
    match unescape host encodeHost with
    | inl e => inl e
    | inr h => inr h
    end in
  if strings.HasPrefix host "[" then
    match strings.LastIndex host "]" with
    | None => inl (ErrOther "missing ']' in host")
    | Some i =>
        let colonPort := strings.drop (S i) host in
        if negb (validOptionalPort colonPort)
        then inl (ErrOther "invalid port after host")
        else
          match strings.Index (strings.take i host) "%25" with
          | Some zone =>
              match unescape (strings.take zone host) encodeHost with
              | inl e => inl e
              | inr host1 =>
                  match unescape (strings.drop zone (strings.take i host)) encodeZone with
                  | inl e => inl e
                  | inr host2 =>
                      match unescape (strings.drop i host) encodeHost with
                      | inl e => inl e
                      | inr host3 => inr (host1 ++ host2 ++ host3)
                      end
                  end
              end
          | None => plain
          end
    end
  else
    match strings.LastIndex host ":" with
    | Some i =>
        if negb (validOptionalPort (strings.drop i host))
        then inl (ErrOther "invalid port after host")
        else plain
    | None => plain
    end.

(** [func parseAuthority(authority string) (user *Userinfo, host string, err error)] *)
Definition parseAuthority (authority : string) : error + option Userinfo * string :=
  let at_ := strings.LastIndex authority "@" in
  let hostpart :=
    match at_ with
    | None => authority
    | Some i => strings.drop (S i) authority
    end in
  match parseHost hostpart with
  | inl e => inl e
  | inr host =>
      match at_ with
      | None => inr (None, host)
      | Some i =>
          let userinfo := strings.take i authority in
          if negb (validUserinfo userinfo)
          then inl (ErrOther "net/url: invalid userinfo")
          else if negb (strings.Contains userinfo ":") then
            match unescape userinfo encodeUserPassword with
            | inl e => inl e
            | inr u => inr (Some (mkUserinfo u "" false), host)
            end
          else
            let '(uname, pass, _) := strings.Cut userinfo ":" in
            match unescape uname encodeUserPassword with
            | inl e => inl e
            | inr u =>
                match unescape pass encodeUserPassword with
                | inl e => inl e
                | inr p => inr (Some (mkUserinfo u p true), host)
                end
            end
      end
  end.

(** [func (u *URL) setPath(p string) error] *)
Definition setPath (u : URL) (p : string) : error + URL :=
  match unescape p encodePath with
  | inl e => inl e
  | inr path =>
      let raw := if String.eqb p (escape path encodePath) then "" else p in
      inr (mkURL (Scheme u) (Opaque u) (User u) (Host u) path raw (OmitHost u)
             (ForceQuery u) (RawQuery u) (Fragment u) (RawFragment u))
  end.

(** [func (u *URL) setFragment(f string) error] *)
Definition setFragment (u : URL) (f : string) : error + URL :=
  match unescape f encodeFragment with
  | inl e => inl e
  | inr frag =>
      let raw := if String.eqb f (escape frag encodeFragment) then "" else f in
      inr (mkURL (Scheme u) (Opaque u) (User u) (Host u) (Path u) (RawPath u)
             (OmitHost u) (ForceQuery u) (RawQuery u) frag raw)
  end.

(** [func parse(rawURL string, viaRequest bool)], which returns a
    [*URL] and an error, with [viaRequest] false, as [Parse] calls
    it. *)
Definition parse (rawURL : string) : error + URL :=
  if stringContainsCTLByte rawURL
  then inl (ErrOther "net/url: invalid control character in URL")
  else if String.eqb rawURL "*"
  then inr (mkURL "" "" None "" "*" "" false false "" "" "")
  else
    match getScheme rawURL with
    | inl e => inl e
    | inr (scheme0, rest0) =>
        let scheme := strings.ToLowerASCII scheme0 in
        let '(rest1, forceQuery, rawQuery) :=
          if strings.HasSuffix rest0 "?" && (strings.CountByte rest0 "?" =? 1)%nat
          then (strings.take (String.length rest0 - 1) rest0, true, "")
          else let '(before, after, _) := strings.Cut rest0 "?" in
               (before, false, after) in
        let u := mkURL scheme "" None "" "" "" false forceQuery rawQuery "" "" in
        if negb (strings.HasPrefix rest1 "/") && negb (String.eqb scheme "")
        then inr (mkURL scheme rest1 None "" "" "" false forceQuery rawQuery "" "")
        else if negb (strings.HasPrefix rest1 "/")
                && strings.Contains (fst (fst (strings.Cut rest1 "/"))) ":"
        then inl (ErrOther "first path segment in URL cannot contain colon")
        else if (negb (String.eqb scheme "") || negb (strings.HasPrefix rest1 "///"))
                && strings.HasPrefix rest1 "//"
        then
          let authority0 := strings.drop 2 rest1 in
          let '(authority, rest2) :=
            match strings.Index authority0 "/" with
            | Some i => (strings.take i authority0, strings.drop i authority0)
            | None => (authority0, "")
            end in
          match parseAuthority authority with
          | inl e => inl e
          | inr (user, host) =>
              setPath (mkURL scheme "" user host "" "" false forceQuery rawQuery "" "")
                rest2
          end
        else if negb (String.eqb scheme "") && strings.HasPrefix rest1 "/"
        then setPath (mkURL scheme "" None "" "" "" true forceQuery rawQuery "" "") rest1
        else setPath u rest1
    end.

(** [func Parse(rawURL string)], which returns a [*URL] and an error. *)
Definition Parse (rawURL : string) : error + URL :=
  let '(u, frag, _) := strings.Cut rawURL "#" in
  match parse u with
  | inl e => inl e
  | inr url =>
      if String.eqb frag "" then inr url
      else setFragment url frag
  end.

End url.

(** ** The CSV decoder (gocsv), as far as [models.go] relies on it

    The struct tags [csv:"..."] and the methods [UnmarshalCSV] and
    [MarshalCSV] are the decoder's conventions.  A field whose type has
    an [UnmarshalCSV] method is set by that method; a field of a named
    type of kind [int] without such a method is set from [toInt]. *)

Module gocsv.

Definition toInt (value : string) : Z * option error :=
  let s := strings.TrimSpace value in
  if String.eqb s "" then (0, None)
  else strconv.ParseInt (strings.before_first s "."%char) 0 64.

(** [setField] on a field of kind [int]: the field keeps its value when
    the cell does not convert. *)
Definition setField_int (field : Z) (value : string) : Z * option error :=
  match toInt value with
  | (i, None) => (i64 i, None)
  | (_, Some e) => (field, Some e)
  end.

End gocsv.

(** ** Package [haproxyctl]: [models.go] *)

Module haproxyctl.

(** *** Duration *)

(** [type Duration struct { time.Duration }] *)
Record Duration : Type := mkDuration { time_Duration : time.Duration }.

Definition Nanoseconds (date : Duration) : Z := i64 (time_Duration date).

(** [func (date *Duration) UnmarshalCSV(csv string) (err error)]: the
    receiver after the call, and the error.  The result of
    [time.ParseDuration] is assigned before the error is looked at. *)
Definition Duration_UnmarshalCSV (date : Duration) (csv : string)
  : Duration * option error :=
  if String.eqb csv "" then (date, None)
  else
    let timeString := csv ++ "s" in
    let '(d, err) := time.ParseDuration timeString in
    (mkDuration d, err).

(** [func (date *Duration) MarshalCSV() (string, error)] *)
Definition Duration_MarshalCSV (date : Duration) : string * option error :=
  (strconv.FormatInt (Nanoseconds date), None).

(** [func (date *Duration) String() string] *)
Definition Duration_String (date : Duration) : string :=
  time.Duration_String (Nanoseconds date).

(** *** EntryType *)

(** [type EntryType int] (an int of 64 bits), with the constants numbered
    by [iota]. *)
Definition EntryType : Type := Z.

Definition Frontend : EntryType := 0.
Definition Backend : EntryType := 1.
Definition Server : EntryType := 2.
Definition Socket : EntryType := 3.

(** The field [Type EntryType `csv:"type"`] of [Statistic]: [EntryType]
    has no [UnmarshalCSV] method, so the cell is decoded as an [int]. *)
Definition Statistic_Type_decode (field : EntryType) (cell : string)
  : EntryType * option error :=
  gocsv.setField_int field cell.

(** *** Action *)

(** [type Action string] *)
Definition Action : Type := string.

Definition ActionSetStateToReady : Action := "ready".
Definition ActionSetStateToDrain : Action := "drain".
Definition ActionSetStateToMaint : Action := "maint".
Definition ActionHealthDisableChecks : Action := "dhlth".
Definition ActionHealthEnableChecks : Action := "ehlth".
Definition ActionHealthForceUp : Action := "hrunn".
Definition ActionHealthForceNoLB : Action := "hnolb".
Definition ActionHealthForceDown : Action := "hdown".
Definition ActionAgentDisablechecks : Action := "dagent".
Definition ActionAgentEnablechecks : Action := "eagent".
Definition ActionAgentForceUp : Action := "arunn".
Definition ActionAgentForceDown : Action := "adown".
Definition ActionKillSessions : Action := "shutdown".

(** The constants of the [const] block, in the order of the source, each
    named as in the source without the prefix [Action]. *)
Inductive ActionConst : Type :=
| SetStateToReady | SetStateToDrain | SetStateToMaint
| HealthDisableChecks | HealthEnableChecks | HealthForceUp
| HealthForceNoLB | HealthForceDown
| AgentDisablechecks | AgentEnablechecks | AgentForceUp | AgentForceDown
| KillSessions.

Definition ActionConsts : list ActionConst :=
  [SetStateToReady; SetStateToDrain; SetStateToMaint;
   HealthDisableChecks; HealthEnableChecks; HealthForceUp;
   HealthForceNoLB; HealthForceDown;
   AgentDisablechecks; AgentEnablechecks; AgentForceUp; AgentForceDown;
   KillSessions].

Definition token (k : ActionConst) : Action :=
  match k with
  | SetStateToReady => ActionSetStateToReady
  | SetStateToDrain => ActionSetStateToDrain
  | SetStateToMaint => ActionSetStateToMaint
  | HealthDisableChecks => ActionHealthDisableChecks
  | HealthEnableChecks => ActionHealthEnableChecks
  | HealthForceUp => ActionHealthForceUp
  | HealthForceNoLB => ActionHealthForceNoLB
  | HealthForceDown => ActionHealthForceDown
  | AgentDisablechecks => ActionAgentDisablechecks
  | AgentEnablechecks => ActionAgentEnablechecks
  | AgentForceUp => ActionAgentForceUp
  | AgentForceDown => ActionAgentForceDown
  | KillSessions => ActionKillSessions
  end.

(** What a constant's name says it does: the check it addresses and the
    toggle it applies. *)
Inductive Check : Type := Health | Agent.
Inductive Toggle : Type := Enable | Disable | ForceUp | ForceNoLB | ForceDown.

Definition Toggles : list Toggle := [Enable; Disable; ForceUp; ForceNoLB; ForceDown].

Definition check_toggle (k : ActionConst) : option (Check * Toggle) :=
  match k with
  | HealthDisableChecks => Some (Health, Disable)
  | HealthEnableChecks => Some (Health, Enable)
  | HealthForceUp => Some (Health, ForceUp)
  | HealthForceNoLB => Some (Health, ForceNoLB)
  | HealthForceDown => Some (Health, ForceDown)
  | AgentDisablechecks => Some (Agent, Disable)
  | AgentEnablechecks => Some (Agent, Enable)
  | AgentForceUp => Some (Agent, ForceUp)
  | AgentForceDown => Some (Agent, ForceDown)
  | SetStateToReady | SetStateToDrain | SetStateToMaint | KillSessions => None
  end.

Definition Check_eqb (a b : Check) : bool :=
  match a, b with
  | Health, Health | Agent, Agent => true
  | _, _ => false
  end.

(** The toggles of a check, in the order of the [const] block. *)
Definition toggles_of (c : Check) : list Toggle :=
  flat_map
    (fun k =>
       match check_toggle k with
       | Some (c', t) => if Check_eqb c c' then [t] else []
       | None => []
       end)
    ActionConsts.

Definition tokens_of (c : Check) : list (Toggle * Action) :=
  flat_map
    (fun k =>
       match check_toggle k with
       | Some (c', t) => if Check_eqb c c' then [(t, token k)] else []
       | None => []
       end)
    ActionConsts.

(** *** Statistic *)

(** The fields of [type Statistic struct], in the order of the source:
    the name of the field, its type and the column named by its [csv]
    tag.  The decoder finds the field of a column by this tag. *)
Inductive Kind : Type := GoString | GoUint64 | GoDuration | GoEntryType.

Record StructField : Type := mkField {
  Name : string;
  Type_ : Kind;
  Tag : string
}.

Definition Statistic : list StructField :=
  [mkField "BackendName" GoString "# pxname";
   mkField "FrontendName" GoString "svname";
   mkField "QueueCurrent" GoUint64 "qcur";
   mkField "QueueMax" GoUint64 "qmax";
   mkField "SessionsCurrent" GoUint64 "scur";
   mkField "SessionsMax" GoUint64 "smax";
   mkField "SessionLimit" GoUint64 "slim";
   mkField "SessionsTotal" GoUint64 "stot";
   mkField "BytesIn" GoUint64 "bin";
   mkField "BytesOut" GoUint64 "bout";
   mkField "DeniedRequests" GoUint64 "dreq";
   mkField "DeniedResponses" GoUint64 "dresp";
   mkField "ErrorsRequests" GoUint64 "ereq";
   mkField "ErrorsConnections" GoUint64 "econ";
   mkField "ErrorsResponses" GoUint64 "eresp";
   mkField "WarningsRetries" GoUint64 "wretr";
   mkField "WarningsDispatches" GoUint64 "wredis";
   mkField "Status" GoString "status";
   mkField "Weight" GoUint64 "weight";
   mkField "IsActive" GoUint64 "act";
   mkField "IsBackup" GoUint64 "bck";
   mkField "CheckFailed" GoUint64 "chkfail";
   mkField "CheckDowned" GoUint64 "chkdown";
   mkField "StatusLastChanged" GoDuration "lastchg";
   mkField "Downtime" GoDuration "downtime";
   mkField "QueueLimit" GoUint64 "qlimit";
   mkField "ProcessID" GoUint64 "pid";
   mkField "ProxyID" GoUint64 "iid";
   mkField "ServiceID" GoUint64 "sid";
   mkField "Throttle" GoUint64 "throttle";
   mkField "LBTotal" GoUint64 "lbtot";
   mkField "Tracked" GoUint64 "tracked";
   mkField "Type" GoEntryType "type";
   mkField "Rate" GoUint64 "rate";
   mkField "RateLimit" GoUint64 "rate_lim";
   mkField "RateMax" GoUint64 "rate_max";
   mkField "CheckStatus" GoString "check_status";
   mkField "CheckCode" GoString "check_code";
   mkField "CheckDuration" GoUint64 "check_duration";
   mkField "HTTPResponse1xx" GoUint64 "hrsp_1xx";
   mkField "HTTPResponse2xx" GoUint64 "hrsp_2xx";
   mkField "HTTPResponse3xx" GoUint64 "hrsp_3xx";
   mkField "HTTPResponse4xx" GoUint64 "hrsp_4xx";
   mkField "HTTPResponse5xx" GoUint64 "hrsp_5xx";
   mkField "HTTPResponseOther" GoUint64 "hrsp_other";
   mkField "CheckFailedDets" GoUint64 "hanafail";
   mkField "RequestRate" GoUint64 "req_rate";
   mkField "RequestRateMax" GoUint64 "req_rate_max";
   mkField "RequestTotal" GoUint64 "req_tot";
   mkField "AbortedByClient" GoUint64 "cli_abrt";
   mkField "AbortedByServer" GoUint64 "srv_abrt";
   mkField "CompressedBytesIn" GoUint64 "comp_in";
   mkField "CompressedBytesOut" GoUint64 "comp_out";
   mkField "CompressedBytesBypassed" GoUint64 "comp_byp";
   mkField "CompressedResponses" GoUint64 "comp_rsp";
   mkField "LastSession" GoDuration "lastsess";
   mkField "LastCheck" GoString "last_chk";
   mkField "LastAgentCheck" GoString "last_agt";
   mkField "AvgQueueTime" GoUint64 "qtime";
   mkField "AvgConnectTime" GoUint64 "ctime";
   mkField "AvgResponseTime" GoUint64 "rtime";
   mkField "AvgTotalTime" GoUint64 "ttime";
   mkField "AgentStatus" GoUint64 "agent_status";
   mkField "AgentCode" GoUint64 "agent_code";
   mkField "AgentDuration" GoUint64 "agent_duration";
   mkField "CheckDesc" GoString "check_desc";
   mkField "AgentDesc" GoString "agent_desc";
   mkField "CheckRise" GoUint64 "check_rise";
   mkField "CheckFall" GoUint64 "check_fall";
   mkField "CheckHealth" GoUint64 "check_health";
   mkField "AgentRise" GoUint64 "agent_rise";
   mkField "AgentFall" GoUint64 "agent_fall";
   mkField "AgentHealth" GoUint64 "agent_health";
   mkField "Address" GoString "addr";
   mkField "Cookie" GoUint64 "cookie";
   mkField "Mode" GoString "mode";
   mkField "LBAlgorithm" GoString "algo";
   mkField "ConnRate" GoUint64 "conn_rate";
   mkField "ConnRateMax" GoUint64 "conn_rate_max";
   mkField "ConnTotal" GoUint64 "conn_tot";
   mkField "Intercepted" GoUint64 "intercepted";
   mkField "DeniedCon" GoUint64 "dcon";
   mkField "DeniedSes" GoUint64 "dses";
   mkField "Wrew" GoUint64 "wrew";
   mkField "Connect" GoUint64 "connect";
   mkField "Reuse" GoUint64 "reuse";
   mkField "CacheLookups" GoUint64 "cache_lookups";
   mkField "CacheHits" GoUint64 "cache_hits";
   mkField "IdleConAvail" GoUint64 "srv_icur";
   mkField "IdleConLimit" GoUint64 "src_ilim";
   mkField "QtimeMax" GoUint64 "qtime_max";
   mkField "CtimeMax" GoUint64 "ctime_max";
   mkField "RtimeMax" GoUint64 "rtime_max";
   mkField "TtimeMax" GoUint64 "ttime_max";
   mkField "InternalErr" GoUint64 "eint";
   mkField "IdleConnCur" GoUint64 "idle_conn_cur";
   mkField "SafeConnCur" GoUint64 "safe_conn_cur";
   mkField "UsedConnCur" GoUint64 "used_conn_cur";
   mkField "NeedConnEst" GoUint64 "need_conn_est"].

(** *** HAProxyConfig *)

Section Config.

(** What [models.go] takes from [net/url] and [net/http]: the type
    [url.URL] with [url.Parse], and the types of the fields of
    [http.Client].  The section is generic in them; the program is its
    instance at [url.URL] and [url.Parse] of the module [url] above. *)
Variables url_URL RoundTripper CookieJar Request : Type.
Variable url_Parse : string -> error + url_URL.

(** [http.Client]; a nil [CheckRedirect] is the default policy. *)
Record http_Client : Type := mkClient {
  Transport : option RoundTripper;
  CheckRedirect : option (Request -> list Request -> option error);
  Jar : option CookieJar;
  Timeout : time.Duration
}.

(** [&http.Client{}] *)
Definition http_Client_zero : http_Client := mkClient None None None 0.

(** [func (c *Client) checkRedirect(req, via) error] of [net/http]: what
    the client asks before it follows a redirect.  [None] (a nil error)
    lets it follow; on [ErrUseLastResponse] it returns the response it
    has. *)
Definition checkRedirect (cl : http_Client) (req : Request) (via : list Request)
  : option error :=
  match CheckRedirect cl with
  | None =>
      if (10 <=? List.length via)%nat
      then Some (ErrOther "stopped after 10 redirects") else None
  | Some fn => fn req via
  end.

(** The clients live in a store; a [*http.Client] is [None] (nil) or an
    address in it. *)
Definition Heap : Type := list http_Client.

Fixpoint heap_alter (f : http_Client -> http_Client) (p : nat) (h : Heap) : Heap :=
  match h, p with
  | [], _ => []
  | cl :: h', O => f cl :: h'
  | cl :: h', S p' => cl :: heap_alter f p' h'
  end.

Definition heap_new (h : Heap) (cl : http_Client) : nat * Heap :=
  (List.length h, (h ++ [cl])%list).

Record HAProxyConfig : Type := mkConfig {
  URL : url_URL;
  StatsPath : string;
  Username : string;
  Password : string;
  client : option nat;
  setupdone : bool
}.

(** [type ConfigOption func(c *HAProxyConfig) error]: an option updates
    the config it is given (and may reach the clients) and returns an
    error or nil. *)
Definition ConfigOption : Type :=
  HAProxyConfig -> Heap -> HAProxyConfig * Heap * option error.

(** [func (c *HAProxyConfig) setupClient()] *)
Definition setupClient (c : HAProxyConfig) (h : Heap) : HAProxyConfig * Heap :=
  if setupdone c then (c, h)
  else
    let '(p, h) :=
      match client c with
      | None => heap_new h http_Client_zero
      | Some p => (p, h)
      end in
    let h :=
      heap_alter
        (fun cl =>
           mkClient (Transport cl) (Some (fun _ _ => Some ErrUseLastResponse))
             (Jar cl) (Timeout cl))
        p h in
    (mkConfig (URL c) (StatsPath c) (Username c) (Password c) (Some p) true, h).

(** The loop [for _, opt := range opts] of [NewHAProxyConfig]. *)
Fixpoint apply_opts (opts : list ConfigOption) (c : HAProxyConfig) (h : Heap)
  : (error + HAProxyConfig) * Heap :=
  match opts with
  | [] => (inr c, h)
  | opt :: opts' =>
      match opt c h with
      | (_, h', Some err) => (inl err, h')
      | (c', h', None) => apply_opts opts' c' h'
      end
  end.

(** The text handed to [url.Parse]:
    [fmt.Sprintf("%s/", strings.TrimRight(proxyUrl, "/"))]. *)
Definition endpoint_text (proxyUrl : string) : string :=
  strings.TrimRight proxyUrl "/" ++ "/".

(** [func NewHAProxyConfig(proxyUrl string, opts ...ConfigOption)],
    which returns a [*HAProxyConfig] and an error: [inl err] is
    [(nil, err)] and [inr c] is [(c, nil)]. *)
Definition NewHAProxyConfig (proxyUrl : string) (opts : list ConfigOption)
    (h : Heap) : (error + HAProxyConfig) * Heap :=
  match url_Parse (endpoint_text proxyUrl) with
  | inl err => (inl err, h)
  | inr endpoint =>
      let c := mkConfig endpoint "" "" "" None false in
      match apply_opts opts c h with
      | (inl err, h') => (inl err, h')
      | (inr c', h') =>
          let '(c'', h'') := setupClient c' h' in (inr c'', h'')
      end
  end.

Definition WithStatsPath (path : string) : ConfigOption :=
  fun c h =>
    (mkConfig (URL c) path (Username c) (Password c) (client c) (setupdone c), h, None).

Definition WithAuthInfo (user pass : string) : ConfigOption :=
  fun c h =>
    (mkConfig (URL c) (StatsPath c) user pass (client c) (setupdone c), h, None).

Definition WithHttpClient (cl : option nat) : ConfigOption :=
  fun c h =>
    (mkConfig (URL c) (StatsPath c) (Username c) (Password c) cl (setupdone c), h, None).

(** Modelled from the spec: the method [SetCredentialsFromAuthString] is
    not in [models.go].  The spec has it parse the credentials from a
    single "user:pass" string and fail when the separator is missing. *)
Fixpoint split_colon (s : string) : option (string * string) :=
  match s with
  | EmptyString => None
  | String a rest =>
      if ascii_eqb a ":"%char then Some (EmptyString, rest)
      else
        match split_colon rest with
        | Some (u, p) => Some (String a u, p)
        | None => None
        end
  end.

Definition SetCredentialsFromAuthString (c : HAProxyConfig) (auth : string)
  : HAProxyConfig * option error :=
  match split_colon auth with
  | Some (user, pass) =>
      (mkConfig (URL c) (StatsPath c) user pass (client c) (setupdone c), None)
  | None => (c, Some (ErrOther "malformed auth string"))
  end.

Definition WithAuthString (auth : string) : ConfigOption :=
  fun c h => let '(c', err) := SetCredentialsFromAuthString c auth in (c', h, err).

(** The options that [models.go] provides.  A client handed to
    [WithHttpClient] is nil or lives in the store. *)
Inductive provided (h : Heap) : ConfigOption -> Prop :=
| provided_StatsPath path : provided h (WithStatsPath path)
| provided_AuthString auth : provided h (WithAuthString auth)
| provided_AuthInfo user pass : provided h (WithAuthInfo user pass)
| provided_HttpClient_nil : provided h (WithHttpClient None)
| provided_HttpClient p :
    (p < List.length h)%nat -> provided h (WithHttpClient (Some p)).

End Config.

Arguments mkClient {RoundTripper CookieJar Request}.
Arguments Transport {RoundTripper CookieJar Request}.
Arguments CheckRedirect {RoundTripper CookieJar Request}.
Arguments Jar {RoundTripper CookieJar Request}.
Arguments Timeout {RoundTripper CookieJar Request}.
Arguments http_Client_zero {RoundTripper CookieJar Request}.
Arguments checkRedirect {RoundTripper CookieJar Request}.
Arguments heap_alter {RoundTripper CookieJar Request}.
Arguments heap_new {RoundTripper CookieJar Request}.
Arguments mkConfig {url_URL}.
Arguments URL {url_URL}.
Arguments StatsPath {url_URL}.
Arguments Username {url_URL}.
Arguments Password {url_URL}.
Arguments client {url_URL}.
Arguments setupdone {url_URL}.
Arguments setupClient {url_URL RoundTripper CookieJar Request}.
Arguments apply_opts {url_URL RoundTripper CookieJar Request}.
Arguments NewHAProxyConfig {url_URL RoundTripper CookieJar Request}.
Arguments WithStatsPath {url_URL RoundTripper CookieJar Request}.
Arguments WithAuthInfo {url_URL RoundTripper CookieJar Request}.
Arguments WithHttpClient {url_URL RoundTripper CookieJar Request}.
Arguments WithAuthString {url_URL RoundTripper CookieJar Request}.
Arguments SetCredentialsFromAuthString {url_URL}.
Arguments provided {url_URL RoundTripper CookieJar Request}.

End haproxyctl.

(** ** Vocabulary of the properties *)

(** A string of decimal digits, and the number it denotes. *)
Fixpoint all_digits (s : string) : bool :=
  match s with
  | EmptyString => true
  | String c rest => isDigit c && all_digits rest
  end.

Fixpoint value_from (x : Z) (s : string) : Z :=
  match s with
  | EmptyString => x
  | String c rest => value_from (x * 10 + (byte c - 48)) rest
  end.

Definition digits_value (s : string) : Z := value_from 0 s.

(** A cell that does not start like a number: after an optional sign
    comes neither a digit nor a point. *)
Definition no_number_start (s : string) : bool :=
  match s with
  | EmptyString => false
  | String c rest =>
      let body :=
        if ascii_eqb c "-"%char || ascii_eqb c "+"%char then rest else s in
      match body with
      | EmptyString => true
      | String c1 _ => negb (ascii_eqb c1 "."%char || isDigit c1)
      end
  end.

Fixpoint ends_with_slash (s : string) : bool :=
  match s with
  | EmptyString => false
  | String a rest =>
      match rest with
      | EmptyString => ascii_eqb a "/"%char
      | _ => ends_with_slash rest
      end
  end.

Fixpoint slashes (n : nat) : string :=
  match n with
  | O => EmptyString
  | S n' => String "/"%char (slashes n')
  end.

(** Whether the [const] block has a constant for the toggle [t] of the
    check [c]. *)
Definition Toggle_eqb (a b : haproxyctl.Toggle) : bool :=
  match a, b with
  | haproxyctl.Enable, haproxyctl.Enable
  | haproxyctl.Disable, haproxyctl.Disable
  | haproxyctl.ForceUp, haproxyctl.ForceUp
  | haproxyctl.ForceNoLB, haproxyctl.ForceNoLB
  | haproxyctl.ForceDown, haproxyctl.ForceDown => true
  | _, _ => false
  end.

Definition has_toggle (c : haproxyctl.Check) (t : haproxyctl.Toggle) : bool :=
  existsb
    (fun k =>
       match haproxyctl.check_toggle k with
       | Some (c', t') => haproxyctl.Check_eqb c c' && Toggle_eqb t t'
       | None => false
       end)
    haproxyctl.ActionConsts.

(** The named constants of [EntryType]. *)
Definition named_EntryType (t : haproxyctl.EntryType) : bool :=
  existsb (Z.eqb t)
    [haproxyctl.Frontend; haproxyctl.Backend; haproxyctl.Server; haproxyctl.Socket].

(** A decimal numeral as one writes an ordinal: digits, without a
    leading zero unless it is the digit 0 alone. *)
Definition ordinal_numeral (s : string) : bool :=
  match s with
  | EmptyString => false
  | String "0" EmptyString => true
  | String c _ => negb (ascii_eqb c "0"%char) && all_digits s
  end.

(** A pattern that starts with a byte that is not a digit. *)
Definition starts_nondigit (p : string) : bool :=
  match p with
  | EmptyString => false
  | String a _ => negb (isDigit a)
  end.

(** The options [opts] all succeed, one after the other in the order of
    the list, and take the config [c] and the clients [h] to [c'] and
    [h']. *)
Inductive runs {url_URL RoundTripper CookieJar Request : Type} :
  list (haproxyctl.ConfigOption url_URL RoundTripper CookieJar Request) ->
  haproxyctl.HAProxyConfig url_URL ->
  haproxyctl.Heap RoundTripper CookieJar Request ->
  haproxyctl.HAProxyConfig url_URL ->
  haproxyctl.Heap RoundTripper CookieJar Request -> Prop :=
| runs_nil c h : runs [] c h c h
| runs_cons opt opts c h c1 h1 c' h' :
    opt c h = (c1, h1, None) ->
    runs opts c1 h1 c' h' ->
    runs (opt :: opts) c h c' h'.

(** The config before any option is applied. *)
Definition initial_config {url_URL : Type} (endpoint : url_URL)
  : haproxyctl.HAProxyConfig url_URL :=
  haproxyctl.mkConfig endpoint "" "" "" None false.

(** For the examples: a parser that keeps the text it is given, and a
    client with a transport and a timeout. *)
Definition keep_text (s : string) : error + string := inr s.

Definition example_client : haproxyctl.http_Client unit unit unit :=
  haproxyctl.mkClient (Some tt) None None 30.

(** A unit as [ParseDuration] scans it: bytes that are neither digits
    nor points. *)
Fixpoint plain_unit (u : string) : bool :=
  match u with
  | EmptyString => true
  | String c rest => negb (ascii_eqb c "."%char || isDigit c) && plain_unit rest
  end.

(** A cell without any digit. *)
Fixpoint no_digit (s : string) : bool :=
  match s with
  | EmptyString => true
  | String c rest => negb (isDigit c) && no_digit rest
  end.

(** Whole seconds written in hours, minutes and seconds, the leading
    units left out while they are zero. *)
Definition hms (v : Z) : string :=
  (if v / 60 / 60 >? 0 then strconv.FormatInt (v / 60 / 60) ++ "h" else "")
  ++ (if v / 60 >? 0 then strconv.FormatInt (v / 60 mod 60) ++ "m" else "")
  ++ strconv.FormatInt (v mod 60) ++ "s".

(** The provided options that set a field of the config and never the
    client. *)
Inductive plain {url_URL RoundTripper CookieJar Request : Type} :
  haproxyctl.ConfigOption url_URL RoundTripper CookieJar Request -> Prop :=
| plain_StatsPath path : plain (haproxyctl.WithStatsPath path)
| plain_AuthString auth : plain (haproxyctl.WithAuthString auth)
| plain_AuthInfo user pass : plain (haproxyctl.WithAuthInfo user pass).

(** What [setupClient] writes into a client: the redirect check that
    always answers [ErrUseLastResponse], the other fields kept. *)
Definition with_policy {RoundTripper CookieJar Request : Type}
    (cl : haproxyctl.http_Client RoundTripper CookieJar Request)
  : haproxyctl.http_Client RoundTripper CookieJar Request :=
  haproxyctl.mkClient (haproxyctl.Transport cl)
    (Some (fun _ _ => Some ErrUseLastResponse))
    (haproxyctl.Jar cl) (haproxyctl.Timeout cl).

(** The field of [Statistic] that a column of the feed fills: the first
    one whose tag is the name of the column. *)
Definition column_field (column : string) : option haproxyctl.StructField :=
  find (fun f => String.eqb (haproxyctl.Tag f) column) haproxyctl.Statistic.

Definition Kind_eqb (a b : haproxyctl.Kind) : bool :=
  match a, b with
  | haproxyctl.GoString, haproxyctl.GoString
  | haproxyctl.GoUint64, haproxyctl.GoUint64
  | haproxyctl.GoDuration, haproxyctl.GoDuration
  | haproxyctl.GoEntryType, haproxyctl.GoEntryType => true
  | _, _ => false
  end.

(** The columns whose field has the type [k], in the order of the
    source. *)
Definition columns_of (k : haproxyctl.Kind) : list string :=
  map haproxyctl.Tag
    (filter (fun f => Kind_eqb (haproxyctl.Type_ f) k) haproxyctl.Statistic).

(** An option written outside the package: it cannot reach the
    unexported fields [client] and [setupdone] of the config, and
    whatever it does to the clients it does not remove any. *)
Definition external {url_URL RoundTripper CookieJar Request : Type}
    (opt : haproxyctl.ConfigOption url_URL RoundTripper CookieJar Request) : Prop :=
  forall c h,
    haproxyctl.client (fst (fst (opt c h))) = haproxyctl.client c /\
    haproxyctl.setupdone (fst (fst (opt c h))) = haproxyctl.setupdone c /\
    (List.length h <= List.length (snd (fst (opt c h))))%nat.

(** An option outside the package, or [WithHttpClient] with nil or a
    client of the store [h]. *)
Inductive allowed {url_URL RoundTripper CookieJar Request : Type}
    (h : haproxyctl.Heap RoundTripper CookieJar Request) :
  haproxyctl.ConfigOption url_URL RoundTripper CookieJar Request -> Prop :=
| allowed_external opt : external opt -> allowed h opt
| allowed_HttpClient_nil : allowed h (haproxyctl.WithHttpClient None)
| allowed_HttpClient p :
    (p < List.length h)%nat -> allowed h (haproxyctl.WithHttpClient (Some p)).

(** For the examples: an option of a caller, which sets the user name
    and makes a client of its own. *)
Definition example_option : haproxyctl.ConfigOption string unit unit unit :=
  fun c h =>
    (haproxyctl.mkConfig (haproxyctl.URL c) (haproxyctl.StatsPath c) "admin"
       (haproxyctl.Password c) (haproxyctl.client c) (haproxyctl.setupdone c),
     (h ++ [example_client])%list, None).

(** A base URL without query, fragment and percent escape: none of its
    bytes is [?], [#] or [%]. *)
Fixpoint no_query_fragment_escape (s : string) : bool :=
  match s with
  | EmptyString => true
  | String c rest =>
      negb (strings.contains_byte "?#%" c) && no_query_fragment_escape rest
  end.

(** A text that ends with exactly one slash. *)
Definition one_trailing_slash (s : string) : Prop :=
  exists b, s = b ++ "/" /\ ends_with_slash b = false.

(** The stored URL [u] ends as the text does: it has no query and no
    fragment, and the end of the text is its path, or its opaque part
    when it has one, and ends with exactly one slash. *)
Definition stored_last_part (text : string) (u : url.URL) : Prop :=
  url.RawQuery u = "" /\ url.ForceQuery u = false /\ url.Fragment u = "" /\
  ((url.Opaque u = "" /\ one_trailing_slash (url.Path u) /\
    exists pre, text = pre ++ url.Path u) \/
   (url.Path u = "" /\ one_trailing_slash (url.Opaque u) /\
    exists pre, text = pre ++ url.Opaque u)).

(** ** Properties *)

(** *** Digit strings and [leadingInt] *)

Lemma isDigit_byte (c : ascii) : isDigit c = true -> 0 <= byte c - 48 <= 9.
Proof.
  unfold isDigit. intros H. apply andb_true_iff in H. lia.
Qed.

Lemma value_from_le (s : string) :
  forall x, 0 <= x -> all_digits s = true -> x <= value_from x s.
Proof.
  induction s as [|c s IH]; simpl; intros x Hx Hd; [lia|].
  apply andb_true_iff in Hd. destruct Hd as [Hc Hs].
  pose proof (isDigit_byte c Hc).
  specialize (IH (x * 10 + (byte c - 48)) ltac:(lia) Hs). lia.
Qed.

Lemma value_from_app (a b : string) :
  forall x, value_from x (a ++ b) = value_from (value_from x a) b.
Proof.
  induction a as [|c a IH]; simpl; intros x; [reflexivity|]. apply IH.
Qed.

Lemma all_digits_app (a b : string) :
  all_digits (a ++ b) = all_digits a && all_digits b.
Proof.
  induction a as [|c a IH]; simpl; [reflexivity|].
  rewrite IH. apply andb_assoc.
Qed.

Lemma u64_small (z : Z) : 0 <= z < 2 ^ 64 -> u64 z = z.
Proof. intros H. unfold u64. apply Z.mod_small. exact H. Qed.

Lemma i64_small (z : Z) : - 2 ^ 63 <= z < 2 ^ 63 -> i64 z = z.
Proof.
  intros H. unfold i64. rewrite Z.mod_small; lia.
Qed.

(** On digits followed by something that is not a digit, [leadingInt]
    returns the value of the digits and the rest, as long as the value
    is small enough. *)
Lemma leadingInt_from_digits (s r : string) :
  forall x,
    all_digits s = true ->
    match r with EmptyString => True | String c _ => isDigit c = false end ->
    0 <= x ->
    value_from x s <= 2 ^ 63 / 10 ->
    time.leadingInt_from x (s ++ r) = Some (value_from x s, r).
Proof.
  induction s as [|c s IH]; cbn [append value_from all_digits time.leadingInt_from];
    intros x Hd Hr Hx Hv.
  - destruct r as [|c r]; cbn [time.leadingInt_from]; [reflexivity|].
    rewrite Hr. reflexivity.
  - apply andb_true_iff in Hd. destruct Hd as [Hc Hs].
    pose proof (isDigit_byte c Hc) as Hb.
    pose proof (value_from_le s (x * 10 + (byte c - 48)) ltac:(lia) Hs) as Hle.
    rewrite Hc. cbn [negb].
    change (2 ^ 63 / 10) with 922337203685477580 in *.
    change (2 ^ 63) with 9223372036854775808.
    destruct (Z.gtb_spec x 922337203685477580) as [E1|E1]; [lia|].
    replace (x * 10 + byte c - 48) with (x * 10 + (byte c - 48)) by lia.
    rewrite u64_small by (change (2 ^ 64) with 18446744073709551616; lia).
    destruct (Z.gtb_spec (x * 10 + (byte c - 48)) 9223372036854775808) as [E2|E2]; [lia|].
    apply IH; auto; lia.
Qed.

(** On digits alone [leadingInt] either reports an overflow or returns
    their value. *)
Lemma leadingInt_from_digits_any (s r : string) :
  forall x,
    all_digits s = true ->
    match r with EmptyString => True | String c _ => isDigit c = false end ->
    0 <= x <= 2 ^ 63 ->
    time.leadingInt_from x (s ++ r) = None \/
    time.leadingInt_from x (s ++ r) = Some (value_from x s, r).
Proof.
  induction s as [|c s IH]; cbn [append value_from all_digits time.leadingInt_from];
    intros x Hd Hr Hx.
  - right. destruct r as [|c r]; cbn [time.leadingInt_from]; [reflexivity|].
    rewrite Hr. reflexivity.
  - apply andb_true_iff in Hd. destruct Hd as [Hc Hs].
    pose proof (isDigit_byte c Hc) as Hb.
    rewrite Hc. cbn [negb].
    change (2 ^ 63 / 10) with 922337203685477580 in *.
    change (2 ^ 63) with 9223372036854775808 in *.
    destruct (x >? 922337203685477580) eqn:E1; [left; reflexivity|].
    replace (x * 10 + byte c - 48) with (x * 10 + (byte c - 48)) by lia.
    rewrite u64_small by (change (2 ^ 64) with 18446744073709551616; lia).
    destruct (x * 10 + (byte c - 48) >? 9223372036854775808) eqn:E2;
      [left; reflexivity|].
    apply IH; auto; lia.
Qed.

(** *** Decoding a cell of digits *)

Lemma isDigit_not_sign (c : ascii) :
  isDigit c = true ->
  ascii_eqb c "-"%char = false /\ ascii_eqb c "+"%char = false /\
  ascii_eqb c "."%char = false.
Proof.
  intros H. unfold ascii_eqb.
  repeat split;
    match goal with
    | |- Ascii.eqb c ?k = false =>
        destruct (Ascii.eqb_spec c k) as [->|]; [discriminate H | reflexivity]
    end.
Qed.

Lemma length_append_s (s : string) :
  String.length (s ++ "s") = S (String.length s).
Proof.
  induction s as [|c s IH]; cbn [append String.length]; congruence.
Qed.

Lemma parse_terms_nil (fuel : nat) (orig : string) (d : Z) :
  time.parse_terms fuel orig d "" = inr d.
Proof. destruct fuel; reflexivity. Qed.

(** One term made of digits and the unit [s]. *)
Lemma parse_term_digits_s (orig s : string) :
  all_digits s = true -> s <> "" ->
  time.parse_term orig (s ++ "s") =
    if digits_value s >? 9223372036 then inl (ErrInvalidDuration orig)
    else inr (digits_value s * 1000000000, "").
Proof.
  intros Hd Hne. destruct s as [|c s]; [congruence|].
  pose proof Hd as Hd'. cbn [all_digits] in Hd'. apply andb_true_iff in Hd'.
  destruct Hd' as [Hc Hs].
  assert (HV : 0 <= digits_value (String c s))
    by (apply (value_from_le (String c s) 0); [lia | exact Hd]).
  set (V := digits_value (String c s)) in *.
  unfold time.parse_term. cbn [append].
  rewrite Hc, orb_true_r. cbn [negb].
  change (String c (s ++ "s")) with (String c s ++ "s").
  unfold time.leadingInt.
  assert (Hr : match "s" with EmptyString => True | String c _ => isDigit c = false end)
    by reflexivity.
  destruct (Z_le_gt_dec V (2 ^ 63 / 10)) as [Hsmall|Hbig].
  - rewrite (leadingInt_from_digits (String c s) "s" 0 Hd Hr ltac:(lia) Hsmall).
    fold (digits_value (String c s)). fold V.
    rewrite length_append_s.
    replace (S (String.length (String c s)) =? String.length "s")%nat with false
      by (symmetry; apply Nat.eqb_neq; cbn [String.length]; lia).
    change (ascii_eqb "s" ".") with false. cbv beta iota.
    change (time.span_unit "s") with ("s", "").
    cbv beta iota.
    change (time.unitMap "s") with (Some 1000000000).
    cbn [negb andb].
    change (2 ^ 63 / 1000000000) with 9223372036.
    change (0 >? 0) with false. cbv iota.
    destruct (Z.gtb_spec V 9223372036) as [E|E]; [reflexivity|].
    rewrite u64_small by (change (2 ^ 64) with 18446744073709551616; lia).
    reflexivity.
  - assert (E : (V >? 9223372036) = true)
      by (apply Z.gtb_lt; change (2 ^ 63 / 10) with 922337203685477580 in Hbig; lia).
    rewrite E.
    destruct (leadingInt_from_digits_any (String c s) "s" 0 Hd Hr
                ltac:(change (2 ^ 63) with 9223372036854775808; lia)) as [H|H];
      rewrite H; [reflexivity|].
    fold (digits_value (String c s)). fold V.
    rewrite length_append_s.
    replace (S (String.length (String c s)) =? String.length "s")%nat with false
      by (symmetry; apply Nat.eqb_neq; cbn [String.length]; lia).
    change (ascii_eqb "s" ".") with false. cbv beta iota.
    change (time.span_unit "s") with ("s", "").
    cbv beta iota.
    change (time.unitMap "s") with (Some 1000000000).
    cbn [negb andb].
    change (2 ^ 63 / 1000000000) with 9223372036.
    rewrite E. reflexivity.
Qed.

Lemma eqb_append_s_0 (c : ascii) (s : string) :
  String.eqb (String c (s ++ "s")) "0" = false.
Proof.
  cbn [String.eqb]. destruct (Ascii.eqb c "0"); [|reflexivity].
  destruct s; reflexivity.
Qed.

(** [ParseDuration] on digits followed by the unit [s]. *)
Lemma ParseDuration_digits_s (s : string) :
  all_digits s = true -> s <> "" ->
  time.ParseDuration (s ++ "s") =
    if digits_value s >? 9223372036 then (0, Some (ErrInvalidDuration (s ++ "s")))
    else (digits_value s * 1000000000, None).
Proof.
  intros Hd Hne.
  pose proof (parse_term_digits_s (s ++ "s") s Hd Hne) as Hterm.
  assert (HV : 0 <= digits_value s)
    by (apply (value_from_le s 0); [lia | exact Hd]).
  destruct s as [|c s]; [congruence|].
  cbn [all_digits] in Hd. apply andb_true_iff in Hd. destruct Hd as [Hc Hs].
  destruct (isDigit_not_sign c Hc) as (Hm & Hp & _).
  set (V := digits_value (String c s)) in *.
  unfold time.ParseDuration. cbn [append] in *.
  rewrite Hm, Hp. cbn [orb].
  rewrite eqb_append_s_0. cbn [String.eqb String.length time.parse_terms].
  rewrite Hterm.
  destruct (Z.gtb_spec V 9223372036) as [E|E]; [reflexivity|].
  rewrite Z.add_0_l.
  rewrite u64_small by (change (2 ^ 64) with 18446744073709551616; lia).
  destruct (Z.gtb_spec (V * 1000000000) (2 ^ 63)) as [E1|E1];
    [change (2 ^ 63) with 9223372036854775808 in E1; lia|].
  rewrite parse_terms_nil.
  destruct (Z.gtb_spec (V * 1000000000) (2 ^ 63 - 1)) as [E2|E2];
    [change (2 ^ 63) with 9223372036854775808 in E2; lia|].
  rewrite i64_small by (change (2 ^ 63) with 9223372036854775808; lia).
  reflexivity.
Qed.

(** [UnmarshalCSV] on a cell of digits: the seconds become nanoseconds,
    or the cell is refused when they do not fit. *)
Lemma UnmarshalCSV_digits (date : haproxyctl.Duration) (s : string) :
  all_digits s = true -> s <> "" ->
  haproxyctl.Duration_UnmarshalCSV date s =
    if digits_value s >? 9223372036
    then (haproxyctl.mkDuration 0, Some (ErrInvalidDuration (s ++ "s")))
    else (haproxyctl.mkDuration (digits_value s * 1000000000), None).
Proof.
  intros Hd Hne. unfold haproxyctl.Duration_UnmarshalCSV.
  destruct (String.eqb_spec s "") as [->|_]; [congruence|].
  rewrite (ParseDuration_digits_s s Hd Hne).
  destruct (digits_value s >? 9223372036); reflexivity.
Qed.

(** *** Every turn of the loop of [ParseDuration] consumes input *)

Lemma leadingInt_from_length (s : string) :
  forall x v r,
    time.leadingInt_from x s = Some (v, r) ->
    (String.length r <= String.length s)%nat.
Proof.
  induction s as [|c s IH]; cbn [time.leadingInt_from String.length]; intros x v r H.
  - inversion H; subst. cbn. lia.
  - destruct (negb (isDigit c)).
    + inversion H; subst. cbn [String.length]. lia.
    + destruct (x >? 2 ^ 63 / 10); [discriminate H|].
      destruct (u64 (x * 10 + byte c - 48) >? 2 ^ 63); [discriminate H|].
      specialize (IH _ _ _ H). lia.
Qed.

Lemma leadingFraction_from_length (s : string) :
  forall x scale overflow,
    (String.length (snd (time.leadingFraction_from x scale overflow s))
     <= String.length s)%nat.
Proof.
  induction s as [|c s IH]; cbn [time.leadingFraction_from String.length];
    intros x scale overflow; [cbn; lia|].
  destruct (negb (isDigit c)); [cbn [snd String.length]; lia|].
  destruct overflow; [specialize (IH x scale true); lia|].
  destruct (x >? (2 ^ 63 - 1) / 10); [specialize (IH x scale true); lia|].
  destruct (u64 (x * 10 + byte c - 48) >? 2 ^ 63);
    [specialize (IH x scale true); lia|].
  match goal with
  | |- context [time.leadingFraction_from ?y ?sc false s] =>
      specialize (IH y sc false); lia
  end.
Qed.

Lemma span_unit_length (s : string) :
  forall u r,
    time.span_unit s = (u, r) ->
    String.length s = (String.length u + String.length r)%nat.
Proof.
  induction s as [|c s IH]; cbn [time.span_unit]; intros u r H.
  - inversion H; subst. reflexivity.
  - destruct (ascii_eqb c "." || isDigit c).
    + inversion H; subst. reflexivity.
    + destruct (time.span_unit s) as [u' r'] eqn:E. inversion H; subst.
      cbn [String.length]. rewrite (IH u' r eq_refl). reflexivity.
Qed.

Lemma parse_term_shorter (orig s : string) (v : Z) (rest : string) :
  time.parse_term orig s = inr (v, rest) ->
  (String.length rest < String.length s)%nat.
Proof.
  unfold time.parse_term. destruct s as [|c0 s0]; [discriminate|].
  destruct (negb (ascii_eqb c0 "." || isDigit c0)); [discriminate|].
  unfold time.leadingInt.
  destruct (time.leadingInt_from 0 (String c0 s0)) as [[v1 s1]|] eqn:Eint;
    [|discriminate].
  pose proof (leadingInt_from_length _ _ _ _ Eint) as Hint.
  assert (Hfrac : forall f scale s2 post,
             match s1 with
             | String c1 s1' =>
                 if ascii_eqb c1 "."
                 then let '(f, scale, s2) := time.leadingFraction s1' in
                      (f, scale, s2,
                       negb (String.length s1' =? String.length s2)%nat)
                 else (0, f64_of_uint64 1, s1, false)
             | EmptyString => (0, f64_of_uint64 1, s1, false)
             end = (f, scale, s2, post) ->
             (String.length s2 <= String.length s1)%nat).
  { intros f scale s2 post H. destruct s1 as [|c1 s1'].
    - inversion H; subst. lia.
    - destruct (ascii_eqb c1 ".").
      + pose proof (leadingFraction_from_length s1' 0 (f64_of_uint64 1) false) as Hl.
        unfold time.leadingFraction in H.
        destruct (time.leadingFraction_from 0 (f64_of_uint64 1) false s1')
          as [[f' sc'] s2'].
        inversion H; subst. cbn [snd String.length] in *. lia.
      + inversion H; subst. lia. }
  destruct (match s1 with
            | String c1 s1' => _
            | EmptyString => _
            end) as [[[f scale] s2] post] eqn:Efrac.
  specialize (Hfrac _ _ _ _ eq_refl).
  destruct (negb (negb (String.length (String c0 s0) =? String.length s1)%nat)
            && negb post); [discriminate|].
  destruct (time.span_unit s2) as [u s3] eqn:Eunit.
  pose proof (span_unit_length _ _ _ Eunit) as Hunit.
  destruct u as [|cu u]; [discriminate|].
  cbn [String.length] in Hunit.
  destruct (time.unitMap (String cu u)) as [unit|]; [|discriminate].
  destruct (v1 >? 2 ^ 63 / unit); [discriminate|].
  destruct (f >? 0).
  - match goal with
    | |- (if ?b then _ else _) = _ -> _ => destruct b; [discriminate|]
    end.
    intros H. inversion H; subst. lia.
  - intros H. inversion H; subst. lia.
Qed.

(** The fuel of [parse_terms] never runs out: any amount that covers
    the length of the input gives the same result. *)
Lemma parse_terms_fuel (orig : string) (fuel1 : nat) :
  forall fuel2 d s,
    (String.length s <= fuel1)%nat -> (String.length s <= fuel2)%nat ->
    time.parse_terms fuel1 orig d s = time.parse_terms fuel2 orig d s.
Proof.
  induction fuel1 as [|fuel1 IH]; intros fuel2 d s H1 H2.
  - destruct s; [|cbn in H1; lia]. rewrite !parse_terms_nil. reflexivity.
  - destruct s as [|c s]; [rewrite !parse_terms_nil; reflexivity|].
    destruct fuel2 as [|fuel2]; [cbn in H2; lia|].
    cbn [time.parse_terms].
    destruct (time.parse_term orig (String c s)) as [e|[v rest]] eqn:E;
      [reflexivity|].
    pose proof (parse_term_shorter _ _ _ _ E) as Hs.
    destruct (u64 (d + v) >? 2 ^ 63); [reflexivity|].
    apply IH; lia.
Qed.

(** *** Printing an integer *)

Lemma digit_char (m : Z) :
  0 <= m <= 9 ->
  isDigit (ascii_of_N (Z.to_N (m + 48))) = true /\
  byte (ascii_of_N (Z.to_N (m + 48))) - 48 = m.
Proof.
  intros H.
  assert (Hm : m = 0 \/ m = 1 \/ m = 2 \/ m = 3 \/ m = 4 \/ m = 5 \/ m = 6 \/
               m = 7 \/ m = 8 \/ m = 9) by lia.
  repeat (destruct Hm as [->|Hm]; [split; reflexivity|]).
  subst m. split; reflexivity.
Qed.

Lemma append_cons_assoc (a : string) (c : ascii) (b : string) :
  (a ++ String c EmptyString) ++ b = a ++ String c b.
Proof.
  induction a as [|x a IH]; cbn [append]; [reflexivity|]. rewrite IH. reflexivity.
Qed.

Lemma append_assoc (a b c : string) : (a ++ b) ++ c = a ++ (b ++ c).
Proof.
  induction a as [|x a IH]; cbn [append]; [reflexivity|]. rewrite IH. reflexivity.
Qed.

Lemma append_nil_r (a : string) : a ++ "" = a.
Proof.
  induction a as [|x a IH]; cbn [append]; [reflexivity|]. rewrite IH. reflexivity.
Qed.

(** [formatBits] puts in front of [buf] a non-empty string of digits
    that denotes [u]. *)
Lemma formatBits_digits (fuel : nat) :
  forall u buf,
    0 <= u < 10 ^ Z.of_nat (S fuel) ->
    exists ds,
      strconv.formatBits (S fuel) buf u = ds ++ buf /\
      all_digits ds = true /\ ds <> "" /\ digits_value ds = u.
Proof.
  induction fuel as [|fuel IH]; intros u buf Hu.
  - change (10 ^ Z.of_nat 1) with 10 in Hu.
    destruct (digit_char u ltac:(lia)) as [Hd Hb].
    cbn [strconv.formatBits].
    rewrite (Z.mod_small u 10) by lia. rewrite (Z.div_small u 10) by lia.
    cbn [Z.eqb].
    exists (String (ascii_of_N (Z.to_N (u + 48))) ""). cbn [append all_digits].
    rewrite Hd. repeat split; [discriminate|].
    unfold digits_value. cbn [value_from]. lia.
  - assert (Hpow : 10 ^ Z.of_nat (S (S fuel)) = 10 * 10 ^ Z.of_nat (S fuel)).
    { rewrite (Nat2Z.inj_succ (S fuel)). rewrite Z.pow_succ_r by lia. reflexivity. }
    pose proof (Z.mod_pos_bound u 10 ltac:(lia)) as Hmod.
    pose proof (Z.div_mod u 10 ltac:(lia)) as Hdm.
    destruct (digit_char (u mod 10) ltac:(lia)) as [Hd Hb].
    remember (S fuel) as f eqn:Hf.
    cbn [strconv.formatBits].
    destruct (Z.eqb_spec (u / 10) 0) as [E|E].
    + exists (String (ascii_of_N (Z.to_N (u mod 10 + 48))) ""). cbn [append all_digits].
      rewrite Hd. repeat split; [discriminate|].
      unfold digits_value. cbn [value_from]. lia.
    + subst f.
      destruct (IH (u / 10) (String (ascii_of_N (Z.to_N (u mod 10 + 48))) buf))
        as (ds & Heq & Hall & Hne & Hval).
      { split; [apply Z.div_pos; lia|]. apply Z.div_lt_upper_bound; lia. }
      exists (ds ++ String (ascii_of_N (Z.to_N (u mod 10 + 48))) "").
      rewrite append_cons_assoc. split; [exact Heq|].
      rewrite all_digits_app. cbn [all_digits]. rewrite Hall, Hd.
      repeat split.
      * destruct ds; [congruence | discriminate].
      * unfold digits_value in *. rewrite value_from_app, Hval.
        cbn [value_from]. lia.
Qed.

(** [FormatInt] prints a non-negative int64 as the digits that denote
    it. *)
Lemma FormatInt_digits (i : Z) :
  0 <= i < 2 ^ 63 ->
  all_digits (strconv.FormatInt i) = true /\
  strconv.FormatInt i <> "" /\
  digits_value (strconv.FormatInt i) = i.
Proof.
  intros Hi. unfold strconv.FormatInt.
  destruct (Z.ltb_spec i 0) as [E|_]; [lia|].
  change (2 ^ 63) with 9223372036854775808 in Hi.
  rewrite u64_small by (change (2 ^ 64) with 18446744073709551616; lia).
  destruct (formatBits_digits 19 i "") as (ds & Heq & Hall & Hne & Hval).
  { change (10 ^ Z.of_nat 20) with 100000000000000000000. lia. }
  rewrite Heq, append_nil_r. auto.
Qed.

(** *** Cells that do not start like a number *)

Lemma not_digit_not_0 (c : ascii) : isDigit c = false -> Ascii.eqb c "0" = false.
Proof.
  intros H. destruct (Ascii.eqb_spec c "0") as [->|]; [discriminate H | reflexivity].
Qed.

Lemma ParseDuration_no_number_start (s : string) :
  no_number_start s = true ->
  time.ParseDuration (s ++ "s") = (0, Some (ErrInvalidDuration (s ++ "s"))).
Proof.
  unfold no_number_start, time.ParseDuration.
  destruct s as [|c rest]; [discriminate|]. cbn [append].
  destruct (ascii_eqb c "-" || ascii_eqb c "+") eqn:Esign.
  - destruct rest as [|c1 r]; intros H.
    + reflexivity.
    + apply negb_true_iff in H. cbn [append].
      assert (Hc1 : isDigit c1 = false) by (apply orb_false_iff in H; tauto).
      cbn [String.eqb]. rewrite (not_digit_not_0 c1 Hc1).
      cbn [String.length time.parse_terms time.parse_term].
      rewrite H. reflexivity.
  - intros H. apply negb_true_iff in H.
    assert (Hc : isDigit c = false) by (apply orb_false_iff in H; tauto).
    cbn [String.eqb]. rewrite (not_digit_not_0 c Hc).
    cbn [String.length time.parse_terms time.parse_term].
    rewrite H. reflexivity.
Qed.

Lemma UnmarshalCSV_no_number_start (date : haproxyctl.Duration) (s : string) :
  no_number_start s = true ->
  haproxyctl.Duration_UnmarshalCSV date s =
    (haproxyctl.mkDuration 0, Some (ErrInvalidDuration (s ++ "s"))).
Proof.
  intros H. unfold haproxyctl.Duration_UnmarshalCSV.
  destruct (String.eqb_spec s "") as [->|_]; [discriminate H|].
  rewrite (ParseDuration_no_number_start s H). reflexivity.
Qed.

(** *** The claims about [Duration] *)

(** C1 (as amended).  For every non-empty string [s] of decimal digits
    whose value is at most 9223372036, decoding a Duration from [s] with
    [UnmarshalCSV] succeeds, and re-encoding it with [MarshalCSV] yields
    the decimal string of the value of [s] multiplied by 1e9: seconds in,
    nanoseconds out. *)
Theorem C1_seconds_in_nanoseconds_out (date : haproxyctl.Duration) (s : string) :
  all_digits s = true -> s <> "" -> digits_value s <= 9223372036 ->
  exists d out,
    haproxyctl.Duration_UnmarshalCSV date s = (d, None) /\
    haproxyctl.Duration_MarshalCSV d = (out, None) /\
    out = strconv.FormatInt (digits_value s * 1000000000) /\
    all_digits out = true /\
    digits_value out = digits_value s * 1000000000.
Proof.
  intros Hd Hne Hv.
  assert (H0 : 0 <= digits_value s)
    by (apply (value_from_le s 0); [lia | exact Hd]).
  exists (haproxyctl.mkDuration (digits_value s * 1000000000)),
    (strconv.FormatInt (digits_value s * 1000000000)).
  rewrite (UnmarshalCSV_digits date s Hd Hne).
  destruct (Z.gtb_spec (digits_value s) 9223372036) as [E|_]; [lia|].
  assert (Hr : 0 <= digits_value s * 1000000000 < 2 ^ 63)
    by (change (2 ^ 63) with 9223372036854775808; lia).
  destruct (FormatInt_digits _ Hr) as (Ha & _ & Hval).
  unfold haproxyctl.Duration_MarshalCSV, haproxyctl.Nanoseconds.
  cbn [haproxyctl.time_Duration].
  rewrite i64_small by lia. auto.
Qed.

Lemma C1_seconds_in_nanoseconds_out_witness :
  exists d out,
    haproxyctl.Duration_UnmarshalCSV (haproxyctl.mkDuration 0) "42" = (d, None) /\
    haproxyctl.Duration_MarshalCSV d = (out, None) /\
    out = strconv.FormatInt (digits_value "42" * 1000000000) /\
    all_digits out = true /\
    digits_value out = digits_value "42" * 1000000000.
Proof.
  apply (C1_seconds_in_nanoseconds_out (haproxyctl.mkDuration 0) "42");
    [reflexivity | discriminate | vm_compute; discriminate].
Defined.

(** C1 as stated fails: the digits 9223372037 are refused (that many
    seconds do not fit the nanosecond count), the Duration stays zero
    and is re-encoded as 0. *)
Lemma C1_counterexample :
  let s := "9223372037" in
  let decoded := haproxyctl.Duration_UnmarshalCSV (haproxyctl.mkDuration 0) s in
  all_digits s = true /\
  snd decoded = Some (ErrInvalidDuration "9223372037s") /\
  fst (haproxyctl.Duration_MarshalCSV (fst decoded)) = "0" /\
  (digits_value (fst (haproxyctl.Duration_MarshalCSV (fst decoded)))
     =? digits_value s * 1000000000) = false.
Proof. vm_compute. repeat split. Qed.

(** C2 (as amended).  A non-empty cell that does not start like a number
    (after an optional sign comes neither a digit nor a point) is a
    decode error; a non-empty cell of decimal digits decodes as that
    many whole seconds when the value is at most 9223372036, and is a
    decode error when it is larger. *)
Theorem C2_decode_seconds_or_error (date : haproxyctl.Duration) (s : string) :
  (no_number_start s = true ->
     exists e, haproxyctl.Duration_UnmarshalCSV date s = (haproxyctl.mkDuration 0, Some e)) /\
  (all_digits s = true -> s <> "" -> digits_value s <= 9223372036 ->
     haproxyctl.Duration_UnmarshalCSV date s =
       (haproxyctl.mkDuration (digits_value s * time.Second), None)) /\
  (all_digits s = true -> s <> "" -> 9223372036 < digits_value s ->
     exists e, haproxyctl.Duration_UnmarshalCSV date s = (haproxyctl.mkDuration 0, Some e)).
Proof.
  split; [|split].
  - intros H. eexists. apply (UnmarshalCSV_no_number_start date s H).
  - intros Hd Hne Hv. rewrite (UnmarshalCSV_digits date s Hd Hne).
    destruct (Z.gtb_spec (digits_value s) 9223372036) as [E|_]; [lia|]. reflexivity.
  - intros Hd Hne Hv. rewrite (UnmarshalCSV_digits date s Hd Hne).
    destruct (Z.gtb_spec (digits_value s) 9223372036) as [_|E]; [|lia].
    eexists. reflexivity.
Qed.

Lemma C2_decode_seconds_or_error_witness :
  (exists e, haproxyctl.Duration_UnmarshalCSV (haproxyctl.mkDuration 7) "abc"
             = (haproxyctl.mkDuration 0, Some e)) /\
  haproxyctl.Duration_UnmarshalCSV (haproxyctl.mkDuration 7) "90"
    = (haproxyctl.mkDuration (digits_value "90" * time.Second), None) /\
  (exists e, haproxyctl.Duration_UnmarshalCSV (haproxyctl.mkDuration 7) "9223372037"
             = (haproxyctl.mkDuration 0, Some e)).
Proof.
  split; [|split].
  - apply (proj1 (C2_decode_seconds_or_error (haproxyctl.mkDuration 7) "abc")).
    reflexivity.
  - apply (proj1 (proj2 (C2_decode_seconds_or_error (haproxyctl.mkDuration 7) "90")));
      [reflexivity | discriminate | vm_compute; discriminate].
  - apply (proj2 (proj2 (C2_decode_seconds_or_error (haproxyctl.mkDuration 7) "9223372037")));
      [reflexivity | discriminate | reflexivity].
Defined.

(** C2 as stated fails on both sides: the non-numeric cell [1m] decodes
    without error (to one millisecond), and the digits 9223372037 are a
    decode error. *)
Lemma C2_counterexample :
  all_digits "1m" = false /\
  haproxyctl.Duration_UnmarshalCSV (haproxyctl.mkDuration 0) "1m"
    = (haproxyctl.mkDuration time.Millisecond, None) /\
  all_digits "9223372037" = true /\
  haproxyctl.Duration_UnmarshalCSV (haproxyctl.mkDuration 0) "9223372037"
    = (haproxyctl.mkDuration 0, Some (ErrInvalidDuration "9223372037s")).
Proof. vm_compute. repeat split. Qed.

(** C9.  Decoding an empty Duration cell succeeds and leaves the
    Duration as it was, so a freshly initialised record keeps the zero
    duration, whose rendering by [String] is 0s. *)
Theorem C9_empty_cell_zero_duration :
  (forall date, haproxyctl.Duration_UnmarshalCSV date "" = (date, None)) /\
  haproxyctl.Duration_UnmarshalCSV (haproxyctl.mkDuration 0) ""
    = (haproxyctl.mkDuration 0, None) /\
  haproxyctl.Duration_String
    (fst (haproxyctl.Duration_UnmarshalCSV (haproxyctl.mkDuration 0) "")) = "0s".
Proof. repeat split. Qed.

(** C10.  [UnmarshalCSV] accepts more than non-negative whole seconds:
    the cell -5 decodes to minus five seconds and the cell 1.5 to one
    and a half seconds, both without error. *)
Theorem C10_negative_and_fractional_cells :
  haproxyctl.Duration_UnmarshalCSV (haproxyctl.mkDuration 0) "-5"
    = (haproxyctl.mkDuration (-5 * time.Second), None) /\
  haproxyctl.Duration_UnmarshalCSV (haproxyctl.mkDuration 0) "1.5"
    = (haproxyctl.mkDuration (time.Second + 500 * time.Millisecond), None) /\
  haproxyctl.Duration_String (haproxyctl.mkDuration (-5 * time.Second)) = "-5s" /\
  haproxyctl.Duration_String
    (haproxyctl.mkDuration (time.Second + 500 * time.Millisecond)) = "1.5s".
Proof. vm_compute. repeat split. Qed.

(** *** Further properties of [Duration] *)

Lemma ParseDuration_error_zero (s : string) (d : time.Duration) (e : error) :
  time.ParseDuration s = (d, Some e) -> d = 0.
Proof.
  unfold time.ParseDuration.
  destruct (match s with
            | String c rest =>
                if ascii_eqb c "-" || ascii_eqb c "+"
                then (ascii_eqb c "-", rest) else (false, s)
            | EmptyString => (false, s)
            end) as [neg s'].
  destruct (String.eqb s' "0"); [intros H; inversion H|].
  destruct (String.eqb s' ""); [intros H; inversion H; reflexivity|].
  destruct (time.parse_terms (String.length s') s 0 s') as [e'|d'];
    [intros H; inversion H; reflexivity|].
  destruct neg; [intros H; inversion H|].
  destruct (d' >? 2 ^ 63 - 1); intros H; inversion H; reflexivity.
Qed.

(** X1.  A cell that [UnmarshalCSV] refuses leaves the Duration at
    zero, whatever it held before: the result of [time.ParseDuration]
    is stored before the error is looked at. *)
Theorem X1_refused_cell_zeroes_duration (date : haproxyctl.Duration) (csv : string) :
  snd (haproxyctl.Duration_UnmarshalCSV date csv) <> None ->
  fst (haproxyctl.Duration_UnmarshalCSV date csv) = haproxyctl.mkDuration 0.
Proof.
  unfold haproxyctl.Duration_UnmarshalCSV.
  destruct (String.eqb csv ""); [cbn [snd]; congruence|].
  destruct (time.ParseDuration (csv ++ "s")) as [d' [e'|]] eqn:E;
    cbn [fst snd]; [|congruence].
  intros _. rewrite (ParseDuration_error_zero _ _ _ E). reflexivity.
Qed.

Lemma X1_refused_cell_zeroes_duration_witness :
  fst (haproxyctl.Duration_UnmarshalCSV (haproxyctl.mkDuration 42) "1h")
  = haproxyctl.mkDuration 0.
Proof.
  apply (X1_refused_cell_zeroes_duration (haproxyctl.mkDuration 42) "1h").
  discriminate.
Defined.

(** *** Decoding an ordinal numeral *)

Lemma cut_any_digit (ps : list string) (c : ascii) (rest : string) :
  isDigit c = true -> forallb starts_nondigit ps = true ->
  strings.cut_any ps (String c rest) = None.
Proof.
  intros Hc. induction ps as [|p ps IH]; cbn [forallb strings.cut_any]; intros H;
    [reflexivity|].
  apply andb_true_iff in H. destruct H as [Hp Hps].
  destruct p as [|a p]; [discriminate Hp|].
  cbn [starts_nondigit] in Hp. apply negb_true_iff in Hp.
  cbn [strings.cut_prefix]. unfold ascii_eqb.
  destruct (Ascii.eqb_spec a c) as [->|_]; [congruence|]. apply IH, Hps.
Qed.

Lemma trimLeft_any_digit (fuel : nat) (ps : list string) (c : ascii) (rest : string) :
  isDigit c = true -> forallb starts_nondigit ps = true ->
  strings.trimLeft_any fuel ps (String c rest) = String c rest.
Proof.
  intros Hc Hps. destruct fuel as [|fuel]; cbn [strings.trimLeft_any]; [reflexivity|].
  rewrite (cut_any_digit ps c rest Hc Hps). reflexivity.
Qed.

Lemma rev_append_rev_append (s : string) :
  forall a b, strings.rev_append (strings.rev_append s a) b = strings.rev_append a (s ++ b).
Proof.
  induction s as [|x s IH]; intros a b; cbn [strings.rev_append append]; [reflexivity|].
  rewrite IH. reflexivity.
Qed.

Lemma rev_rev (s : string) : strings.rev (strings.rev s) = s.
Proof.
  unfold strings.rev. rewrite rev_append_rev_append.
  cbn [strings.rev_append]. apply append_nil_r.
Qed.

Lemma all_digits_rev_append (s : string) :
  forall a, all_digits (strings.rev_append s a) = all_digits s && all_digits a.
Proof.
  induction s as [|x s IH]; intros a; cbn [strings.rev_append all_digits];
    [reflexivity|].
  rewrite IH. cbn [all_digits].
  destruct (isDigit x), (all_digits s), (all_digits a); reflexivity.
Qed.

Lemma rev_append_not_nil (s : string) :
  forall a, a <> "" -> strings.rev_append s a <> "".
Proof.
  induction s as [|x s IH]; intros a Ha; cbn [strings.rev_append]; [exact Ha|].
  apply IH. discriminate.
Qed.

Lemma TrimSpace_digits (s : string) :
  all_digits s = true -> s <> "" -> strings.TrimSpace s = s.
Proof.
  intros Hd Hne. unfold strings.TrimSpace.
  destruct s as [|c rest] eqn:Es; [congruence|]. rewrite <- Es in *.
  assert (Hc : isDigit c = true)
    by (rewrite Es in Hd; cbn [all_digits] in Hd; apply andb_true_iff in Hd; tauto).
  assert (H1 : strings.trimLeft_any (String.length s) strings.spaces s = s).
  { rewrite Es at 2 3. apply trimLeft_any_digit; [exact Hc | reflexivity]. }
  rewrite H1.
  assert (Hrd : all_digits (strings.rev s) = true).
  { unfold strings.rev. rewrite all_digits_rev_append, Hd. reflexivity. }
  assert (Hrn : strings.rev s <> "").
  { unfold strings.rev. rewrite Es. cbn [strings.rev_append].
    apply rev_append_not_nil. discriminate. }
  destruct (strings.rev s) as [|c' rest'] eqn:Er; [congruence|].
  cbn [all_digits] in Hrd. apply andb_true_iff in Hrd.
  rewrite trimLeft_any_digit; [|tauto|reflexivity].
  rewrite <- Er. apply rev_rev.
Qed.

Lemma before_first_digits (s : string) :
  all_digits s = true -> strings.before_first s "." = s.
Proof.
  induction s as [|c s IH]; cbn [all_digits strings.before_first]; intros H;
    [reflexivity|].
  apply andb_true_iff in H. destruct H as [Hc Hs].
  destruct (isDigit_not_sign c Hc) as (_ & _ & Hdot).
  rewrite Hdot, (IH Hs). reflexivity.
Qed.

Lemma isDigit_not_underscore (c : ascii) :
  isDigit c = true -> ascii_eqb c "_" = false.
Proof.
  intros H. unfold ascii_eqb.
  destruct (Ascii.eqb_spec c "_") as [->|]; [discriminate H | reflexivity].
Qed.

(** The loop of [ParseUint] on decimal digits whose value fits an
    int64. *)
Lemma parse_digits_decimal (s0 s : string) :
  forall n,
    all_digits s = true -> 0 <= n -> value_from n s < 2 ^ 63 ->
    strconv.parse_digits s0 10 1844674407370955162 18446744073709551615 true
      n false s = (value_from n s, false, None).
Proof.
  induction s as [|c s IH]; cbn [all_digits value_from strconv.parse_digits];
    intros n Hd Hn Hv; [reflexivity|].
  apply andb_true_iff in Hd. destruct Hd as [Hc Hs].
  pose proof (isDigit_byte c Hc) as Hb.
  pose proof (value_from_le s (n * 10 + (byte c - 48)) ltac:(lia) Hs) as Hle.
  change (2 ^ 63) with 9223372036854775808 in Hv.
  rewrite (isDigit_not_underscore c Hc), Hc. cbn [andb].
  destruct (Z.geb_spec (byte c - 48) 10) as [E|_]; [lia|].
  destruct (Z.geb_spec n 1844674407370955162) as [E|_]; [lia|].
  rewrite (u64_small (n * 10)) by (change (2 ^ 64) with 18446744073709551616; lia).
  rewrite u64_small by (change (2 ^ 64) with 18446744073709551616; lia).
  destruct (Z.ltb_spec (n * 10 + (byte c - 48)) (n * 10)) as [E|_]; [lia|].
  destruct (Z.gtb_spec (n * 10 + (byte c - 48)) 18446744073709551615) as [E|_]; [lia|].
  cbn [orb]. apply IH; auto; lia.
Qed.

Lemma ParseInt_ordinal (s : string) :
  ordinal_numeral s = true -> digits_value s < 2 ^ 63 ->
  strconv.ParseInt s 0 64 = (digits_value s, None).
Proof.
  intros Ho Hv. destruct s as [|c rest]; [discriminate|].
  assert (Hcases : String c rest = "0" \/
                   (ascii_eqb c "0" = false /\ all_digits (String c rest) = true)).
  { unfold ordinal_numeral in Ho.
    destruct (Ascii.eqb_spec c "0") as [->|Hc0].
    - destruct rest; [left; reflexivity|]. discriminate Ho.
    - right. assert (E : ascii_eqb c "0" = false)
        by (unfold ascii_eqb; destruct (Ascii.eqb_spec c "0"); congruence).
      split; [exact E|].
      destruct c as [[] [] [] [] [] [] [] []];
        try (apply andb_true_iff in Ho; exact (proj2 Ho)); congruence. }
  destruct Hcases as [->|[Hc0 Hd]]; [reflexivity|].
  assert (H0 : 0 <= digits_value (String c rest))
    by (apply (value_from_le _ 0); [lia | exact Hd]).
  pose proof Hd as Hd'. cbn [all_digits] in Hd'. apply andb_true_iff in Hd'.
  destruct Hd' as [Hc _].
  destruct (isDigit_not_sign c Hc) as (Hm & Hp & _).
  unfold strconv.ParseInt. rewrite Hp, Hm.
  unfold strconv.ParseUint. rewrite Hc0.
  change ((2 <=? 0) && (0 <=? 36)) with false. change (0 =? 0) with true.
  cbv iota beta.
  change ((2 ^ 64 - 1) / 10 + 1) with 1844674407370955162.
  change (2 ^ 64 - 1) with 18446744073709551615.
  rewrite (parse_digits_decimal (String c rest) (String c rest) 0 Hd ltac:(lia) Hv).
  fold (digits_value (String c rest)).
  cbn [andb negb]. change (2 ^ (64 - 1)) with (2 ^ 63).
  destruct (Z.geb_spec (digits_value (String c rest)) (2 ^ 63)) as [E|_]; [lia|].
  rewrite i64_small by lia. reflexivity.
Qed.

(** A [type] cell that holds an ordinal numeral decodes to the
    EntryType of that value, named or not. *)
Lemma Statistic_Type_decode_ordinal (field : haproxyctl.EntryType) (s : string) :
  ordinal_numeral s = true -> digits_value s < 2 ^ 63 ->
  haproxyctl.Statistic_Type_decode field s = (digits_value s, None).
Proof.
  intros Ho Hv.
  assert (Hd : all_digits s = true /\ s <> "").
  { destruct s as [|c rest]; [discriminate|]. split; [|discriminate].
    unfold ordinal_numeral in Ho.
    destruct c as [[] [] [] [] [] [] [] []];
      try (apply andb_true_iff in Ho; exact (proj2 Ho));
      destruct rest; try reflexivity; discriminate. }
  destruct Hd as [Hd Hne].
  assert (H0 : 0 <= digits_value s)
    by (apply (value_from_le _ 0); [lia | exact Hd]).
  unfold haproxyctl.Statistic_Type_decode, gocsv.setField_int, gocsv.toInt.
  rewrite (TrimSpace_digits s Hd Hne).
  destruct (String.eqb_spec s "") as [->|_]; [congruence|].
  rewrite (before_first_digits s Hd), (ParseInt_ordinal s Ho Hv).
  rewrite i64_small by lia. reflexivity.
Qed.

(** *** The claims about [EntryType] and [Action] *)

(** C3 (as amended).  Decoding a [type] cell containing the ordinal 0,
    1, 2 or 3 yields the EntryType Frontend, Backend, Server, Socket
    respectively.  EntryType is a plain int without a decoding method of
    its own, so an out-of-range ordinal such as 4 is not a decode error:
    it decodes to the EntryType 4, which is none of the four named
    constants, and so does every ordinal numeral decode to the EntryType
    of its value. *)
Theorem C3_type_cell_ordinals (field : haproxyctl.EntryType) :
  haproxyctl.Statistic_Type_decode field "0" = (haproxyctl.Frontend, None) /\
  haproxyctl.Statistic_Type_decode field "1" = (haproxyctl.Backend, None) /\
  haproxyctl.Statistic_Type_decode field "2" = (haproxyctl.Server, None) /\
  haproxyctl.Statistic_Type_decode field "3" = (haproxyctl.Socket, None) /\
  haproxyctl.Statistic_Type_decode field "4" = (4, None) /\
  named_EntryType 4 = false /\
  (forall s, ordinal_numeral s = true -> digits_value s < 2 ^ 63 ->
     haproxyctl.Statistic_Type_decode field s = (digits_value s, None)).
Proof.
  repeat split. intros s Ho Hv. apply (Statistic_Type_decode_ordinal field s Ho Hv).
Qed.

Lemma C3_type_cell_ordinals_witness :
  haproxyctl.Statistic_Type_decode haproxyctl.Frontend "17" = (digits_value "17", None).
Proof.
  apply (proj2 (proj2 (proj2 (proj2 (proj2 (proj2
           (C3_type_cell_ordinals haproxyctl.Frontend))))))) ;
    [reflexivity | reflexivity].
Defined.

(** C3 as stated fails: the cell 4 decodes without error. *)
Lemma C3_counterexample :
  snd (haproxyctl.Statistic_Type_decode haproxyctl.Frontend "4") = None /\
  fst (haproxyctl.Statistic_Type_decode haproxyctl.Frontend "4") = 4 /\
  named_EntryType (fst (haproxyctl.Statistic_Type_decode haproxyctl.Frontend "4")) = false.
Proof. repeat split. Qed.

(** C4 (as amended).  The Action enumeration has the five health-check
    toggles (enable, disable, force-up, force-no-lb, force-down) and
    four of them for the agent check (enable, disable, force-up,
    force-down; there is no agent force-no-lb), each as a fixed string
    token. *)
Theorem C4_check_toggles :
  (forall t, has_toggle haproxyctl.Health t = true) /\
  (forall t, has_toggle haproxyctl.Agent t = negb (Toggle_eqb t haproxyctl.ForceNoLB)) /\
  haproxyctl.tokens_of haproxyctl.Health =
    [(haproxyctl.Disable, "dhlth"); (haproxyctl.Enable, "ehlth");
     (haproxyctl.ForceUp, "hrunn"); (haproxyctl.ForceNoLB, "hnolb");
     (haproxyctl.ForceDown, "hdown")] /\
  haproxyctl.tokens_of haproxyctl.Agent =
    [(haproxyctl.Disable, "dagent"); (haproxyctl.Enable, "eagent");
     (haproxyctl.ForceUp, "arunn"); (haproxyctl.ForceDown, "adown")] /\
  (forall k, In k haproxyctl.ActionConsts) /\
  NoDup (map haproxyctl.token haproxyctl.ActionConsts).
Proof.
  split; [intros []; reflexivity|].
  split; [intros []; reflexivity|].
  split; [reflexivity|].
  split; [reflexivity|].
  split.
  - intros []; cbn; tauto.
  - cbn. repeat constructor; cbn; intuition discriminate.
Qed.

(** C4 as stated fails: no constant is the agent-check toggle
    force-no-lb, so the agent check has four of the five variants. *)
Lemma C4_counterexample :
  has_toggle haproxyctl.Agent haproxyctl.ForceNoLB = false /\
  has_toggle haproxyctl.Health haproxyctl.ForceNoLB = true /\
  List.length (haproxyctl.toggles_of haproxyctl.Agent) = 4%nat /\
  List.length (haproxyctl.toggles_of haproxyctl.Health) = 5%nat.
Proof. repeat split. Qed.

(** *** The trailing slash of the base URL *)

Lemma trimRightByte_slash (s : string) :
  ends_with_slash (strings.trimRightByte s "/") = false /\
  exists n, s = strings.trimRightByte s "/" ++ slashes n.
Proof.
  induction s as [|a rest [IHe [n IHn]]]; cbn [strings.trimRightByte].
  - split; [reflexivity | exists 0%nat; reflexivity].
  - destruct (strings.trimRightByte rest "/") as [|b t] eqn:Et.
    + cbn [append] in IHn. subst rest.
      unfold ascii_eqb. destruct (Ascii.eqb_spec a "/") as [->|Hne].
      * split; [reflexivity | exists (S n); reflexivity].
      * split; [|exists n; reflexivity].
        cbn [ends_with_slash]. unfold ascii_eqb.
        destruct (Ascii.eqb_spec a "/"); congruence.
    + split; [exact IHe|]. exists n.
      change (String a rest = String a (String b t ++ slashes n)).
      f_equal. exact IHn.
Qed.

Lemma TrimRight_slash (s : string) :
  strings.TrimRight s "/" = strings.trimRightByte s "/".
Proof. destruct s; reflexivity. Qed.

(** The text handed to [url.Parse] is the base URL with its trailing
    slashes replaced by one slash. *)
Lemma endpoint_text_one_slash (proxyUrl : string) :
  exists base n,
    proxyUrl = base ++ slashes n /\ ends_with_slash base = false /\
    haproxyctl.endpoint_text proxyUrl = base ++ "/".
Proof.
  destruct (trimRightByte_slash proxyUrl) as [He [n Hn]].
  exists (strings.trimRightByte proxyUrl "/"), n.
  unfold haproxyctl.endpoint_text. rewrite TrimRight_slash. auto.
Qed.

(** *** The claims about [HAProxyConfig] *)

Section ConfigProperties.

Context {url_URL RoundTripper CookieJar Request : Type}.
Variable url_Parse : string -> error + url_URL.

Abbreviation Config := (haproxyctl.HAProxyConfig url_URL).
Abbreviation Clients := (haproxyctl.Heap RoundTripper CookieJar Request).
Abbreviation Opt := (haproxyctl.ConfigOption url_URL RoundTripper CookieJar Request).

(** The loop either runs every option, or stops at the first one that
    fails. *)
Lemma apply_opts_runs (opts : list Opt) :
  forall (c : Config) (h : Clients),
    (exists c' h', runs opts c h c' h' /\ haproxyctl.apply_opts opts c h = (inr c', h')) \/
    (exists (pre : list Opt) (opt : Opt) (post : list Opt) c1 h1 c2 h2 err,
        opts = (pre ++ opt :: post)%list /\ runs pre c h c1 h1 /\
        opt c1 h1 = (c2, h2, Some err) /\
        haproxyctl.apply_opts opts c h = (inl err, h2)).
Proof.
  induction opts as [|opt opts IH]; intros c h.
  - left. exists c, h. split; [constructor | reflexivity].
  - cbn [haproxyctl.apply_opts].
    destruct (opt c h) as [[c1 h1] [err|]] eqn:Eopt.
    + right. exists [], opt, opts, c, h, c1, h1, err.
      repeat split; [constructor | exact Eopt].
    + destruct (IH c1 h1) as [(c' & h' & Hr & He) |
                              (pre & o & post & ca & ha & cb & hb & err & -> & Hr & Ho & He)].
      * left. exists c', h'. split; [econstructor; eassumption | exact He].
      * right. exists (opt :: pre), o, post, ca, ha, cb, hb, err.
        repeat split; [econstructor; eassumption | exact Ho | exact He].
Qed.

Lemma apply_opts_stops (pre : list Opt) :
  forall (c : Config) (h : Clients) c1 h1 (opt : Opt) (post : list Opt) c2 h2 err,
    runs pre c h c1 h1 ->
    opt c1 h1 = (c2, h2, Some err) ->
    haproxyctl.apply_opts (pre ++ opt :: post) c h = (inl err, h2).
Proof.
  induction pre as [|o pre IH]; intros c h c1 h1 opt post c2 h2 err Hr Ho.
  - inversion Hr; subst. cbn [app haproxyctl.apply_opts]. rewrite Ho. reflexivity.
  - inversion Hr as [|? ? ? ? ca ha ? ? Hoa Hrest]; subst.
    cbn [app haproxyctl.apply_opts]. rewrite Hoa.
    apply (IH ca ha c1 h1 opt post c2 h2 err Hrest Ho).
Qed.

(** C5.  For every option list, [NewHAProxyConfig] applies the options
    in the order given.  When all succeed the config they produce is
    set up and returned; when one returns an error, construction stops
    at that option and returns the error with no config, whatever
    options come after it. *)
Theorem C5_options_in_order_first_error_aborts
    (proxyUrl : string) (endpoint : url_URL) (opts : list Opt) (h : Clients) :
  url_Parse (haproxyctl.endpoint_text proxyUrl) = inr endpoint ->
  (exists c1 h1,
      runs opts (initial_config endpoint) h c1 h1 /\
      haproxyctl.NewHAProxyConfig url_Parse proxyUrl opts h =
        (inr (fst (haproxyctl.setupClient c1 h1)), snd (haproxyctl.setupClient c1 h1))) \/
  (exists (pre : list Opt) (opt : Opt) (post : list Opt) c1 h1 c2 h2 err,
      opts = (pre ++ opt :: post)%list /\
      runs pre (initial_config endpoint) h c1 h1 /\
      opt c1 h1 = (c2, h2, Some err) /\
      forall post' : list Opt,
        haproxyctl.NewHAProxyConfig url_Parse proxyUrl (pre ++ opt :: post')%list h =
          (inl err, h2)).
Proof.
  intros Hparse.
  destruct (apply_opts_runs opts (initial_config endpoint) h)
    as [(c1 & h1 & Hr & He) | (pre & o & post & c1 & h1 & c2 & h2 & err & Hopts & Hr & Ho & _)].
  - left. exists c1, h1. split; [exact Hr|].
    unfold haproxyctl.NewHAProxyConfig. rewrite Hparse.
    fold (initial_config endpoint). rewrite He.
    destruct (haproxyctl.setupClient c1 h1); reflexivity.
  - right. exists pre, o, post, c1, h1, c2, h2, err.
    repeat split; [exact Hopts | exact Hr | exact Ho |].
    intros post'. unfold haproxyctl.NewHAProxyConfig. rewrite Hparse.
    fold (initial_config endpoint).
    rewrite (apply_opts_stops pre _ _ c1 h1 o post' c2 h2 err Hr Ho). reflexivity.
Qed.

(** *** The redirect policy *)

Lemma heap_alter_lookup (f : haproxyctl.http_Client RoundTripper CookieJar Request ->
                             haproxyctl.http_Client RoundTripper CookieJar Request)
    (h : Clients) :
  forall p cl, nth_error h p = Some cl ->
    nth_error (haproxyctl.heap_alter f p h) p = Some (f cl).
Proof.
  induction h as [|x h IH]; intros [|p] cl H; cbn in *; try discriminate.
  - congruence.
  - apply IH, H.
Qed.

Lemma heap_new_lookup (h : Clients) cl :
  nth_error (snd (haproxyctl.heap_new h cl)) (fst (haproxyctl.heap_new h cl)) = Some cl.
Proof.
  unfold haproxyctl.heap_new. cbn [fst snd].
  induction h as [|x h IH]; cbn; [reflexivity | exact IH].
Qed.

(** After [setupClient] on a config that was not set up, the config
    holds a client whose redirect check always answers
    [ErrUseLastResponse]. *)
Lemma setupClient_disables_redirects (c : Config) (h : Clients) :
  haproxyctl.setupdone c = false ->
  match haproxyctl.client c with
  | None => True
  | Some p => (p < List.length h)%nat
  end ->
  exists p cl,
    haproxyctl.client (fst (haproxyctl.setupClient c h)) = Some p /\
    nth_error (snd (haproxyctl.setupClient c h)) p = Some cl /\
    forall req via, haproxyctl.checkRedirect cl req via = Some ErrUseLastResponse.
Proof.
  intros Hdone Hcl. unfold haproxyctl.setupClient. rewrite Hdone.
  destruct (haproxyctl.client c) as [p|].
  - destruct (nth_error h p) as [cl|] eqn:E.
    2:{ apply nth_error_None in E. lia. }
    cbn [fst snd]. eexists p, _. split; [reflexivity|].
    split; [apply (heap_alter_lookup _ h p cl E)|].
    intros req via. reflexivity.
  - pose proof (heap_new_lookup h haproxyctl.http_Client_zero) as E.
    destruct (haproxyctl.heap_new h haproxyctl.http_Client_zero) as [p h1].
    cbn [fst snd] in *. eexists p, _. split; [reflexivity|].
    split; [apply (heap_alter_lookup _ h1 p _ E)|].
    intros req via. reflexivity.
Qed.

(** The provided options leave the clients and the flag [setupdone]
    alone, and put in the config no client that is not in the store. *)
Lemma provided_keeps (h : Clients) (opt : Opt) (c : Config) :
  haproxyctl.provided h opt ->
  haproxyctl.setupdone c = false ->
  match haproxyctl.client c with
  | None => True
  | Some p => (p < List.length h)%nat
  end ->
  exists c' err,
    opt c h = (c', h, err) /\
    haproxyctl.URL c' = haproxyctl.URL c /\
    haproxyctl.setupdone c' = false /\
    match haproxyctl.client c' with
    | None => True
    | Some p => (p < List.length h)%nat
    end.
Proof.
  intros Hp Hdone Hcl. destruct Hp as [path|auth|user pass| |p Hlt].
  - eexists _, _. split; [reflexivity|]. cbn. auto.
  - unfold haproxyctl.WithAuthString, haproxyctl.SetCredentialsFromAuthString.
    destruct (haproxyctl.split_colon auth) as [[user pass]|];
      eexists _, _; (split; [reflexivity|]); cbn; auto.
  - eexists _, _. split; [reflexivity|]. cbn. auto.
  - eexists _, _. split; [reflexivity|]. cbn. auto.
  - eexists _, _. split; [reflexivity|]. cbn. auto.
Qed.

Lemma apply_opts_provided (h : Clients) (opts : list Opt) :
  forall (c c' : Config) (h' : Clients),
    Forall (haproxyctl.provided h) opts ->
    haproxyctl.setupdone c = false ->
    match haproxyctl.client c with
    | None => True
    | Some p => (p < List.length h)%nat
    end ->
    haproxyctl.apply_opts opts c h = (inr c', h') ->
    h' = h /\ haproxyctl.URL c' = haproxyctl.URL c /\
    haproxyctl.setupdone c' = false /\
    match haproxyctl.client c' with
    | None => True
    | Some p => (p < List.length h)%nat
    end.
Proof.
  induction opts as [|opt opts IH]; intros c c' h' Hall Hdone Hcl Hrun.
  - cbn in Hrun. inversion Hrun; subst. auto.
  - inversion Hall as [|? ? Hopt Hrest]; subst.
    destruct (provided_keeps h opt c Hopt Hdone Hcl) as (c1 & err & Ho & Hu & Hd1 & Hc1).
    cbn [haproxyctl.apply_opts] in Hrun. rewrite Ho in Hrun.
    destruct err as [e|]; [discriminate Hrun|].
    destruct (IH c1 c' h' Hrest Hd1 Hc1 Hrun) as (-> & Hu' & Hd' & Hc').
    repeat split; [congruence | exact Hd' | exact Hc'].
Qed.

(** C6.  For every config successfully built by [NewHAProxyConfig] from
    the provided options, with or without an injected client, the
    config holds a client whose redirect check answers
    [ErrUseLastResponse] to every request: the client never follows a
    redirect and uses the last response. *)
Theorem C6_redirects_never_followed
    (proxyUrl : string) (opts : list Opt) (h h' : Clients) (c : Config) :
  Forall (haproxyctl.provided h) opts ->
  haproxyctl.NewHAProxyConfig url_Parse proxyUrl opts h = (inr c, h') ->
  exists p cl,
    haproxyctl.client c = Some p /\ nth_error h' p = Some cl /\
    forall req via, haproxyctl.checkRedirect cl req via = Some ErrUseLastResponse.
Proof.
  intros Hall Hnew. unfold haproxyctl.NewHAProxyConfig in Hnew.
  destruct (url_Parse (haproxyctl.endpoint_text proxyUrl)) as [e|endpoint];
    [discriminate Hnew|].
  destruct (haproxyctl.apply_opts opts _ h) as [[e|c1] h1] eqn:Erun;
    [discriminate Hnew|].
  destruct (apply_opts_provided h opts (initial_config endpoint) c1 h1 Hall
              eq_refl I Erun) as (-> & _ & Hdone & Hcl).
  destruct (setupClient_disables_redirects c1 h Hdone Hcl) as (p & cl & Hp & Hn & Hr).
  destruct (haproxyctl.setupClient c1 h) as [c2 h2].
  inversion Hnew; subst. exists p, cl. auto.
Qed.

Lemma setupClient_marks_done (c : Config) (h : Clients) :
  haproxyctl.setupdone (fst (haproxyctl.setupClient c h)) = true.
Proof.
  unfold haproxyctl.setupClient.
  destruct (haproxyctl.setupdone c) eqn:E; [exact E|].
  destruct (haproxyctl.client c);
    [|destruct (haproxyctl.heap_new h haproxyctl.http_Client_zero)]; reflexivity.
Qed.

Lemma setupClient_when_done (c : Config) (h : Clients) :
  haproxyctl.setupdone c = true -> haproxyctl.setupClient c h = (c, h).
Proof.
  intros E. unfold haproxyctl.setupClient. rewrite E. reflexivity.
Qed.

(** C7.  Transport setup is idempotent: [setupClient] leaves the config
    marked as set up, and a second call on the result changes neither
    the config nor any client. *)
Theorem C7_setupClient_idempotent :
  (forall (c : Config) (h : Clients),
      haproxyctl.setupdone (fst (haproxyctl.setupClient c h)) = true) /\
  (forall (c : Config) (h : Clients),
      haproxyctl.setupClient (fst (haproxyctl.setupClient c h))
        (snd (haproxyctl.setupClient c h)) = haproxyctl.setupClient c h).
Proof.
  split; intros c h.
  - apply setupClient_marks_done.
  - rewrite setupClient_when_done by apply setupClient_marks_done.
    destruct (haproxyctl.setupClient c h); reflexivity.
Qed.

Lemma heap_alter_other (f : haproxyctl.http_Client RoundTripper CookieJar Request ->
                            haproxyctl.http_Client RoundTripper CookieJar Request)
    (h : Clients) :
  forall p q, p <> q ->
    nth_error (haproxyctl.heap_alter f p h) q = nth_error h q.
Proof.
  induction h as [|x h IH]; intros [|p] [|q] Hne; cbn; try reflexivity;
    try congruence.
  apply IH. congruence.
Qed.

(** X3.  The first [setupClient] on a config with an injected client
    keeps that client in place and changes only its redirect check: its
    transport, cookie jar and timeout stay, and no other client is
    touched. *)
Theorem X3_setupClient_keeps_other_settings
    (c : Config) (h : Clients) (p : nat)
    (cl : haproxyctl.http_Client RoundTripper CookieJar Request) :
  haproxyctl.setupdone c = false ->
  haproxyctl.client c = Some p ->
  nth_error h p = Some cl ->
  haproxyctl.client (fst (haproxyctl.setupClient c h)) = Some p /\
  (exists cl',
      nth_error (snd (haproxyctl.setupClient c h)) p = Some cl' /\
      haproxyctl.Transport cl' = haproxyctl.Transport cl /\
      haproxyctl.Jar cl' = haproxyctl.Jar cl /\
      haproxyctl.Timeout cl' = haproxyctl.Timeout cl) /\
  (forall q, q <> p ->
      nth_error (snd (haproxyctl.setupClient c h)) q = nth_error h q).
Proof.
  intros Hdone Hcl Hp. unfold haproxyctl.setupClient. rewrite Hdone, Hcl.
  cbn [fst snd haproxyctl.client]. split; [reflexivity|]. split.
  - eexists. split; [apply (heap_alter_lookup _ h p cl Hp)|].
    cbn. auto.
  - intros q Hq. apply heap_alter_other. congruence.
Qed.

(** The stored URL is what [url.Parse] makes of the base URL with its
    trailing slashes replaced by one: the provided options leave it
    alone. *)
Lemma NewHAProxyConfig_stores_endpoint
    (proxyUrl : string) (opts : list Opt) (h h' : Clients) (c : Config) :
  Forall (haproxyctl.provided h) opts ->
  haproxyctl.NewHAProxyConfig url_Parse proxyUrl opts h = (inr c, h') ->
  url_Parse (haproxyctl.endpoint_text proxyUrl) = inr (haproxyctl.URL c).
Proof.
  intros Hall Hnew.
  unfold haproxyctl.NewHAProxyConfig in Hnew.
  destruct (url_Parse (haproxyctl.endpoint_text proxyUrl)) as [e|endpoint];
    [discriminate Hnew|].
  destruct (haproxyctl.apply_opts opts _ h) as [[e|c1] h1] eqn:Erun;
    [discriminate Hnew|].
  destruct (apply_opts_provided h opts (initial_config endpoint) c1 h1 Hall
              eq_refl I Erun) as (_ & Hurl & _ & _).
  unfold haproxyctl.setupClient in Hnew.
  destruct (haproxyctl.setupdone c1).
  - inversion Hnew; subst. cbn [haproxyctl.URL initial_config] in Hurl. congruence.
  - destruct (haproxyctl.client c1);
      [|destruct (haproxyctl.heap_new h1 haproxyctl.http_Client_zero)];
      inversion Hnew; subst; cbn [haproxyctl.URL initial_config] in *; congruence.
Qed.

End ConfigProperties.

(** *** The claims at concrete inputs *)

Lemma C5_options_in_order_first_error_aborts_witness :
  (exists c1 h1,
      runs [haproxyctl.WithStatsPath "csv"; haproxyctl.WithAuthString "nocolon";
            haproxyctl.WithAuthInfo "u" "p"]
        (initial_config "http://host/") [example_client] c1 h1 /\
      haproxyctl.NewHAProxyConfig keep_text "http://host"
        [haproxyctl.WithStatsPath "csv"; haproxyctl.WithAuthString "nocolon";
         haproxyctl.WithAuthInfo "u" "p"] [example_client] =
        (inr (fst (haproxyctl.setupClient c1 h1)), snd (haproxyctl.setupClient c1 h1))) \/
  (exists (pre : list (haproxyctl.ConfigOption string unit unit unit))
          (opt : haproxyctl.ConfigOption string unit unit unit)
          (post : list (haproxyctl.ConfigOption string unit unit unit))
          c1 h1 c2 h2 err,
      [haproxyctl.WithStatsPath "csv"; haproxyctl.WithAuthString "nocolon";
       haproxyctl.WithAuthInfo "u" "p"] = (pre ++ opt :: post)%list /\
      runs pre (initial_config "http://host/") [example_client] c1 h1 /\
      opt c1 h1 = (c2, h2, Some err) /\
      forall post' : list (haproxyctl.ConfigOption string unit unit unit),
        haproxyctl.NewHAProxyConfig keep_text "http://host" (pre ++ opt :: post')%list
          [example_client] = (inl err, h2)).
Proof.
  apply (C5_options_in_order_first_error_aborts keep_text "http://host" "http://host/").
  reflexivity.
Defined.

Lemma C6_redirects_never_followed_witness :
  exists (p : nat) (cl : haproxyctl.http_Client unit unit unit),
    haproxyctl.client
      (haproxyctl.mkConfig "http://host/" "csv" "" "" (Some 0%nat) true) = Some p /\
    nth_error
      [haproxyctl.mkClient (Some tt) (Some (fun _ _ => Some ErrUseLastResponse)) None 30]
      p = Some cl /\
    forall (req : unit) (via : list unit),
      haproxyctl.checkRedirect cl req via = Some ErrUseLastResponse.
Proof.
  apply (C6_redirects_never_followed keep_text "http://host"
           [haproxyctl.WithStatsPath "csv"; haproxyctl.WithHttpClient (Some 0%nat)]
           [example_client]).
  - repeat constructor.
  - reflexivity.
Defined.

Lemma X3_setupClient_keeps_other_settings_witness :
  haproxyctl.client
    (fst (haproxyctl.setupClient
            (haproxyctl.mkConfig "http://host/" "" "" "" (Some 0%nat) false)
            [example_client])) = Some 0%nat /\
  (exists cl',
      nth_error
        (snd (haproxyctl.setupClient
                (haproxyctl.mkConfig "http://host/" "" "" "" (Some 0%nat) false)
                [example_client])) 0 = Some cl' /\
      haproxyctl.Transport cl' = haproxyctl.Transport example_client /\
      haproxyctl.Jar cl' = haproxyctl.Jar example_client /\
      haproxyctl.Timeout cl' = haproxyctl.Timeout example_client) /\
  (forall q, q <> 0%nat ->
      nth_error
        (snd (haproxyctl.setupClient
                (haproxyctl.mkConfig "http://host/" "" "" "" (Some 0%nat) false)
                [example_client])) q = nth_error [example_client] q).
Proof.
  apply (X3_setupClient_keeps_other_settings
           (haproxyctl.mkConfig "http://host/" "" "" "" (Some 0%nat) false)
           [example_client] 0 example_client); reflexivity.
Defined.

(** ** The stored URL *)

(** *** Texts that end with one slash *)

Lemma one_trailing_slash_tail (a : ascii) (r : string) :
  one_trailing_slash (String a r) -> r <> "" -> one_trailing_slash r.
Proof.
  intros (b & Hb & He) Hr. destruct b as [|x b'].
  - cbn [append] in Hb. inversion Hb; subst. congruence.
  - cbn [append] in Hb. inversion Hb; subst. exists b'. split; [reflexivity|].
    cbn [ends_with_slash] in He. destruct b'; [reflexivity | exact He].
Qed.

Lemma one_trailing_slash_suffix (pre r : string) :
  one_trailing_slash (pre ++ r) -> r <> "" -> one_trailing_slash r.
Proof.
  induction pre as [|a pre IH]; cbn [append]; intros H Hr; [exact H|].
  apply IH; [|exact Hr]. apply (one_trailing_slash_tail a); [exact H|].
  destruct pre; [exact Hr | discriminate].
Qed.

Lemma one_trailing_slash_single (a : ascii) :
  one_trailing_slash (String a "") -> a = "/"%char.
Proof.
  intros (b & Hb & _). destruct b as [|x b']; cbn [append] in Hb.
  - inversion Hb. reflexivity.
  - inversion Hb as [[Ha Hn]]. destruct b'; discriminate.
Qed.

Lemma no_query_fragment_escape_app (a b : string) :
  no_query_fragment_escape (a ++ b)
  = no_query_fragment_escape a && no_query_fragment_escape b.
Proof.
  induction a as [|x a IH]; cbn [append no_query_fragment_escape]; [reflexivity|].
  rewrite IH. apply andb_assoc.
Qed.

(** *** The steps of [url.Parse] on a text without [?], [#] and [%] *)

Lemma Cut_absent (c : ascii) (s : string) :
  strings.contains_byte s c = false ->
  strings.Cut s (String c "") = (s, "", false).
Proof.
  induction s as [|a s IH]; cbn [strings.contains_byte strings.Cut strings.cut_prefix];
    intros H; [reflexivity|].
  apply orb_false_iff in H. destruct H as [Ha Hs].
  rewrite Ha. rewrite (IH Hs). reflexivity.
Qed.

Lemma Cut_present (c : ascii) (s : string) :
  strings.contains_byte s c = true ->
  exists before after,
    strings.Cut s (String c "") = (before, after, true) /\
    s = before ++ String c after.
Proof.
  induction s as [|a s IH]; cbn [strings.contains_byte strings.Cut strings.cut_prefix];
    intros H; [discriminate|].
  destruct (ascii_eqb c a) eqn:Eca.
  - exists "", s. split; [reflexivity|].
    unfold ascii_eqb in Eca. apply Ascii.eqb_eq in Eca. subst. reflexivity.
  - destruct (IH H) as (before & after & Hcut & Hs).
    exists (String a before), after. rewrite Hcut. split; [reflexivity|].
    cbn [append]. congruence.
Qed.

Lemma drop_length_app (a b : string) : strings.drop (String.length a) (a ++ b) = b.
Proof.
  induction a as [|x a IH]; cbn [String.length append strings.drop];
    [destruct b; reflexivity | exact IH].
Qed.

Lemma contains_byte_sym_special (c : ascii) :
  negb (strings.contains_byte "?#%" c) = true ->
  ascii_eqb c "?" = false /\ ascii_eqb c "#" = false /\ ascii_eqb c "%" = false.
Proof.
  cbn [strings.contains_byte]. intros H. apply negb_true_iff in H.
  apply orb_false_iff in H. destruct H as [H1 H].
  apply orb_false_iff in H. destruct H as [H2 H].
  apply orb_false_iff in H. destruct H as [H3 _]. auto.
Qed.

Lemma ascii_eqb_sym (a b : ascii) : ascii_eqb a b = ascii_eqb b a.
Proof. unfold ascii_eqb. apply Ascii.eqb_sym. Qed.

Lemma no_special_lacks (s : string) :
  no_query_fragment_escape s = true ->
  strings.contains_byte s "?" = false /\
  strings.contains_byte s "#" = false /\
  strings.CountByte s "?" = 0%nat.
Proof.
  induction s as [|a s IH];
    cbn [no_query_fragment_escape strings.contains_byte strings.CountByte];
    intros H; [auto|].
  apply andb_true_iff in H. destruct H as [Ha Hs].
  destruct (contains_byte_sym_special a Ha) as (Hq & Hh & _).
  destruct (IH Hs) as (H1 & H2 & H3).
  rewrite (ascii_eqb_sym "?" a), (ascii_eqb_sym "#" a), Hq, Hh, H1, H2, H3.
  auto.
Qed.

(** Without [%] the path is stored as it is written. *)
Lemma unescape_check_path (s : string) :
  forall n,
    no_query_fragment_escape s = true ->
    url.unescape_check url.encodePath n false s = inr (n, false).
Proof.
  induction s as [|a s IH]; cbn [no_query_fragment_escape url.unescape_check];
    intros n H; [reflexivity|].
  apply andb_true_iff in H. destruct H as [Ha Hs].
  destruct (contains_byte_sym_special a Ha) as (_ & _ & Hp).
  rewrite Hp. cbn [url.is_host_mode url.is_query_mode andb].
  destruct (ascii_eqb a "+"); apply IH, Hs.
Qed.

Lemma setPath_plain (u : url.URL) (p : string) :
  no_query_fragment_escape p = true ->
  exists raw,
    url.setPath u p =
      inr (url.mkURL (url.Scheme u) (url.Opaque u) (url.User u) (url.Host u) p raw
             (url.OmitHost u) (url.ForceQuery u) (url.RawQuery u)
             (url.Fragment u) (url.RawFragment u)).
Proof.
  intros H. unfold url.setPath, url.unescape.
  rewrite (unescape_check_path p 0 H). cbn [Nat.eqb negb andb].
  eexists. reflexivity.
Qed.

(** What [getScheme] leaves is the text itself or what follows a colon
    in it. *)
Lemma getScheme_from_rest (rawURL : string) (s : string) :
  forall first acc scheme rest,
    url.getScheme_from rawURL first acc s = inr (scheme, rest) ->
    rest = rawURL \/ exists pre, s = pre ++ String ":" rest.
Proof.
  induction s as [|c s IH]; cbn [url.getScheme_from]; intros first acc scheme rest H.
  - inversion H; auto.
  - destruct (url.isAlpha c).
    { destruct (IH _ _ _ _ H) as [Hr|(pre & Hp)]; [auto|].
      right. exists (String c pre). cbn [append]. congruence. }
    destruct (isDigit c || url.one_of c "+-.").
    { destruct first; [inversion H; auto|].
      destruct (IH _ _ _ _ H) as [Hr|(pre & Hp)]; [auto|].
      right. exists (String c pre). cbn [append]. congruence. }
    destruct (ascii_eqb c ":") eqn:Ec.
    { destruct first; [discriminate H|]. inversion H; subst.
      right. exists "". cbn [append].
      unfold ascii_eqb in Ec. apply Ascii.eqb_eq in Ec. subst. reflexivity. }
    inversion H; auto.
Qed.

Lemma getScheme_rest (text scheme rest : string) :
  one_trailing_slash text ->
  url.getScheme text = inr (scheme, rest) ->
  one_trailing_slash rest /\ exists pre, text = pre ++ rest.
Proof.
  intros Hone H. unfold url.getScheme in H.
  destruct (getScheme_from_rest text text _ _ _ _ H) as [->|(pre & Hp)].
  - split; [exact Hone | exists ""; reflexivity].
  - assert (Hsplit : text = (pre ++ ":") ++ rest)
      by (rewrite Hp at 1; rewrite append_assoc; reflexivity).
    split; [|exists (pre ++ ":"); exact Hsplit].
    assert (Hcolon : one_trailing_slash (String ":" rest)).
    { apply (one_trailing_slash_suffix pre); [rewrite <- Hp; exact Hone | discriminate]. }
    apply (one_trailing_slash_tail ":"); [exact Hcolon|].
    intros ->. apply one_trailing_slash_single in Hcolon. discriminate.
Qed.

Lemma one_trailing_slash_contains (s : string) :
  one_trailing_slash s -> strings.contains_byte s "/" = true.
Proof.
  intros (b & -> & _). induction b as [|x b IH]; cbn [append strings.contains_byte].
  - reflexivity.
  - rewrite IH. apply orb_true_r.
Qed.

(** The authority ends at the first slash, and the path starts there. *)
Lemma authority_split (s : string) :
  one_trailing_slash s ->
  exists authority rest,
    match strings.Index s "/" with
    | Some i => (strings.take i s, strings.drop i s)
    | None => (s, "")
    end = (authority, rest) /\
    rest <> "" /\ exists pre, s = pre ++ rest.
Proof.
  intros Hone.
  destruct (Cut_present "/" s (one_trailing_slash_contains s Hone))
    as (before & after & Hcut & Hs).
  unfold strings.Index. rewrite Hcut.
  eexists _, _. split; [reflexivity|].
  assert (Hd : strings.drop (String.length before) s = String "/" after)
    by (rewrite Hs; apply drop_length_app).
  rewrite Hd. split; [discriminate|]. exists before. exact Hs.
Qed.

Lemma HasPrefix_two_slashes (s : string) :
  strings.HasPrefix s "//" = true ->
  exists t, s = String "/" (String "/" t) /\ strings.drop 2 s = t.
Proof.
  unfold strings.HasPrefix. destruct s as [|a [|b t]]; cbn [strings.cut_prefix].
  - discriminate.
  - destruct (ascii_eqb "/" a); discriminate.
  - destruct (ascii_eqb "/" a) eqn:Ea; [|discriminate].
    destruct (ascii_eqb "/" b) eqn:Eb; [|discriminate].
    unfold ascii_eqb in *. apply Ascii.eqb_eq in Ea, Eb. subst.
    intros _. exists t. split; reflexivity.
Qed.

(** What [url.parse] stores for a text with one trailing slash and
    without [?] and [%]: no query, and the end of the text, slash
    included, as the path, or as the opaque part when the text has a
    scheme that no slash follows. *)
Lemma parse_last_part (text : string) (u : url.URL) :
  one_trailing_slash text ->
  no_query_fragment_escape text = true ->
  url.parse text = inr u ->
  stored_last_part text u.
Proof.
  intros Hone Hplain Hparse. unfold url.parse in Hparse.
  destruct (url.stringContainsCTLByte text); [discriminate Hparse|].
  destruct (String.eqb_spec text "*") as [->|_].
  { destruct Hone as (b & Hb & _). destruct b as [|x [|y b]]; discriminate. }
  destruct (url.getScheme text) as [e|[scheme0 rest0]] eqn:Escheme;
    [discriminate Hparse|].
  destruct (getScheme_rest text scheme0 rest0 Hone Escheme) as (Hrest & pre & Hpre).
  assert (Hplain0 : no_query_fragment_escape rest0 = true).
  { rewrite Hpre, no_query_fragment_escape_app in Hplain.
    apply andb_true_iff in Hplain. tauto. }
  destruct (no_special_lacks rest0 Hplain0) as (Hq & _ & Hcount).
  rewrite Hcount, andb_false_r, (Cut_absent "?" rest0 Hq) in Hparse.
  cbv beta iota in Hparse.
  set (scheme := strings.ToLowerASCII scheme0) in *.
  unfold stored_last_part.
  destruct (negb (strings.HasPrefix rest0 "/") && negb (String.eqb scheme "")).
  { inversion Hparse; subst u. cbn [url.RawQuery url.ForceQuery url.Fragment
                                    url.Opaque url.Path].
    repeat (split; [reflexivity|]). right.
    split; [reflexivity|]. split; [exact Hrest|]. exists pre. exact Hpre. }
  destruct (negb (strings.HasPrefix rest0 "/")
            && strings.Contains (fst (fst (strings.Cut rest0 "/"))) ":");
    [discriminate Hparse|].
  destruct ((negb (String.eqb scheme "") || negb (strings.HasPrefix rest0 "///"))
            && strings.HasPrefix rest0 "//") eqn:Eauth.
  - apply andb_true_iff in Eauth. destruct Eauth as [_ Htwo].
    destruct (HasPrefix_two_slashes rest0 Htwo) as (t & Ht & Hdrop).
    rewrite Hdrop in Hparse.
    assert (Hone_t : one_trailing_slash t).
    { subst rest0. apply (one_trailing_slash_tail "/").
      - apply (one_trailing_slash_tail "/"); [exact Hrest | discriminate].
      - intros ->. destruct Hrest as (b & Hb & He).
        destruct b as [|x [|y b]]; cbn [append] in Hb.
        + discriminate Hb.
        + inversion Hb; subst. discriminate He.
        + destruct b; discriminate Hb. }
    destruct (authority_split t Hone_t)
      as (authority & rest2 & Hsplit & Hne2 & pre2 & Hpre2).
    rewrite Hsplit in Hparse.
    destruct (url.parseAuthority authority) as [e|[user host]];
      [discriminate Hparse|].
    assert (Hplain2 : no_query_fragment_escape rest2 = true).
    { rewrite Ht in Hplain0. cbn [no_query_fragment_escape] in Hplain0.
      apply andb_true_iff in Hplain0. destruct Hplain0 as [_ Hp].
      apply andb_true_iff in Hp. destruct Hp as [_ Hp].
      rewrite Hpre2, no_query_fragment_escape_app in Hp.
      apply andb_true_iff in Hp. tauto. }
    destruct (setPath_plain
                (url.mkURL scheme "" user host "" "" false false "" "" "")
                rest2 Hplain2) as (raw & Hset).
    rewrite Hset in Hparse. inversion Hparse; subst u.
    cbn [url.RawQuery url.ForceQuery url.Fragment url.Opaque url.Path].
    repeat (split; [reflexivity|]). left. split; [reflexivity|]. split.
    + apply (one_trailing_slash_suffix pre2); [rewrite <- Hpre2; exact Hone_t | exact Hne2].
    + exists (pre ++ "//" ++ pre2). rewrite Hpre, Ht, Hpre2 at 1.
      rewrite !append_assoc. reflexivity.
  - destruct (negb (String.eqb scheme "") && strings.HasPrefix rest0 "/").
    + destruct (setPath_plain
                  (url.mkURL scheme "" None "" "" "" true false "" "" "")
                  rest0 Hplain0) as (raw & Hset).
      rewrite Hset in Hparse. inversion Hparse; subst u.
      cbn [url.RawQuery url.ForceQuery url.Fragment url.Opaque url.Path].
      repeat (split; [reflexivity|]). left.
      split; [reflexivity|]. split; [exact Hrest|]. exists pre. exact Hpre.
    + destruct (setPath_plain
                  (url.mkURL scheme "" None "" "" "" false false "" "" "")
                  rest0 Hplain0) as (raw & Hset).
      rewrite Hset in Hparse. inversion Hparse; subst u.
      cbn [url.RawQuery url.ForceQuery url.Fragment url.Opaque url.Path].
      repeat (split; [reflexivity|]). left.
      split; [reflexivity|]. split; [exact Hrest|]. exists pre. exact Hpre.
Qed.

Lemma Parse_last_part (text : string) (u : url.URL) :
  one_trailing_slash text ->
  no_query_fragment_escape text = true ->
  url.Parse text = inr u ->
  stored_last_part text u.
Proof.
  intros Hone Hplain Hparse. unfold url.Parse in Hparse.
  destruct (no_special_lacks text Hplain) as (_ & Hh & _).
  rewrite (Cut_absent "#" text Hh) in Hparse.
  destruct (url.parse text) as [e|u0] eqn:E; [discriminate Hparse|].
  cbn [String.eqb] in Hparse. inversion Hparse; subst u0.
  exact (parse_last_part text u Hone Hplain E).
Qed.

Lemma endpoint_text_plain (proxyUrl : string) :
  no_query_fragment_escape proxyUrl = true ->
  one_trailing_slash (haproxyctl.endpoint_text proxyUrl) /\
  no_query_fragment_escape (haproxyctl.endpoint_text proxyUrl) = true.
Proof.
  intros Hplain.
  destruct (endpoint_text_one_slash proxyUrl) as (base & n & Hp & He & Ht).
  rewrite Ht. split; [exists base; auto|].
  rewrite Hp, no_query_fragment_escape_app in Hplain.
  apply andb_true_iff in Hplain. destruct Hplain as [Hb _].
  rewrite no_query_fragment_escape_app, Hb. reflexivity.
Qed.

(** *** Claim C8 *)

Section StoredURL.

Context {RoundTripper CookieJar Request : Type}.

(** C8 (as amended).  For every base URL string without [?], [#] and
    [%] that [NewHAProxyConfig] accepts, with the provided options, the
    stored URL, which is what [url.Parse] makes of the base URL with
    its trailing slashes replaced by one, has no query and no fragment,
    and its last part is the end of that text and ends with exactly one
    slash: its [Path], or its [Opaque] part when the text has a scheme
    that no slash follows.  The base URL http://host:8080/stats, with
    or without trailing slashes, is stored with the scheme http, the
    host host:8080 and the path /stats/, and the stats path csv next
    to it. *)
Theorem C8_stored_url_ends_with_one_slash :
  (forall (proxyUrl : string)
          (opts : list (haproxyctl.ConfigOption url.URL RoundTripper CookieJar Request))
          (h h' : haproxyctl.Heap RoundTripper CookieJar Request)
          (c : haproxyctl.HAProxyConfig url.URL),
      no_query_fragment_escape proxyUrl = true ->
      Forall (haproxyctl.provided h) opts ->
      haproxyctl.NewHAProxyConfig url.Parse proxyUrl opts h = (inr c, h') ->
      stored_last_part (haproxyctl.endpoint_text proxyUrl) (haproxyctl.URL c)) /\
  haproxyctl.NewHAProxyConfig (RoundTripper := RoundTripper)
      (CookieJar := CookieJar) (Request := Request)
      url.Parse "http://host:8080/stats" [haproxyctl.WithStatsPath "csv"] []
    = (inr (haproxyctl.mkConfig
              (url.mkURL "http" "" None "host:8080" "/stats/" "" false false "" "" "")
              "csv" "" "" (Some 0%nat) true),
       [haproxyctl.mkClient None (Some (fun _ _ => Some ErrUseLastResponse)) None 0]) /\
  haproxyctl.NewHAProxyConfig (RoundTripper := RoundTripper)
      (CookieJar := CookieJar) (Request := Request)
      url.Parse "http://host:8080/stats///" [haproxyctl.WithStatsPath "csv"] []
    = haproxyctl.NewHAProxyConfig
        url.Parse "http://host:8080/stats" [haproxyctl.WithStatsPath "csv"] [].
Proof.
  split; [|split; reflexivity].
  intros proxyUrl opts h h' c Hplain Hall Hnew.
  destruct (endpoint_text_plain proxyUrl Hplain) as [Hone Hplain'].
  apply (Parse_last_part _ _ Hone Hplain').
  exact (NewHAProxyConfig_stores_endpoint url.Parse proxyUrl opts h h' c Hall Hnew).
Qed.

End StoredURL.

Lemma C8_stored_url_ends_with_one_slash_witness :
  stored_last_part (haproxyctl.endpoint_text "http://host:8080/stats//")
    (haproxyctl.URL
       (haproxyctl.mkConfig
          (url.mkURL "http" "" None "host:8080" "/stats/" "" false false "" "" "")
          "csv" "" "" (Some 1%nat) true)).
Proof.
  apply (proj1 C8_stored_url_ends_with_one_slash
           "http://host:8080/stats//"
           [haproxyctl.WithStatsPath "csv"]
           [example_client]
           [example_client;
            haproxyctl.mkClient None (Some (fun _ _ => Some ErrUseLastResponse)) None 0]).
  - reflexivity.
  - repeat constructor.
  - reflexivity.
Defined.

(** C8 as stated fails: the base URL http://host:8080/stats?x=1 is
    accepted, and the slash that [NewHAProxyConfig] appends lands in
    the query, so the stored path is /stats, without a trailing slash;
    the base URL http://host/a%2F is accepted, and its stored path
    /a// ends with two slashes. *)
Lemma C8_counterexample :
  (exists c h',
      haproxyctl.NewHAProxyConfig (RoundTripper := unit) (CookieJar := unit)
        (Request := unit) url.Parse "http://host:8080/stats?x=1" [] [] = (inr c, h') /\
      url.Path (haproxyctl.URL c) = "/stats" /\
      url.RawQuery (haproxyctl.URL c) = "x=1/" /\
      ends_with_slash (url.Path (haproxyctl.URL c)) = false) /\
  (exists c h',
      haproxyctl.NewHAProxyConfig (RoundTripper := unit) (CookieJar := unit)
        (Request := unit) url.Parse "http://host/a%2F" [] [] = (inr c, h') /\
      url.Path (haproxyctl.URL c) = "/a//" /\
      url.RawPath (haproxyctl.URL c) = "/a%2F/").
Proof.
  split; eexists _, _; (split; [reflexivity|]); repeat split.
Qed.

(** ** Further properties of the code *)

(** *** Cells with a sign or a unit *)

Lemma leadingInt_from_digits_le (s r : string) :
  forall x,
    all_digits s = true ->
    match r with EmptyString => True | String c _ => isDigit c = false end ->
    0 <= x ->
    value_from x s <= 2 ^ 63 ->
    time.leadingInt_from x (s ++ r) = Some (value_from x s, r).
Proof.
  induction s as [|c s IH]; cbn [append value_from all_digits time.leadingInt_from];
    intros x Hd Hr Hx Hv.
  - destruct r as [|c r]; cbn [time.leadingInt_from]; [reflexivity|].
    rewrite Hr. reflexivity.
  - apply andb_true_iff in Hd. destruct Hd as [Hc Hs].
    pose proof (isDigit_byte c Hc) as Hb.
    pose proof (value_from_le s (x * 10 + (byte c - 48)) ltac:(lia) Hs) as Hle.
    rewrite Hc. cbn [negb].
    change (2 ^ 63 / 10) with 922337203685477580 in *.
    change (2 ^ 63) with 9223372036854775808 in *.
    destruct (Z.gtb_spec x 922337203685477580) as [E1|E1]; [lia|].
    replace (x * 10 + byte c - 48) with (x * 10 + (byte c - 48)) by lia.
    rewrite u64_small by (change (2 ^ 64) with 18446744073709551616; lia).
    destruct (Z.gtb_spec (x * 10 + (byte c - 48)) 9223372036854775808) as [E2|E2];
      [lia|].
    apply IH; auto; lia.
Qed.

Lemma span_unit_plain (u : string) :
  plain_unit u = true -> time.span_unit u = (u, "").
Proof.
  induction u as [|c u IH]; cbn [plain_unit time.span_unit]; intros H;
    [reflexivity|].
  apply andb_true_iff in H. destruct H as [Hc Hu].
  apply negb_true_iff in Hc. rewrite Hc, (IH Hu). reflexivity.
Qed.

Lemma length_append (a b : string) :
  String.length (a ++ b) = (String.length a + String.length b)%nat.
Proof.
  induction a as [|c a IH]; cbn [append String.length Nat.add]; congruence.
Qed.

Lemma unitMap_range (u : string) (k : Z) :
  time.unitMap u = Some k -> 1 <= k <= 3600000000000.
Proof.
  unfold time.unitMap.
  repeat match goal with
         | |- context [if ?b then _ else _] => destruct b
         end;
    intros H; inversion H; subst; vm_compute; split; discriminate.
Qed.

(** One term made of digits and a unit. *)
Lemma parse_term_digits_unit (orig s u : string) (k : Z) :
  all_digits s = true -> s <> "" ->
  plain_unit u = true -> time.unitMap u = Some k ->
  time.parse_term orig (s ++ u) =
    if digits_value s >? 2 ^ 63 / k then inl (ErrInvalidDuration orig)
    else inr (digits_value s * k, "").
Proof.
  intros Hd Hne Hu Hk.
  pose proof (unitMap_range u k Hk) as Hrange.
  assert (Hune : u <> "") by (intros ->; discriminate Hk).
  destruct u as [|cu u']; [congruence|].
  pose proof Hu as Hu'. cbn [plain_unit] in Hu'. apply andb_true_iff in Hu'.
  destruct Hu' as [Hcu _]. apply negb_true_iff in Hcu.
  apply orb_false_iff in Hcu. destruct Hcu as [Hdot Hdig].
  destruct s as [|c s]; [congruence|].
  pose proof Hd as Hd'. cbn [all_digits] in Hd'. apply andb_true_iff in Hd'.
  destruct Hd' as [Hc Hs].
  assert (HV : 0 <= digits_value (String c s))
    by (apply (value_from_le (String c s) 0); [lia | exact Hd]).
  set (V := digits_value (String c s)) in *.
  assert (Hdiv : 2 ^ 63 / k <= 2 ^ 63)
    by (apply Z.div_le_upper_bound; [lia|];
        change (2 ^ 63) with 9223372036854775808; nia).
  unfold time.parse_term. cbn [append].
  rewrite Hc, orb_true_r. cbn [negb].
  change (String c (s ++ String cu u')) with (String c s ++ String cu u').
  unfold time.leadingInt.
  assert (Hlen : (String.length (String c s ++ String cu u')
                  =? String.length (String cu u'))%nat = false).
  { apply Nat.eqb_neq. rewrite length_append. cbn [String.length]. lia. }
  destruct (Z_le_gt_dec V (2 ^ 63)) as [Hsmall|Hbig].
  - rewrite (leadingInt_from_digits_le (String c s) (String cu u') 0 Hd Hdig
               ltac:(lia) Hsmall).
    fold (digits_value (String c s)). fold V.
    rewrite Hlen, Hdot. cbv beta iota. cbn [negb andb].
    rewrite (span_unit_plain _ Hu), Hk.
    destruct (Z.gtb_spec V (2 ^ 63 / k)) as [E|E]; [reflexivity|].
    change (0 >? 0) with false. cbv iota.
    rewrite u64_small; [reflexivity|].
    split; [nia|].
    assert (V * k <= 2 ^ 63).
    { pose proof (Z.mul_div_le (2 ^ 63) k ltac:(lia)). nia. }
    change (2 ^ 64) with 18446744073709551616.
    change (2 ^ 63) with 9223372036854775808 in *. lia.
  - assert (E : (V >? 2 ^ 63 / k) = true) by (apply Z.gtb_lt; lia).
    rewrite E.
    destruct (leadingInt_from_digits_any (String c s) (String cu u') 0 Hd Hdig
                ltac:(change (2 ^ 63) with 9223372036854775808; lia)) as [H|H];
      rewrite H; [reflexivity|].
    fold (digits_value (String c s)). fold V.
    rewrite Hlen, Hdot. cbv beta iota. cbn [negb andb].
    rewrite (span_unit_plain _ Hu), Hk, E. reflexivity.
Qed.

(** The loop of [ParseDuration] on digits and a unit. *)
Lemma parse_terms_digits_unit (orig s u : string) (k : Z) :
  all_digits s = true -> s <> "" ->
  plain_unit u = true -> time.unitMap u = Some k ->
  time.parse_terms (String.length (s ++ u)) orig 0 (s ++ u) =
    if digits_value s >? 2 ^ 63 / k then inl (ErrInvalidDuration orig)
    else inr (digits_value s * k).
Proof.
  intros Hd Hne Hu Hk.
  pose proof (parse_term_digits_unit orig s u k Hd Hne Hu Hk) as Hterm.
  pose proof (unitMap_range u k Hk) as Hrange.
  assert (HV : 0 <= digits_value s)
    by (apply (value_from_le s 0); [lia | exact Hd]).
  destruct s as [|c s]; [congruence|].
  set (V := digits_value (String c s)) in *.
  cbn [append String.length time.parse_terms] in *.
  rewrite Hterm.
  destruct (Z.gtb_spec V (2 ^ 63 / k)) as [E|E]; [reflexivity|].
  assert (V * k <= 2 ^ 63).
  { pose proof (Z.mul_div_le (2 ^ 63) k ltac:(lia)). nia. }
  rewrite Z.add_0_l.
  rewrite u64_small
    by (change (2 ^ 64) with 18446744073709551616;
        change (2 ^ 63) with 9223372036854775808 in *; nia).
  destruct (Z.gtb_spec (V * k) (2 ^ 63)) as [E1|_]; [lia|].
  apply parse_terms_nil.
Qed.

Lemma eqb_digits_unit_0 (s u : string) :
  s <> "" -> u <> "" -> String.eqb (s ++ u) "0" = false.
Proof.
  intros Hs Hu. destruct s as [|c s]; [congruence|]. cbn [append String.eqb].
  destruct (Ascii.eqb c "0"); [|reflexivity].
  destruct s; [destruct u; [congruence | reflexivity] | reflexivity].
Qed.

Lemma eqb_digits_unit_nil (s u : string) :
  s <> "" -> String.eqb (s ++ u) "" = false.
Proof. intros Hs. destruct s; [congruence | reflexivity]. Qed.

(** [ParseDuration] on digits and a unit, without a sign. *)
Lemma ParseDuration_digits_unit (s u : string) (k : Z) :
  all_digits s = true -> s <> "" ->
  plain_unit u = true -> time.unitMap u = Some k ->
  time.ParseDuration (s ++ u) =
    if digits_value s * k <=? 2 ^ 63 - 1 then (digits_value s * k, None)
    else (0, Some (ErrInvalidDuration (s ++ u))).
Proof.
  intros Hd Hne Hu Hk.
  pose proof (parse_terms_digits_unit (s ++ u) s u k Hd Hne Hu Hk) as Hterms.
  pose proof (unitMap_range u k Hk) as Hrange.
  assert (Hune : u <> "") by (intros ->; discriminate Hk).
  assert (HV : 0 <= digits_value s)
    by (apply (value_from_le s 0); [lia | exact Hd]).
  pose proof (eqb_digits_unit_0 s u Hne Hune) as H0.
  pose proof (eqb_digits_unit_nil s u Hne) as Hnil.
  unfold time.ParseDuration.
  destruct (s ++ u) as [|c0 t] eqn:Esu; [discriminate Hnil|].
  assert (Hc0 : isDigit c0 = true).
  { destruct s as [|c s]; [congruence|]. cbn [append] in Esu.
    inversion Esu; subst. cbn [all_digits] in Hd.
    apply andb_true_iff in Hd. tauto. }
  destruct (isDigit_not_sign c0 Hc0) as (Hm & Hp & _).
  rewrite Hm, Hp. cbn [orb]. rewrite H0, Hnil, Hterms.
  set (V := digits_value s) in *.
  pose proof (Z.mul_div_le (2 ^ 63) k ltac:(lia)) as Hmd.
  pose proof (Z.mul_succ_div_gt (2 ^ 63) k ltac:(lia)) as Hms.
  destruct (Z.gtb_spec V (2 ^ 63 / k)) as [E|E].
  - destruct (Z.leb_spec (V * k) (2 ^ 63 - 1)) as [E1|_]; [nia | reflexivity].
  - destruct (Z.gtb_spec (V * k) (2 ^ 63 - 1)) as [E1|E1];
      destruct (Z.leb_spec (V * k) (2 ^ 63 - 1)) as [E2|E2];
      try lia; [reflexivity|].
    rewrite i64_small by (change (2 ^ 63) with 9223372036854775808 in *; nia).
    reflexivity.
Qed.

(** [ParseDuration] on a sign, digits and a unit. *)
Lemma ParseDuration_signed_digits_unit (minus : bool) (s u : string) (k : Z) :
  all_digits s = true -> s <> "" ->
  plain_unit u = true -> time.unitMap u = Some k ->
  time.ParseDuration (String (if minus then "-" else "+")%char (s ++ u)) =
    if minus then
      if digits_value s * k <=? 2 ^ 63 then (- (digits_value s * k), None)
      else (0, Some (ErrInvalidDuration (String "-" (s ++ u))))
    else
      if digits_value s * k <=? 2 ^ 63 - 1 then (digits_value s * k, None)
      else (0, Some (ErrInvalidDuration (String "+" (s ++ u)))).
Proof.
  intros Hd Hne Hu Hk.
  pose proof (unitMap_range u k Hk) as Hrange.
  assert (Hune : u <> "") by (intros ->; discriminate Hk).
  assert (HV : 0 <= digits_value s)
    by (apply (value_from_le s 0); [lia | exact Hd]).
  pose proof (eqb_digits_unit_0 s u Hne Hune) as H0.
  pose proof (eqb_digits_unit_nil s u Hne) as Hnil.
  set (V := digits_value s) in *.
  pose proof (Z.mul_div_le (2 ^ 63) k ltac:(lia)) as Hmd.
  pose proof (Z.mul_succ_div_gt (2 ^ 63) k ltac:(lia)) as Hms.
  unfold time.ParseDuration.
  destruct minus.
  - change (ascii_eqb "-" "-" || ascii_eqb "-" "+") with true.
    change (ascii_eqb "-" "-") with true. cbv iota beta.
    rewrite H0, Hnil,
      (parse_terms_digits_unit (String "-" (s ++ u)) s u k Hd Hne Hu Hk).
    fold V.
    destruct (Z.gtb_spec V (2 ^ 63 / k)) as [E|E];
      destruct (Z.leb_spec (V * k) (2 ^ 63)) as [E1|E1]; try nia;
      [reflexivity|].
    change (2 ^ 63) with 9223372036854775808 in *.
    assert (Hcases : V * k = 9223372036854775808 \/ V * k < 9223372036854775808)
      by lia.
    destruct Hcases as [->|Hlt]; [reflexivity|].
    rewrite (i64_small (V * k))
      by (change (2 ^ 63) with 9223372036854775808; nia).
    rewrite i64_small by (change (2 ^ 63) with 9223372036854775808; nia).
    reflexivity.
  - change (ascii_eqb "+" "-" || ascii_eqb "+" "+") with true.
    change (ascii_eqb "+" "-") with false. cbv iota beta.
    rewrite H0, Hnil,
      (parse_terms_digits_unit (String "+" (s ++ u)) s u k Hd Hne Hu Hk).
    fold V.
    destruct (Z.gtb_spec V (2 ^ 63 / k)) as [E|E].
    + destruct (Z.leb_spec (V * k) (2 ^ 63 - 1)) as [E1|_]; [nia | reflexivity].
    + destruct (Z.gtb_spec (V * k) (2 ^ 63 - 1)) as [E1|E1];
        destruct (Z.leb_spec (V * k) (2 ^ 63 - 1)) as [E2|E2];
        try lia; [reflexivity|].
      rewrite i64_small by (change (2 ^ 63) with 9223372036854775808 in *; nia).
      reflexivity.
Qed.

Lemma plain_unit_app (a b : string) :
  plain_unit (a ++ b) = plain_unit a && plain_unit b.
Proof.
  induction a as [|x a IH]; cbn [append plain_unit]; [reflexivity|].
  rewrite IH. apply andb_assoc.
Qed.

(** Digits followed by something that is no unit. *)
Lemma parse_term_digits_unknown (orig s u : string) :
  all_digits s = true -> s <> "" ->
  plain_unit u = true -> u <> "" -> time.unitMap u = None ->
  exists e, time.parse_term orig (s ++ u) = inl e.
Proof.
  intros Hd Hne Hu Hune Hk.
  destruct u as [|cu u']; [congruence|].
  pose proof Hu as Hu'. cbn [plain_unit] in Hu'. apply andb_true_iff in Hu'.
  destruct Hu' as [Hcu _]. apply negb_true_iff in Hcu.
  apply orb_false_iff in Hcu. destruct Hcu as [Hdot Hdig].
  destruct s as [|c s]; [congruence|].
  pose proof Hd as Hd'. cbn [all_digits] in Hd'. apply andb_true_iff in Hd'.
  destruct Hd' as [Hc Hs].
  unfold time.parse_term. cbn [append].
  rewrite Hc, orb_true_r. cbn [negb].
  change (String c (s ++ String cu u')) with (String c s ++ String cu u').
  unfold time.leadingInt.
  assert (Hlen : (String.length (String c s ++ String cu u')
                  =? String.length (String cu u'))%nat = false).
  { apply Nat.eqb_neq. rewrite length_append. cbn [String.length]. lia. }
  destruct (leadingInt_from_digits_any (String c s) (String cu u') 0 Hd Hdig
              ltac:(change (2 ^ 63) with 9223372036854775808; lia)) as [H|H];
    rewrite H; [eexists; reflexivity|].
  rewrite Hlen, Hdot. cbv beta iota. cbn [negb andb].
  rewrite (span_unit_plain _ Hu), Hk. eexists. reflexivity.
Qed.

(** X4.  A cell of digits followed by bytes that are neither digits nor
    points decodes exactly when those bytes, with the s that
    [UnmarshalCSV] appends, spell a unit of [time.ParseDuration]: the
    digits then count that unit (5m is five milliseconds, 5u five
    microseconds, 5n five nanoseconds), and the cell is an error when
    the count does not fit an int64 of nanoseconds.  With any other
    suffix (5h, 5x) the cell is an error. *)
Theorem X4_cell_with_unit_suffix (date : haproxyctl.Duration) (s p : string) :
  all_digits s = true -> s <> "" -> plain_unit p = true ->
  match time.unitMap (p ++ "s") with
  | Some k =>
      haproxyctl.Duration_UnmarshalCSV date (s ++ p) =
        if digits_value s * k <=? 2 ^ 63 - 1
        then (haproxyctl.mkDuration (digits_value s * k), None)
        else (haproxyctl.mkDuration 0,
              Some (ErrInvalidDuration ((s ++ p) ++ "s")))
  | None =>
      exists e,
        haproxyctl.Duration_UnmarshalCSV date (s ++ p) =
          (haproxyctl.mkDuration 0, Some e)
  end.
Proof.
  intros Hd Hne Hp.
  assert (Hu : plain_unit (p ++ "s") = true)
    by (rewrite plain_unit_app, Hp; reflexivity).
  assert (Hune : p ++ "s" <> "") by (destruct p; discriminate).
  unfold haproxyctl.Duration_UnmarshalCSV.
  rewrite (eqb_digits_unit_nil s p Hne), append_assoc.
  destruct (time.unitMap (p ++ "s")) as [k|] eqn:Hk.
  - rewrite (ParseDuration_digits_unit s (p ++ "s") k Hd Hne Hu Hk).
    destruct (digits_value s * k <=? 2 ^ 63 - 1); reflexivity.
  - destruct (parse_term_digits_unknown (s ++ p ++ "s") s (p ++ "s")
                Hd Hne Hu Hune Hk) as [e He].
    exists e. unfold time.ParseDuration.
    pose proof (eqb_digits_unit_0 s (p ++ "s") Hne Hune) as H0.
    pose proof (eqb_digits_unit_nil s (p ++ "s") Hne) as Hnil.
    destruct (s ++ p ++ "s") as [|c0 t] eqn:Esu; [discriminate Hnil|].
    assert (Hc0 : isDigit c0 = true).
    { destruct s as [|c s]; [congruence|]. cbn [append] in Esu.
      inversion Esu; subst. cbn [all_digits] in Hd.
      apply andb_true_iff in Hd. tauto. }
    destruct (isDigit_not_sign c0 Hc0) as (Hm & Hq & _).
    rewrite Hm, Hq. cbn [orb]. rewrite H0, Hnil.
    cbn [String.length time.parse_terms]. rewrite He. reflexivity.
Qed.

Lemma X4_cell_with_unit_suffix_witness :
  haproxyctl.Duration_UnmarshalCSV (haproxyctl.mkDuration 0) ("15" ++ "m") =
    (if digits_value "15" * time.Millisecond <=? 2 ^ 63 - 1
     then (haproxyctl.mkDuration (digits_value "15" * time.Millisecond), None)
     else (haproxyctl.mkDuration 0,
           Some (ErrInvalidDuration (("15" ++ "m") ++ "s")))).
Proof.
  apply (X4_cell_with_unit_suffix (haproxyctl.mkDuration 0) "15" "m");
    [reflexivity | discriminate | reflexivity].
Defined.

Lemma UnmarshalCSV_signed_digits (date : haproxyctl.Duration) (minus : bool)
    (s : string) :
  all_digits s = true -> s <> "" ->
  haproxyctl.Duration_UnmarshalCSV date
    (String (if minus then "-" else "+")%char s) =
    if digits_value s <=? 9223372036
    then (haproxyctl.mkDuration
            ((if minus then -1 else 1) * (digits_value s * time.Second)), None)
    else (haproxyctl.mkDuration 0,
          Some (ErrInvalidDuration
                  (String (if minus then "-" else "+")%char (s ++ "s")))).
Proof.
  intros Hd Hne.
  assert (HV : 0 <= digits_value s)
    by (apply (value_from_le s 0); [lia | exact Hd]).
  unfold haproxyctl.Duration_UnmarshalCSV.
  cbn [String.eqb append].
  rewrite (ParseDuration_signed_digits_unit minus s "s" time.Second Hd Hne
             eq_refl eq_refl).
  change time.Second with 1000000000.
  change (2 ^ 63) with 9223372036854775808.
  destruct minus.
  - destruct (Z.leb_spec (digits_value s * 1000000000) 9223372036854775808);
      destruct (Z.leb_spec (digits_value s) 9223372036); try lia;
      [|reflexivity].
    replace (-1 * (digits_value s * 1000000000))
      with (- (digits_value s * 1000000000)) by lia.
    reflexivity.
  - destruct (Z.leb_spec (digits_value s * 1000000000) (9223372036854775808 - 1));
      destruct (Z.leb_spec (digits_value s) 9223372036); try lia;
      [|reflexivity].
    rewrite Z.mul_1_l. reflexivity.
Qed.

(** X5.  A cell of a sign and digits decodes as whole seconds with that
    sign: with a minus sign to minus the value while the value is at
    most 9223372036, with a plus sign like the digits alone; a larger
    value is a decode error. *)
Theorem X5_signed_cell (date : haproxyctl.Duration) (minus : bool) (s : string) :
  all_digits s = true -> s <> "" ->
  haproxyctl.Duration_UnmarshalCSV date
    (String (if minus then "-" else "+")%char s) =
    if digits_value s <=? 9223372036
    then (haproxyctl.mkDuration
            ((if minus then -1 else 1) * (digits_value s * time.Second)), None)
    else (haproxyctl.mkDuration 0,
          Some (ErrInvalidDuration
                  (String (if minus then "-" else "+")%char (s ++ "s")))).
Proof. exact (UnmarshalCSV_signed_digits date minus s). Qed.

Lemma X5_signed_cell_witness :
  haproxyctl.Duration_UnmarshalCSV (haproxyctl.mkDuration 0) "-90" =
    (haproxyctl.mkDuration (-90000000000), None).
Proof.
  apply (X5_signed_cell (haproxyctl.mkDuration 0) true "90");
    [reflexivity | discriminate].
Defined.

(** *** Cells without a digit *)

Lemma no_digit_app (a b : string) : no_digit (a ++ b) = no_digit a && no_digit b.
Proof.
  induction a as [|x a IH]; cbn [append no_digit]; [reflexivity|].
  rewrite IH. apply andb_assoc.
Qed.

Lemma parse_term_no_digit (orig s : string) :
  s <> "" -> no_digit s = true ->
  time.parse_term orig s = inl (ErrInvalidDuration orig).
Proof.
  intros Hne Hnd. destruct s as [|c t]; [congruence|].
  cbn [no_digit] in Hnd. apply andb_true_iff in Hnd. destruct Hnd as [Hc Ht].
  apply negb_true_iff in Hc.
  unfold time.parse_term. rewrite Hc, orb_false_r.
  unfold ascii_eqb. destruct (Ascii.eqb_spec c ".") as [->|_]; [|reflexivity].
  cbn [negb]. unfold time.leadingInt. cbn [time.leadingInt_from].
  change (isDigit ".") with false. cbn [negb].
  rewrite Nat.eqb_refl. change (ascii_eqb "." ".") with true. cbv iota.
  unfold time.leadingFraction.
  assert (Hfrac : time.leadingFraction_from 0 (f64_of_uint64 1) false t
                  = (0, f64_of_uint64 1, t)).
  { destruct t as [|c1 t1]; [reflexivity|]. cbn [no_digit] in Ht.
    apply andb_true_iff in Ht. destruct Ht as [Hc1 _].
    cbn [time.leadingFraction_from]. rewrite Hc1. reflexivity. }
  rewrite Hfrac. rewrite Nat.eqb_refl. reflexivity.
Qed.

(** X6.  A non-empty cell without any digit is a decode error, whatever
    else it holds (letters, signs, points). *)
Theorem X6_cell_without_digit (date : haproxyctl.Duration) (csv : string) :
  csv <> "" -> no_digit csv = true ->
  haproxyctl.Duration_UnmarshalCSV date csv =
    (haproxyctl.mkDuration 0, Some (ErrInvalidDuration (csv ++ "s"))).
Proof.
  intros Hne Hnd. unfold haproxyctl.Duration_UnmarshalCSV.
  destruct (String.eqb_spec csv "") as [->|_]; [congruence|].
  assert (Hnds : no_digit (csv ++ "s") = true)
    by (rewrite no_digit_app, Hnd; reflexivity).
  assert (Hbody : forall body,
             body <> "" -> no_digit body = true ->
             String.eqb body "0" = false /\ String.eqb body "" = false /\
             time.parse_terms (String.length body) (csv ++ "s") 0 body
               = inl (ErrInvalidDuration (csv ++ "s"))).
  { intros body Hb Hbn.
    pose proof (parse_term_no_digit (csv ++ "s") body Hb Hbn) as Hterm.
    destruct body as [|b t]; [congruence|].
    cbn [no_digit] in Hbn. apply andb_true_iff in Hbn. destruct Hbn as [Hbd _].
    apply negb_true_iff in Hbd.
    cbn [String.eqb String.length time.parse_terms].
    rewrite (not_digit_not_0 b Hbd), Hterm. auto. }
  unfold time.ParseDuration.
  destruct csv as [|c rest]; [congruence|]. cbn [append] in *.
  destruct (ascii_eqb c "-" || ascii_eqb c "+") eqn:Esign.
  - cbn [no_digit] in Hnds. apply andb_true_iff in Hnds.
    destruct (Hbody (rest ++ "s")) as (H0 & Hnil & Hp);
      [destruct rest; discriminate | tauto|].
    rewrite H0, Hnil, Hp. reflexivity.
  - destruct (Hbody (String c (rest ++ "s"))) as (H0 & Hnil & Hp);
      [discriminate | exact Hnds|].
    rewrite H0, Hnil, Hp. reflexivity.
Qed.

Lemma X6_cell_without_digit_witness :
  haproxyctl.Duration_UnmarshalCSV (haproxyctl.mkDuration 5) "-.h" =
    (haproxyctl.mkDuration 0, Some (ErrInvalidDuration ("-.h" ++ "s"))).
Proof.
  apply (X6_cell_without_digit (haproxyctl.mkDuration 5) "-.h");
    [discriminate | reflexivity].
Defined.

(** *** Rendering and re-encoding *)

Lemma fmtInt_loop_zero (fuel : nat) (buf : string) :
  time.fmtInt_loop fuel buf 0 = buf.
Proof. destruct fuel; reflexivity. Qed.

Lemma fmtInt_loop_formatBits (fuel : nat) :
  forall v buf, 0 < v ->
    time.fmtInt_loop (S fuel) buf v = strconv.formatBits (S fuel) buf v.
Proof.
  induction fuel as [|fuel IH]; intros v buf Hv.
  - cbn [time.fmtInt_loop strconv.formatBits].
    destruct (Z.gtb_spec v 0) as [_|E]; [|lia].
    destruct (v / 10 =? 0); reflexivity.
  - remember (S fuel) as f eqn:Hf.
    cbn [time.fmtInt_loop strconv.formatBits].
    destruct (Z.gtb_spec v 0) as [_|E]; [|lia].
    destruct (Z.eqb_spec (v / 10) 0) as [E|E].
    + rewrite E. apply fmtInt_loop_zero.
    + subst f. apply IH.
      pose proof (Z.div_pos v 10 ltac:(lia) ltac:(lia)). lia.
Qed.

Lemma formatBits_buf (fuel : nat) :
  forall u buf,
    strconv.formatBits fuel buf u = strconv.formatBits fuel "" u ++ buf.
Proof.
  induction fuel as [|fuel IH]; intros u buf; cbn [strconv.formatBits];
    [reflexivity|].
  destruct (u / 10 =? 0); [reflexivity|].
  rewrite (IH (u / 10) (String _ buf)), (IH (u / 10) (String _ "")).
  rewrite append_cons_assoc. reflexivity.
Qed.

(** [fmtInt] writes in front of the buffer what [FormatInt] prints. *)
Lemma fmtInt_FormatInt (buf : string) (v : Z) :
  0 <= v < 2 ^ 63 -> time.fmtInt buf v = strconv.FormatInt v ++ buf.
Proof.
  intros Hv. unfold time.fmtInt, strconv.FormatInt.
  destruct (Z.ltb_spec v 0) as [E|_]; [lia|].
  rewrite u64_small
    by (change (2 ^ 64) with 18446744073709551616;
        change (2 ^ 63) with 9223372036854775808 in Hv; lia).
  destruct (Z.eqb_spec v 0) as [->|E]; [reflexivity|].
  rewrite fmtInt_loop_formatBits by lia. apply formatBits_buf.
Qed.

Lemma fmtFrac_loop_multiple (prec : nat) :
  forall buf v,
    time.fmtFrac_loop prec buf (v * 10 ^ Z.of_nat prec) false = (buf, v, false).
Proof.
  induction prec as [|prec IH]; intros buf v.
  - cbn [time.fmtFrac_loop]. change (10 ^ Z.of_nat 0) with 1.
    rewrite Z.mul_1_r. reflexivity.
  - cbn [time.fmtFrac_loop].
    rewrite Nat2Z.inj_succ, Z.pow_succ_r by lia.
    replace (v * (10 * 10 ^ Z.of_nat prec)) with (v * 10 ^ Z.of_nat prec * 10) by lia.
    rewrite Z.mod_mul, Z.div_mul by lia.
    cbn [Z.eqb negb orb]. apply IH.
Qed.

(** The rendering of whole seconds. *)
Lemma Duration_String_seconds (v : Z) :
  0 <= v <= 9223372036 ->
  time.Duration_String (v * 1000000000) = hms v.
Proof.
  intros Hv. unfold time.Duration_String. cbv zeta.
  rewrite !(u64_small (v * 1000000000))
    by (change (2 ^ 64) with 18446744073709551616; lia).
  destruct (Z.ltb_spec (v * 1000000000) 0) as [E|_]; [lia|].
  change time.Second with 1000000000.
  destruct (Z.ltb_spec (v * 1000000000) 1000000000) as [E|E].
  - assert (v = 0) by lia. subst v. reflexivity.
  - unfold time.fmtFrac.
    change 1000000000 with (10 ^ Z.of_nat 9) at 1.
    rewrite fmtFrac_loop_multiple.
    pose proof (Z.mod_pos_bound v 60 ltac:(lia)) as Hm.
    pose proof (Z.div_pos v 60 ltac:(lia) ltac:(lia)) as Hq.
    pose proof (Z.div_le_upper_bound v 60 9223372036 ltac:(lia) ltac:(lia)) as Hq'.
    pose proof (Z.mod_pos_bound (v / 60) 60 ltac:(lia)) as Hm2.
    pose proof (Z.div_pos (v / 60) 60 ltac:(lia) ltac:(lia)) as Hh.
    pose proof (Z.div_le_upper_bound (v / 60) 60 9223372036 ltac:(lia) ltac:(lia))
      as Hh'.
    unfold hms.
    rewrite (fmtInt_FormatInt "s" (v mod 60))
      by (change (2 ^ 63) with 9223372036854775808; lia).
    destruct (Z.gtb_spec (v / 60) 0) as [Eq|Eq].
    2:{ replace (v / 60) with 0 by lia. reflexivity. }
    rewrite (fmtInt_FormatInt _ (v / 60 mod 60))
      by (change (2 ^ 63) with 9223372036854775808; lia).
    destruct (v / 60 / 60 >? 0).
    + rewrite (fmtInt_FormatInt _ (v / 60 / 60))
        by (change (2 ^ 63) with 9223372036854775808; lia).
      rewrite !append_cons_assoc. reflexivity.
    + rewrite !append_cons_assoc. reflexivity.
Qed.

(** X2.  A cell of whole seconds, once decoded, is rendered by [String]
    in hours, minutes and seconds: the hours and the minutes are left
    out while they are zero, the seconds are always written (3723 reads
    1h2m3s, 3600 reads 1h0m0s, 0 reads 0s). *)
Theorem X2_whole_seconds_rendered_as_hms (date : haproxyctl.Duration) (s : string) :
  all_digits s = true -> s <> "" -> digits_value s <= 9223372036 ->
  haproxyctl.Duration_String (fst (haproxyctl.Duration_UnmarshalCSV date s))
  = hms (digits_value s).
Proof.
  intros Hd Hne Hv.
  assert (H0 : 0 <= digits_value s)
    by (apply (value_from_le s 0); [lia | exact Hd]).
  rewrite (UnmarshalCSV_digits date s Hd Hne).
  destruct (Z.gtb_spec (digits_value s) 9223372036) as [E|_]; [lia|].
  cbn [fst]. unfold haproxyctl.Duration_String, haproxyctl.Nanoseconds.
  cbn [haproxyctl.time_Duration].
  rewrite i64_small by (change (2 ^ 63) with 9223372036854775808; lia).
  apply Duration_String_seconds. lia.
Qed.

Lemma X2_whole_seconds_rendered_as_hms_witness :
  haproxyctl.Duration_String
    (fst (haproxyctl.Duration_UnmarshalCSV (haproxyctl.mkDuration 0) "3723"))
  = "1h2m3s".
Proof.
  apply (X2_whole_seconds_rendered_as_hms (haproxyctl.mkDuration 0) "3723");
    [reflexivity | discriminate | vm_compute; discriminate].
Defined.

(** X7.  [UnmarshalCSV] does not read back what [MarshalCSV] writes:
    the nanoseconds written are read as seconds.  For a Duration of at
    most 9223372036 nanoseconds either way the result is a Duration a
    thousand million times as long, and for any longer Duration the
    written string is a decode error. *)
Theorem X7_marshal_then_unmarshal (date d : haproxyctl.Duration) :
  - 2 ^ 63 <= haproxyctl.time_Duration d < 2 ^ 63 ->
  haproxyctl.Duration_UnmarshalCSV date (fst (haproxyctl.Duration_MarshalCSV d)) =
    if Z.abs (haproxyctl.time_Duration d) <=? 9223372036
    then (haproxyctl.mkDuration (haproxyctl.time_Duration d * 1000000000), None)
    else (haproxyctl.mkDuration 0,
          Some (ErrInvalidDuration (fst (haproxyctl.Duration_MarshalCSV d) ++ "s"))).
Proof.
  destruct d as [ns]. cbn [haproxyctl.time_Duration]. intros Hns.
  unfold haproxyctl.Duration_MarshalCSV, haproxyctl.Nanoseconds.
  cbn [fst haproxyctl.time_Duration].
  rewrite i64_small by lia.
  destruct (Z_lt_ge_dec ns 0) as [Hneg|Hpos].
  - unfold strconv.FormatInt.
    destruct (Z.ltb_spec ns 0) as [_|E]; [|lia].
    change (2 ^ 63) with 9223372036854775808 in Hns.
    rewrite u64_small by (change (2 ^ 64) with 18446744073709551616; lia).
    destruct (formatBits_digits 19 (- ns) "") as (ds & Heq & Hall & Hne & Hval).
    { change (10 ^ Z.of_nat 20) with 100000000000000000000. lia. }
    rewrite Heq, append_nil_r.
    rewrite (UnmarshalCSV_signed_digits date true ds Hall Hne), Hval.
    cbn [append]. change time.Second with 1000000000.
    rewrite (Z.abs_neq ns) by lia.
    destruct (- ns <=? 9223372036); [|reflexivity].
    replace (-1 * (- ns * 1000000000)) with (ns * 1000000000) by lia.
    reflexivity.
  - destruct (FormatInt_digits ns ltac:(lia)) as (Hall & Hne & Hval).
    rewrite (UnmarshalCSV_digits date _ Hall Hne), Hval.
    rewrite (Z.abs_eq ns) by lia.
    destruct (Z.gtb_spec ns 9223372036) as [E|E];
      destruct (Z.leb_spec ns 9223372036) as [E1|E1]; try lia; reflexivity.
Qed.

Lemma X7_marshal_then_unmarshal_witness :
  haproxyctl.Duration_UnmarshalCSV (haproxyctl.mkDuration 0)
    (fst (haproxyctl.Duration_MarshalCSV (haproxyctl.mkDuration 5))) =
    (haproxyctl.mkDuration 5000000000, None).
Proof.
  apply (X7_marshal_then_unmarshal (haproxyctl.mkDuration 0) (haproxyctl.mkDuration 5)).
  vm_compute. split; [discriminate | reflexivity].
Defined.

(** *** Construction and the clients *)

Lemma trimRightByte_slashes (n : nat) : strings.trimRightByte (slashes n) "/" = "".
Proof.
  induction n as [|n IH]; cbn [slashes strings.trimRightByte]; [reflexivity|].
  rewrite IH. reflexivity.
Qed.

Lemma trimRightByte_app_slashes (s : string) (n : nat) :
  strings.trimRightByte (s ++ slashes n) "/" = strings.trimRightByte s "/".
Proof.
  induction s as [|a s IH]; cbn [append strings.trimRightByte].
  - apply trimRightByte_slashes.
  - rewrite IH. reflexivity.
Qed.

Lemma endpoint_text_app_slashes (proxyUrl : string) (n : nat) :
  haproxyctl.endpoint_text (proxyUrl ++ slashes n) = haproxyctl.endpoint_text proxyUrl.
Proof.
  unfold haproxyctl.endpoint_text.
  rewrite !TrimRight_slash, trimRightByte_app_slashes. reflexivity.
Qed.

Section ConfigMore.

Context {url_URL RoundTripper CookieJar Request : Type}.
Variable url_Parse : string -> error + url_URL.

Abbreviation Config := (haproxyctl.HAProxyConfig url_URL).
Abbreviation Clients := (haproxyctl.Heap RoundTripper CookieJar Request).
Abbreviation Opt := (haproxyctl.ConfigOption url_URL RoundTripper CookieJar Request).

(** X8.  The base URL is normalised before anything else: base URLs
    that differ only in their trailing slashes build the same config,
    and normalising twice changes nothing. *)
Theorem X8_trailing_slashes_do_not_matter :
  (forall proxyUrl n (opts : list Opt) (h : Clients),
      haproxyctl.NewHAProxyConfig url_Parse (proxyUrl ++ slashes n) opts h =
      haproxyctl.NewHAProxyConfig url_Parse proxyUrl opts h) /\
  (forall proxyUrl,
      haproxyctl.endpoint_text (haproxyctl.endpoint_text proxyUrl) =
      haproxyctl.endpoint_text proxyUrl).
Proof.
  split.
  - intros proxyUrl n opts h. unfold haproxyctl.NewHAProxyConfig.
    rewrite endpoint_text_app_slashes. reflexivity.
  - intros proxyUrl.
    destruct (endpoint_text_one_slash proxyUrl) as (base & n & Hu & _ & Ht).
    subst proxyUrl. rewrite endpoint_text_app_slashes in *.
    rewrite Ht. change (base ++ "/") with (base ++ slashes 1) at 1.
    rewrite endpoint_text_app_slashes. exact Ht.
Qed.

Lemma apply_opts_app (a b : list Opt) :
  forall (c : Config) (h : Clients),
    haproxyctl.apply_opts (a ++ b) c h =
      match haproxyctl.apply_opts a c h with
      | (inl err, h') => (inl err, h')
      | (inr c', h') => haproxyctl.apply_opts b c' h'
      end.
Proof.
  induction a as [|opt a IH]; intros c h; cbn [app haproxyctl.apply_opts];
    [reflexivity|].
  destruct (opt c h) as [[c1 h1] [err|]]; [reflexivity | apply IH].
Qed.

(** Two lists of options that act alike, in any context. *)
Lemma NewHAProxyConfig_congruence (proxyUrl : string) (pre mid mid' post : list Opt)
    (h : Clients) :
  (forall (c : Config) (h0 : Clients),
      haproxyctl.apply_opts mid c h0 = haproxyctl.apply_opts mid' c h0) ->
  haproxyctl.NewHAProxyConfig url_Parse proxyUrl (pre ++ mid ++ post) h =
  haproxyctl.NewHAProxyConfig url_Parse proxyUrl (pre ++ mid' ++ post) h.
Proof.
  intros Hmid. unfold haproxyctl.NewHAProxyConfig.
  destruct (url_Parse (haproxyctl.endpoint_text proxyUrl)) as [e|endpoint];
    [reflexivity|].
  rewrite !(apply_opts_app pre).
  destruct (haproxyctl.apply_opts pre _ h) as [[e|c1] h1]; [reflexivity|].
  rewrite !(apply_opts_app _ post), Hmid. reflexivity.
Qed.

(** X9.  How the provided options compose, anywhere in an option list:
    a later [WithStatsPath], [WithAuthInfo] or [WithHttpClient]
    overrides an earlier one of the same kind next to it, and two of
    these options of different kinds can be swapped. *)
Theorem X9_options_override_and_commute
    (proxyUrl : string) (pre post : list Opt) (h : Clients) :
  (forall a b,
      haproxyctl.NewHAProxyConfig url_Parse proxyUrl
        (pre ++ [haproxyctl.WithStatsPath a; haproxyctl.WithStatsPath b] ++ post) h =
      haproxyctl.NewHAProxyConfig url_Parse proxyUrl
        (pre ++ [haproxyctl.WithStatsPath b] ++ post) h) /\
  (forall u p u' p',
      haproxyctl.NewHAProxyConfig url_Parse proxyUrl
        (pre ++ [haproxyctl.WithAuthInfo u p; haproxyctl.WithAuthInfo u' p'] ++ post) h =
      haproxyctl.NewHAProxyConfig url_Parse proxyUrl
        (pre ++ [haproxyctl.WithAuthInfo u' p'] ++ post) h) /\
  (forall cl cl',
      haproxyctl.NewHAProxyConfig url_Parse proxyUrl
        (pre ++ [haproxyctl.WithHttpClient cl; haproxyctl.WithHttpClient cl'] ++ post) h =
      haproxyctl.NewHAProxyConfig url_Parse proxyUrl
        (pre ++ [haproxyctl.WithHttpClient cl'] ++ post) h) /\
  (forall a u p,
      haproxyctl.NewHAProxyConfig url_Parse proxyUrl
        (pre ++ [haproxyctl.WithStatsPath a; haproxyctl.WithAuthInfo u p] ++ post) h =
      haproxyctl.NewHAProxyConfig url_Parse proxyUrl
        (pre ++ [haproxyctl.WithAuthInfo u p; haproxyctl.WithStatsPath a] ++ post) h) /\
  (forall a cl,
      haproxyctl.NewHAProxyConfig url_Parse proxyUrl
        (pre ++ [haproxyctl.WithStatsPath a; haproxyctl.WithHttpClient cl] ++ post) h =
      haproxyctl.NewHAProxyConfig url_Parse proxyUrl
        (pre ++ [haproxyctl.WithHttpClient cl; haproxyctl.WithStatsPath a] ++ post) h) /\
  (forall u p cl,
      haproxyctl.NewHAProxyConfig url_Parse proxyUrl
        (pre ++ [haproxyctl.WithAuthInfo u p; haproxyctl.WithHttpClient cl] ++ post) h =
      haproxyctl.NewHAProxyConfig url_Parse proxyUrl
        (pre ++ [haproxyctl.WithHttpClient cl; haproxyctl.WithAuthInfo u p] ++ post) h).
Proof.
  repeat split; intros; apply NewHAProxyConfig_congruence; intros c h0; reflexivity.
Qed.

(** The provided options never touch the clients. *)
Lemma apply_opts_provided_clients (h : Clients) (opts : list Opt) :
  forall (c : Config),
    Forall (haproxyctl.provided h) opts ->
    haproxyctl.setupdone c = false ->
    match haproxyctl.client c with
    | None => True
    | Some p => (p < List.length h)%nat
    end ->
    snd (haproxyctl.apply_opts opts c h) = h.
Proof.
  induction opts as [|opt opts IH]; intros c Hall Hdone Hcl; [reflexivity|].
  inversion Hall as [|? ? Hopt Hrest]; subst.
  destruct (provided_keeps h opt c Hopt Hdone Hcl) as (c1 & err & Ho & _ & Hd1 & Hc1).
  cbn [haproxyctl.apply_opts]. rewrite Ho.
  destruct err as [e|]; [reflexivity|]. apply (IH c1 Hrest Hd1 Hc1).
Qed.

(** X10.  When construction from the provided options fails, because
    the base URL does not parse or an option returns an error, no
    client has been created or modified: an injected client is left as
    it was. *)
Theorem X10_failure_leaves_clients_alone
    (proxyUrl : string) (opts : list Opt) (h : Clients) (err : error) :
  Forall (haproxyctl.provided h) opts ->
  fst (haproxyctl.NewHAProxyConfig url_Parse proxyUrl opts h) = inl err ->
  snd (haproxyctl.NewHAProxyConfig url_Parse proxyUrl opts h) = h.
Proof.
  intros Hall. unfold haproxyctl.NewHAProxyConfig.
  destruct (url_Parse (haproxyctl.endpoint_text proxyUrl)) as [e|endpoint];
    [reflexivity|].
  pose proof (apply_opts_provided_clients h opts (initial_config endpoint) Hall
                eq_refl I) as Hh.
  unfold initial_config in Hh.
  destruct (haproxyctl.apply_opts opts _ h) as [[e|c1] h1].
  - intros _. exact Hh.
  - destruct (haproxyctl.setupClient c1 h1). discriminate.
Qed.

Lemma plain_keeps (opt : Opt) (c : Config) (h : Clients) :
  plain opt ->
  exists c' err,
    opt c h = (c', h, err) /\
    haproxyctl.client c' = haproxyctl.client c /\
    haproxyctl.setupdone c' = haproxyctl.setupdone c.
Proof.
  intros Hp. destruct Hp as [path|auth|user pass].
  - eexists _, _. split; [reflexivity|]. cbn. auto.
  - unfold haproxyctl.WithAuthString, haproxyctl.SetCredentialsFromAuthString.
    destruct (haproxyctl.split_colon auth) as [[user pass]|];
      eexists _, _; (split; [reflexivity|]); cbn; auto.
  - eexists _, _. split; [reflexivity|]. cbn. auto.
Qed.

Lemma apply_opts_plain (opts : list Opt) :
  forall (c c' : Config) (h h' : Clients),
    Forall plain opts ->
    haproxyctl.apply_opts opts c h = (inr c', h') ->
    h' = h /\ haproxyctl.client c' = haproxyctl.client c /\
    haproxyctl.setupdone c' = haproxyctl.setupdone c.
Proof.
  induction opts as [|opt opts IH]; intros c c' h h' Hall Hrun.
  - cbn in Hrun. inversion Hrun; subst. auto.
  - inversion Hall as [|? ? Hopt Hrest]; subst.
    destruct (plain_keeps opt c h Hopt) as (c1 & err & Ho & Hc1 & Hd1).
    cbn [haproxyctl.apply_opts] in Hrun. rewrite Ho in Hrun.
    destruct err as [e|]; [discriminate Hrun|].
    destruct (IH c1 c' h h' Hrest Hrun) as (-> & Hc & Hd).
    repeat split; congruence.
Qed.

Lemma heap_alter_length (f : haproxyctl.http_Client RoundTripper CookieJar Request ->
                             haproxyctl.http_Client RoundTripper CookieJar Request)
    (h : Clients) :
  forall p, List.length (haproxyctl.heap_alter f p h) = List.length h.
Proof.
  induction h as [|x h IH]; intros [|p]; cbn; auto.
Qed.

Lemma heap_alter_new (f : haproxyctl.http_Client RoundTripper CookieJar Request ->
                          haproxyctl.http_Client RoundTripper CookieJar Request)
    (h : Clients) cl :
  haproxyctl.heap_alter f (List.length h) (h ++ [cl])%list = (h ++ [f cl])%list.
Proof.
  induction h as [|x h IH]; cbn; [reflexivity|]. rewrite IH. reflexivity.
Qed.

(** What construction does once the options have run. *)
Lemma NewHAProxyConfig_after_options
    (proxyUrl : string) (opts : list Opt) (h h' : Clients) (c : Config) :
  haproxyctl.NewHAProxyConfig url_Parse proxyUrl opts h = (inr c, h') ->
  exists endpoint c1 h1,
    url_Parse (haproxyctl.endpoint_text proxyUrl) = inr endpoint /\
    haproxyctl.apply_opts opts (initial_config endpoint) h = (inr c1, h1) /\
    haproxyctl.setupClient c1 h1 = (c, h').
Proof.
  intros Hnew. unfold haproxyctl.NewHAProxyConfig in Hnew.
  destruct (url_Parse (haproxyctl.endpoint_text proxyUrl)) as [e|endpoint];
    [discriminate Hnew|].
  fold (initial_config endpoint) in Hnew.
  destruct (haproxyctl.apply_opts opts (initial_config endpoint) h)
    as [[e|c1] h1] eqn:Erun; [discriminate Hnew|].
  exists endpoint, c1, h1. split; [reflexivity|]. split; [exact Erun|].
  destruct (haproxyctl.setupClient c1 h1). inversion Hnew; reflexivity.
Qed.

(** X11.  Built from options that inject no client, or with a nil
    client injected last, the config gets a client of its own: a new
    zero-valued [http.Client] with only the redirect check set, added
    to the store without touching the clients that exist. *)
Theorem X11_fresh_client_when_none_injected
    (proxyUrl : string) (pre post : list Opt) (h h' : Clients) (c : Config) :
  Forall (haproxyctl.provided h) pre -> Forall plain post ->
  (haproxyctl.NewHAProxyConfig url_Parse proxyUrl post h = (inr c, h') \/
   haproxyctl.NewHAProxyConfig url_Parse proxyUrl
     (pre ++ haproxyctl.WithHttpClient None :: post) h = (inr c, h')) ->
  haproxyctl.client c = Some (List.length h) /\
  h' = (h ++ [with_policy haproxyctl.http_Client_zero])%list.
Proof.
  intros Hpre Hpost Hnew.
  assert (Hstate : exists c1,
             haproxyctl.setupClient c1 h = (c, h') /\
             haproxyctl.client c1 = None /\ haproxyctl.setupdone c1 = false).
  { destruct Hnew as [Hnew|Hnew];
      destruct (NewHAProxyConfig_after_options _ _ _ _ _ Hnew)
        as (endpoint & c1 & h1 & _ & Hrun & Hset).
    - destruct (apply_opts_plain post _ c1 h h1 Hpost Hrun) as (-> & Hc & Hd).
      exists c1. auto.
    - rewrite apply_opts_app in Hrun.
      destruct (haproxyctl.apply_opts pre (initial_config endpoint) h)
        as [[e|c0] h0] eqn:Epre; [discriminate Hrun|].
      destruct (apply_opts_provided h pre (initial_config endpoint) c0 h0 Hpre
                  eq_refl I Epre) as (-> & _ & Hd0 & _).
      cbn [haproxyctl.apply_opts haproxyctl.WithHttpClient] in Hrun.
      destruct (apply_opts_plain post _ c1 h h1 Hpost Hrun) as (-> & Hc & Hd).
      exists c1. cbn in Hc, Hd. split; [exact Hset|]. split; congruence. }
  destruct Hstate as (c1 & Hset & Hc1 & Hd1).
  unfold haproxyctl.setupClient in Hset. rewrite Hd1, Hc1 in Hset.
  unfold haproxyctl.heap_new in Hset. rewrite heap_alter_new in Hset.
  inversion Hset; subst. split; reflexivity.
Qed.

(** X12.  Built with a client injected last, the config uses that very
    client, in place: the store keeps its size, the redirect check of
    the injected client is overwritten with the one that answers
    [ErrUseLastResponse] (whatever it was), its other fields stay, and
    no other client is touched. *)
Theorem X12_injected_client_used_in_place
    (proxyUrl : string) (pre post : list Opt) (p : nat) (h h' : Clients) (c : Config) :
  Forall (haproxyctl.provided h) pre -> Forall plain post ->
  (p < List.length h)%nat ->
  haproxyctl.NewHAProxyConfig url_Parse proxyUrl
    (pre ++ haproxyctl.WithHttpClient (Some p) :: post) h = (inr c, h') ->
  haproxyctl.client c = Some p /\
  List.length h' = List.length h /\
  (exists cl, nth_error h p = Some cl /\ nth_error h' p = Some (with_policy cl)) /\
  (forall q, q <> p -> nth_error h' q = nth_error h q).
Proof.
  intros Hpre Hpost Hp Hnew.
  destruct (NewHAProxyConfig_after_options _ _ _ _ _ Hnew)
    as (endpoint & c1 & h1 & _ & Hrun & Hset).
  rewrite apply_opts_app in Hrun.
  destruct (haproxyctl.apply_opts pre (initial_config endpoint) h)
    as [[e|c0] h0] eqn:Epre; [discriminate Hrun|].
  destruct (apply_opts_provided h pre (initial_config endpoint) c0 h0 Hpre
              eq_refl I Epre) as (-> & _ & Hd0 & _).
  cbn [haproxyctl.apply_opts haproxyctl.WithHttpClient] in Hrun.
  destruct (apply_opts_plain post _ c1 h h1 Hpost Hrun) as (-> & Hc & Hd).
  cbn in Hc, Hd.
  unfold haproxyctl.setupClient in Hset. rewrite Hd, Hd0, Hc in Hset.
  inversion Hset; subst. cbn [haproxyctl.client].
  destruct (nth_error h p) as [cl|] eqn:E.
  2:{ apply nth_error_None in E. lia. }
  split; [reflexivity|]. split; [apply heap_alter_length|]. split.
  - exists cl. split; [reflexivity|]. apply (heap_alter_lookup _ h p cl E).
  - intros q Hq. apply heap_alter_other. congruence.
Qed.

(** X13.  The guard of [setupClient] is the flag of the config, not the
    client: on a config that is set up, a client put in afterwards with
    [WithHttpClient] is not given the redirect check by a further
    [setupClient], so a client without a check of its own follows
    redirects. *)
Theorem X13_setup_guard_ignores_new_client
    (c : Config) (h : Clients) (p : nat)
    (cl : haproxyctl.http_Client RoundTripper CookieJar Request) (req : Request) :
  haproxyctl.setupdone c = true ->
  nth_error h p = Some cl ->
  haproxyctl.CheckRedirect cl = None ->
  exists c1,
    haproxyctl.WithHttpClient (Some p) c h = (c1, h, None) /\
    haproxyctl.setupClient c1 h = (c1, h) /\
    haproxyctl.client c1 = Some p /\
    haproxyctl.checkRedirect cl req [] = None.
Proof.
  intros Hdone Hp Hcheck. eexists. split; [reflexivity|].
  split; [apply setupClient_when_done; exact Hdone|].
  split; [reflexivity|].
  unfold haproxyctl.checkRedirect. rewrite Hcheck. reflexivity.
Qed.

End ConfigMore.

(** *** Construction at concrete inputs *)

Lemma X10_failure_leaves_clients_alone_witness :
  snd (haproxyctl.NewHAProxyConfig keep_text "http://host"
         [haproxyctl.WithHttpClient (Some 0%nat); haproxyctl.WithAuthString "nocolon"]
         [example_client]) = [example_client].
Proof.
  apply (X10_failure_leaves_clients_alone keep_text "http://host"
           [haproxyctl.WithHttpClient (Some 0%nat); haproxyctl.WithAuthString "nocolon"]
           [example_client] (ErrOther "malformed auth string")).
  - repeat constructor.
  - reflexivity.
Defined.

Lemma X11_fresh_client_when_none_injected_witness :
  haproxyctl.client
    (haproxyctl.mkConfig "http://host/" "csv" "" "" (Some 1%nat) true)
    = Some (List.length [example_client]) /\
  [example_client; with_policy haproxyctl.http_Client_zero] =
    ([example_client] ++ [with_policy haproxyctl.http_Client_zero])%list.
Proof.
  apply (X11_fresh_client_when_none_injected keep_text "http://host"
           [haproxyctl.WithHttpClient (Some 0%nat)]
           [haproxyctl.WithStatsPath "csv"]
           [example_client]).
  - repeat constructor.
  - repeat constructor.
  - right. reflexivity.
Defined.

Lemma X12_injected_client_used_in_place_witness :
  haproxyctl.client
    (haproxyctl.mkConfig "http://host/" "csv" "" "" (Some 0%nat) true) = Some 0%nat /\
  List.length [with_policy example_client] = List.length [example_client] /\
  (exists cl,
      nth_error [example_client] 0 = Some cl /\
      nth_error [with_policy example_client] 0 = Some (with_policy cl)) /\
  (forall q, q <> 0%nat ->
      nth_error [with_policy example_client] q = nth_error [example_client] q).
Proof.
  apply (X12_injected_client_used_in_place keep_text "http://host"
           [haproxyctl.WithHttpClient None]
           [haproxyctl.WithStatsPath "csv"] 0 [example_client]).
  - repeat constructor.
  - repeat constructor.
  - cbn. lia.
  - reflexivity.
Defined.

Lemma X13_setup_guard_ignores_new_client_witness :
  exists c1,
    haproxyctl.WithHttpClient (Some 0%nat)
      (haproxyctl.mkConfig "http://host/" "" "" "" (Some 1%nat) true)
      [example_client; with_policy haproxyctl.http_Client_zero]
      = (c1, [example_client; with_policy haproxyctl.http_Client_zero], None) /\
    haproxyctl.setupClient c1 [example_client; with_policy haproxyctl.http_Client_zero]
      = (c1, [example_client; with_policy haproxyctl.http_Client_zero]) /\
    haproxyctl.client c1 = Some 0%nat /\
    haproxyctl.checkRedirect example_client tt [] = None.
Proof.
  apply (X13_setup_guard_ignores_new_client
           (haproxyctl.mkConfig "http://host/" "" "" "" (Some 1%nat) true)
           [example_client; with_policy haproxyctl.http_Client_zero]
           0 example_client tt); reflexivity.
Defined.

(** *** The columns of [Statistic] *)

(** X14.  No two fields of [Statistic] carry the same column name or
    the same field name, so the column named by a field's tag fills
    that field and no other.  The duration columns are lastchg,
    downtime and lastsess, the only EntryType column is type, and every
    other column is a string or a uint64. *)
Theorem X14_statistic_columns :
  (forall f, In f haproxyctl.Statistic -> column_field (haproxyctl.Tag f) = Some f) /\
  NoDup (map haproxyctl.Tag haproxyctl.Statistic) /\
  NoDup (map haproxyctl.Name haproxyctl.Statistic) /\
  columns_of haproxyctl.GoDuration = ["lastchg"; "downtime"; "lastsess"] /\
  columns_of haproxyctl.GoEntryType = ["type"] /\
  (List.length (columns_of haproxyctl.GoString)
   + List.length (columns_of haproxyctl.GoUint64) + 4
   = List.length haproxyctl.Statistic)%nat.
Proof.
  assert (Hdec : forall l : list string,
             (fix nodup (l : list string) : bool :=
                match l with
                | [] => true
                | x :: l' => negb (existsb (String.eqb x) l') && nodup l'
                end) l = true -> NoDup l).
  { induction l as [|x l IH]; intros H; [constructor|].
    apply andb_true_iff in H. destruct H as [Hx Hl].
    constructor; [|apply IH, Hl].
    intros Hin. apply negb_true_iff in Hx.
    assert (existsb (String.eqb x) l = true)
      by (apply existsb_exists; exists x; split; [exact Hin | apply String.eqb_refl]).
    congruence. }
  split.
  - assert (Hall : forallb
                     (fun f =>
                        match column_field (haproxyctl.Tag f) with
                        | Some g =>
                            String.eqb (haproxyctl.Name g) (haproxyctl.Name f)
                            && String.eqb (haproxyctl.Tag g) (haproxyctl.Tag f)
                            && Kind_eqb (haproxyctl.Type_ g) (haproxyctl.Type_ f)
                        | None => false
                        end) haproxyctl.Statistic = true) by (vm_compute; reflexivity).
    rewrite forallb_forall in Hall. intros f Hf.
    specialize (Hall f Hf).
    destruct (column_field (haproxyctl.Tag f)) as [g|]; [|discriminate].
    apply andb_true_iff in Hall. destruct Hall as [Hall Hk].
    apply andb_true_iff in Hall. destruct Hall as [Hn Ht].
    apply String.eqb_eq in Hn, Ht.
    destruct g as [gn gk gt], f as [fn fk ft]. cbn in *. subst.
    destruct gk, fk; try discriminate; reflexivity.
  - split; [apply Hdec; vm_compute; reflexivity|].
    split; [apply Hdec; vm_compute; reflexivity|].
    repeat split.
Qed.

(** *** Negative durations *)

Lemma Duration_String_negative (d : Z) :
  0 < d < 2 ^ 63 ->
  time.Duration_String (- d) = String "-" (time.Duration_String d).
Proof.
  intros Hd. change (2 ^ 63) with 9223372036854775808 in Hd.
  unfold time.Duration_String. cbv zeta.
  destruct (Z.ltb_spec (- d) 0) as [_|E]; [|lia].
  destruct (Z.ltb_spec d 0) as [E|_]; [lia|].
  assert (Hu : u64 (- u64 (- d)) = u64 d).
  { unfold u64. change (2 ^ 64) with 18446744073709551616.
    rewrite (Z.mod_small d) by lia.
    replace (- d) with (18446744073709551616 - d + -1 * 18446744073709551616) by lia.
    rewrite Z.mod_add by lia. rewrite (Z.mod_small (18446744073709551616 - d)) by lia.
    replace (- (18446744073709551616 - d))
      with (d + -1 * 18446744073709551616) by lia.
    rewrite Z.mod_add by lia. apply Z.mod_small. lia. }
  rewrite Hu. reflexivity.
Qed.

(** X15.  A cell of a minus sign and whole seconds, once decoded, is
    rendered by [String] as a minus sign followed by the hours, minutes
    and seconds of the value (-90 reads -1m30s). *)
Theorem X15_negative_seconds_rendered (date : haproxyctl.Duration) (s : string) :
  all_digits s = true -> s <> "" -> 0 < digits_value s <= 9223372036 ->
  haproxyctl.Duration_String
    (fst (haproxyctl.Duration_UnmarshalCSV date (String "-" s)))
  = String "-" (hms (digits_value s)).
Proof.
  intros Hd Hne Hv.
  rewrite (UnmarshalCSV_signed_digits date true s Hd Hne).
  destruct (Z.leb_spec (digits_value s) 9223372036) as [_|E]; [|lia].
  cbn [fst]. unfold haproxyctl.Duration_String, haproxyctl.Nanoseconds.
  cbn [haproxyctl.time_Duration]. change time.Second with 1000000000.
  rewrite i64_small by (change (2 ^ 63) with 9223372036854775808; lia).
  replace (-1 * (digits_value s * 1000000000))
    with (- (digits_value s * 1000000000)) by lia.
  rewrite Duration_String_negative
    by (change (2 ^ 63) with 9223372036854775808; lia).
  rewrite Duration_String_seconds by lia. reflexivity.
Qed.

Lemma X15_negative_seconds_rendered_witness :
  haproxyctl.Duration_String
    (fst (haproxyctl.Duration_UnmarshalCSV (haproxyctl.mkDuration 0) "-90"))
  = "-1m30s".
Proof.
  apply (X15_negative_seconds_rendered (haproxyctl.mkDuration 0) "90");
    [reflexivity | discriminate | vm_compute; split; [reflexivity | discriminate]].
Defined.

(** *** Options written by the caller *)

Section CallerOptions.

Context {url_URL RoundTripper CookieJar Request : Type}.
Variable url_Parse : string -> error + url_URL.

Abbreviation Config := (haproxyctl.HAProxyConfig url_URL).
Abbreviation Clients := (haproxyctl.Heap RoundTripper CookieJar Request).
Abbreviation Opt := (haproxyctl.ConfigOption url_URL RoundTripper CookieJar Request).

Lemma plain_external (opt : Opt) : plain opt -> external opt.
Proof.
  intros Hp c h. destruct (plain_keeps opt c h Hp) as (c' & err & Ho & Hc & Hd).
  rewrite Ho. cbn [fst snd]. auto.
Qed.

Lemma apply_opts_allowed (h0 : Clients) (opts : list Opt) :
  forall (c c' : Config) (h h' : Clients),
    Forall (allowed h0) opts ->
    (List.length h0 <= List.length h)%nat ->
    haproxyctl.setupdone c = false ->
    match haproxyctl.client c with
    | None => True
    | Some p => (p < List.length h)%nat
    end ->
    haproxyctl.apply_opts opts c h = (inr c', h') ->
    haproxyctl.setupdone c' = false /\
    match haproxyctl.client c' with
    | None => True
    | Some p => (p < List.length h')%nat
    end.
Proof.
  induction opts as [|opt opts IH]; intros c c' h h' Hall Hlen Hdone Hcl Hrun.
  - cbn in Hrun. inversion Hrun; subst. auto.
  - inversion Hall as [|? ? Hopt Hrest]; subst.
    cbn [haproxyctl.apply_opts] in Hrun.
    destruct Hopt as [opt Hext| |p Hp].
    + specialize (Hext c h).
      destruct (opt c h) as [[c1 h1] [e|]]; [discriminate Hrun|].
      cbn [fst snd] in Hext. destruct Hext as (Hc1 & Hd1 & Hl1).
      apply (IH c1 c' h1 h' Hrest); [lia | congruence | | exact Hrun].
      rewrite Hc1. destruct (haproxyctl.client c); [lia | exact I].
    + cbn [haproxyctl.WithHttpClient] in Hrun.
      apply (fun Hd Hc => IH _ c' h h' Hrest Hlen Hd Hc Hrun);
        [exact Hdone | exact I].
    + cbn [haproxyctl.WithHttpClient] in Hrun.
      apply (fun Hd Hc => IH _ c' h h' Hrest Hlen Hd Hc Hrun);
        [exact Hdone | cbn; lia].
Qed.

(** X16.  The redirect policy does not depend on the options being the
    provided ones: for any options written by a caller, which cannot
    reach the unexported fields of the config, mixed with
    [WithHttpClient], every config that [NewHAProxyConfig] returns
    holds a client whose redirect check answers [ErrUseLastResponse] to
    every request. *)
Theorem X16_redirect_policy_with_caller_options
    (proxyUrl : string) (opts : list Opt) (h h' : Clients) (c : Config) :
  Forall (allowed h) opts ->
  haproxyctl.NewHAProxyConfig url_Parse proxyUrl opts h = (inr c, h') ->
  exists p cl,
    haproxyctl.client c = Some p /\ nth_error h' p = Some cl /\
    forall req via, haproxyctl.checkRedirect cl req via = Some ErrUseLastResponse.
Proof.
  intros Hall Hnew. unfold haproxyctl.NewHAProxyConfig in Hnew.
  destruct (url_Parse (haproxyctl.endpoint_text proxyUrl)) as [e|endpoint];
    [discriminate Hnew|].
  destruct (haproxyctl.apply_opts opts _ h) as [[e|c1] h1] eqn:Erun;
    [discriminate Hnew|].
  destruct (apply_opts_allowed h opts (initial_config endpoint) c1 h h1 Hall
              (le_n _) eq_refl I Erun) as (Hdone & Hcl).
  destruct (setupClient_disables_redirects c1 h1 Hdone Hcl) as (p & cl & Hp & Hn & Hr).
  destruct (haproxyctl.setupClient c1 h1) as [c2 h2].
  inversion Hnew; subst. exists p, cl. auto.
Qed.

End CallerOptions.

Lemma X16_redirect_policy_with_caller_options_witness :
  exists (p : nat) (cl : haproxyctl.http_Client unit unit unit),
    haproxyctl.client
      (haproxyctl.mkConfig "http://host/" "" "admin" "" (Some 0%nat) true) = Some p /\
    nth_error [with_policy example_client; example_client] p = Some cl /\
    forall (req : unit) (via : list unit),
      haproxyctl.checkRedirect cl req via = Some ErrUseLastResponse.
Proof.
  apply (X16_redirect_policy_with_caller_options keep_text "http://host"
           [haproxyctl.WithHttpClient (Some 0%nat); example_option]
           [example_client]).
  - constructor; [apply allowed_HttpClient; cbn; lia|].
    constructor; [|constructor].
    apply allowed_external. intros c h. cbn. rewrite length_app. cbn.
    repeat split; lia.
  - reflexivity.
Defined.
